(** * Sentinel reverse proxy: a shallow embedding of the request path

    The definitions follow the packages of the repository:
    - [Go]            the parts of the Go runtime and standard library
                      that the code calls (machine integers, [strings],
                      [net], [hash/fnv], the headers of [net/http]);
    - [LoadBalancer]  internal/loadbalancer (round robin, least
                      connections, IP hash);
    - [Health]        internal/health (the state machine of a target and
                      the checker);
    - [Http]          the calls a handler makes on its response writer;
    - [RateLimit]     internal/middleware/ratelimit.go, with the token
                      bucket of golang.org/x/time/rate;
    - [Auth]          internal/middleware/auth.go, with the parser of
                      github.com/golang-jwt/jwt/v5;
    - [TLS]           internal/tls (the certificate store and the SNI
                      callback);
    - [config]        internal/config (the configuration tree);
    - [Router]        server.findMatchingRoute;
    - [Proxy]         internal/proxy and internal/middleware (chains,
                      the retry handler, the main handler, the server);
    - [Scenario]      concrete requests and configurations.
    The properties come after the definitions, one module for each
    subject.

    Go strings are byte strings: they are [string] here, one [ascii] per
    byte.  Go's [int] is the 64-bit signed integer: it is a [Z], and the
    additions of the code are wrapped by [Go.wrap_int]. *)

From Stdlib Require Import ZArith String Ascii List Bool Lia DecimalString.
From stdpp Require Import base gmap strings list.
Import ListNotations.

Local Open Scope string_scope.
Local Open Scope Z_scope.

(* ===================================================================== *)
(** * The Go runtime and library functions used by the code               *)
(* ===================================================================== *)

Module Go.

(** ** Machine integers *)

Definition int_max : Z := 2 ^ 63 - 1.
Definition int_min : Z := - 2 ^ 63.

(** Two's complement wrap-around of [int] (64 bits). *)
Definition wrap_int (z : Z) : Z := (z + 2 ^ 63) mod 2 ^ 64 - 2 ^ 63.

Definition int_add (a b : Z) : Z := wrap_int (a + b).

(** The conversion [uint32(x)]. *)
Definition uint32 (z : Z) : Z := z mod 2 ^ 32.

(** [len(l)] as an [int]. *)
Definition len {A} (l : list A) : Z := Z.of_nat (List.length l).

(** What a call does: it returns a value, returns an [error], or the
    goroutine panics (index out of range, division by zero). *)
Inductive outcome (A : Type) : Type :=
| Ok (a : A)
| Err (msg : string)
| Panic (msg : string).
Arguments Ok {A} a.
Arguments Err {A} msg.
Arguments Panic {A} msg.

(** ** Package [strings] *)

Definition HasPrefix (s p : string) : bool := String.prefix p s.

Definition HasSuffix (s suf : string) : bool :=
  (String.length suf <=? String.length s)%nat
  && String.eqb (substring (String.length s - String.length suf)
                           (String.length suf) s) suf.

(** [s[:i]] and [s[i:]] for an index inside the string. *)
Definition slice_to (s : string) (i : nat) : string := substring 0 i s.
Definition slice_from (s : string) (i : nat) : string :=
  substring i (String.length s - i) s.

Definition TrimPrefix (s p : string) : string :=
  if HasPrefix s p then slice_from s (String.length p) else s.

Definition TrimSuffix (s suf : string) : string :=
  if HasSuffix s suf
  then slice_to s (String.length s - String.length suf) else s.

(** [strings.Index]: byte offset of the first occurrence, or -1. *)
Fixpoint Index (s substr : string) : Z :=
  if String.prefix substr s then 0
  else match s with
       | EmptyString => -1
       | String _ r => let i := Index r substr in
                       if i <? 0 then -1 else i + 1
       end.

(** [strings.LastIndexByte]. *)
Fixpoint LastIndexByte (s : string) (c : ascii) : Z :=
  match s with
  | EmptyString => -1
  | String a r =>
      let i := LastIndexByte r c in
      if 0 <=? i then i + 1
      else if Ascii.eqb a c then 0 else -1
  end.

Definition IndexByte (s : string) (c : ascii) : Z :=
  Index s (String c EmptyString).

(** [strings.Split(s, sep)] for a separator that is not empty.  [skip]
    counts the bytes of a separator still to be dropped, [cur] is the
    field read so far, in reverse. *)
Fixpoint split_go (sep : string) (skip : nat) (cur : list ascii)
         (s : string) : list string :=
  match s with
  | EmptyString => [string_of_list_ascii (rev cur)]
  | String a r =>
      match skip with
      | S k => split_go sep k cur r
      | O =>
          if String.prefix sep s
          then string_of_list_ascii (rev cur)
               :: split_go sep (String.length sep - 1) [] r
          else split_go sep O (a :: cur) r
      end
  end.

Definition Split (s sep : string) : list string := split_go sep O [] s.

(** [strings.TrimSpace]: removes the leading and trailing runes for
    which [unicode.IsSpace] holds.  On a byte string these are the six
    ASCII spaces and the UTF-8 encodings of U+0085, U+00A0, U+1680,
    U+2000..U+200A, U+2028, U+2029, U+202F, U+205F and U+3000. *)
Definition bytes (l : list nat) : string :=
  string_of_list_ascii (map ascii_of_nat l).

Definition space_runes : list string :=
  map bytes
    [ [9]; [10]; [11]; [12]; [13]; [32];
      [194; 133]; [194; 160]; [225; 154; 128];
      [226; 128; 128]; [226; 128; 129]; [226; 128; 130];
      [226; 128; 131]; [226; 128; 132]; [226; 128; 133];
      [226; 128; 134]; [226; 128; 135]; [226; 128; 136];
      [226; 128; 137]; [226; 128; 138];
      [226; 128; 168]; [226; 128; 169]; [226; 128; 175];
      [226; 129; 159]; [227; 128; 128] ]%nat.

Fixpoint strip_first (seqs : list string) (s : string) : option string :=
  match seqs with
  | [] => None
  | q :: qs => if String.prefix q s
               then Some (slice_from s (String.length q))
               else strip_first qs s
  end.

Fixpoint trim_left (seqs : list string) (fuel : nat) (s : string) : string :=
  match fuel with
  | O => s
  | S k => match strip_first seqs s with
           | Some r => trim_left seqs k r
           | None => s
           end
  end.

Definition srev (s : string) : string :=
  string_of_list_ascii (rev (list_ascii_of_string s)).

Definition TrimSpace (s : string) : string :=
  let l := trim_left space_runes (String.length s) s in
  srev (trim_left (map srev space_runes) (String.length l) (srev l)).

(** ** Package [net] *)

(** [net.SplitHostPort]; [None] stands for the [AddrError]. *)
Definition SplitHostPort (hostport : string) : option (string * string) :=
  let i := LastIndexByte hostport ":" in
  if i <? 0 then None
  else
    let n := String.length hostport in
    let finish (host : string) (j k : nat) :=
      if 0 <=? IndexByte (slice_from hostport j) "["
      then None
      else if 0 <=? IndexByte (slice_from hostport k) "]"
      then None
      else Some (host, slice_from hostport (Z.to_nat i + 1)) in
    match hostport with
    | String "[" _ =>
        let e := IndexByte hostport "]" in
        if e <? 0 then None
        else if e + 1 =? Z.of_nat n then None
        else if e + 1 =? i
        then finish (substring 1 (Z.to_nat e - 1) hostport)
                    1%nat (Z.to_nat e + 1)%nat
        else None
    | _ =>
        let host := slice_to hostport (Z.to_nat i) in
        if 0 <=? IndexByte host ":" then None
        else finish host O O
    end.

(** ** Package [hash/fnv]: the 32-bit FNV-1a hash *)

Definition offset32 : Z := 2166136261.
Definition prime32 : Z := 16777619.

Definition byte_val (a : ascii) : Z := Z.of_nat (nat_of_ascii a).

Fixpoint fnv32a_from (h : Z) (s : string) : Z :=
  match s with
  | EmptyString => h
  | String a r => fnv32a_from (uint32 (Z.lxor h (byte_val a) * prime32)) r
  end.

Definition fnv32a (s : string) : Z := fnv32a_from offset32 s.

(** ** Package [net/http]: headers and requests *)

Definition is_lower (a : ascii) : bool :=
  let n := nat_of_ascii a in ((97 <=? n) && (n <=? 122))%nat.
Definition is_upper (a : ascii) : bool :=
  let n := nat_of_ascii a in ((65 <=? n) && (n <=? 90))%nat.
Definition is_digit (a : ascii) : bool :=
  let n := nat_of_ascii a in ((48 <=? n) && (n <=? 57))%nat.
Definition to_upper (a : ascii) : ascii :=
  if is_lower a then ascii_of_nat (nat_of_ascii a - 32) else a.
Definition to_lower (a : ascii) : ascii :=
  if is_upper a then ascii_of_nat (nat_of_ascii a + 32) else a.

(** The bytes allowed in a header field name (RFC 7230 token). *)
Definition validHeaderFieldByte (a : ascii) : bool :=
  is_lower a || is_upper a || is_digit a
  || existsb (Ascii.eqb a)
       (list_ascii_of_string "!#$%&'*+-.^_`|~").

Fixpoint canon_go (upper : bool) (s : string) : string :=
  match s with
  | EmptyString => EmptyString
  | String a r =>
      String (if upper then to_upper a else to_lower a)
             (canon_go (Ascii.eqb a "-") r)
  end.

(** [textproto.CanonicalMIMEHeaderKey]: a name with a byte that is not
    allowed is left as it is. *)
Definition CanonicalHeaderKey (k : string) : string :=
  if forallb validHeaderFieldByte (list_ascii_of_string k)
  then canon_go true k else k.

(** [http.Header] is a [map[string][]string] keyed by canonical names. *)
Definition Header_Get (h : gmap string (list string)) (key : string) : string :=
  match h !! CanonicalHeaderKey key with
  | Some (v :: _) => v
  | _ => ""
  end.

Definition Header_Set (h : gmap string (list string)) (key value : string)
  : gmap string (list string) :=
  <[CanonicalHeaderKey key := [value]]> h.

(** The fields of [*http.Request] the proxy reads.  [Cookies] and
    [Query] are the parsed views that [r.Cookie] and [r.URL.Query]
    return. *)
Record Request : Type := mkRequest {
  Method : string;
  Host : string;
  Path : string;
  Header : gmap string (list string);
  RemoteAddr : string;
  Cookies : list (string * string);
  Query : gmap string (list string)
}.

(** ** Dynamic values *)

(** A value of a [map[string]any] configuration, by its dynamic type. *)
#[local] Unset Elimination Schemes.
Inductive any : Type :=
| AInt (i : Z)
| AFloat64 (bits : Z)
| AString (s : string)
| ABool (b : bool)
| ASlice (l : list any)
| ANil.
#[local] Set Elimination Schemes.

(** [interface.(int)], [.(string)] and [.(bool)] type assertions on a
    map entry. *)
Definition as_int (v : option any) : option Z :=
  match v with Some (AInt i) => Some i | _ => None end.
Definition as_string (v : option any) : option string :=
  match v with Some (AString s) => Some s | _ => None end.
Definition as_bool (v : option any) : option bool :=
  match v with Some (ABool b) => Some b | _ => None end.
Definition as_slice (v : option any) : option (list any) :=
  match v with Some (ASlice l) => Some l | _ => None end.

End Go.

Export Go.


(* ===================================================================== *)
(** * internal/loadbalancer                                               *)
(* ===================================================================== *)

Module LoadBalancer.

(** [loadbalancer.Target]: the view of one upstream target that is handed
    to a strategy.  The parsed [*url.URL] is kept as its text. *)
Record Target : Type := mkTarget {
  URL : string;
  Weight : Z;
  IsHealthy : bool;
  Connections : Z
}.

(** The three strategies with their state: only round robin has some,
    the counter [current]. *)
Inductive LoadBalancer : Type :=
| RoundRobin (current : Z)
| LeastConnections
| IPHash.

Definition NewRoundRobin : LoadBalancer := RoundRobin 0.
Definition NewLeastConnections : LoadBalancer := LeastConnections.
Definition NewIPHash : LoadBalancer := IPHash.

(** [DefaultFactory.Create]. *)
Definition Create (strategy : string) : LoadBalancer :=
  if String.eqb strategy "round_robin" then NewRoundRobin
  else if String.eqb strategy "least_connections" then NewLeastConnections
  else if String.eqb strategy "ip_hash" then NewIPHash
  else NewRoundRobin.

Definition Name (lb : LoadBalancer) : string :=
  match lb with
  | RoundRobin _ => "round_robin"
  | LeastConnections => "least_connections"
  | IPHash => "ip_hash"
  end.

(** The loop that every strategy starts with:
    [for _, target := range targets { if target.IsHealthy { append } }]. *)
Definition healthyTargets (targets : list Target) : list Target :=
  List.filter IsHealthy targets.

(** [healthyTargets[i]] for an [int] index: out of range panics. *)
Definition index_at (healthy : list Target) (i : Z) : outcome Target :=
  if i <? 0 then Panic "index out of range"
  else match healthy !! Z.to_nat i with
       | Some t => Ok t
       | None => Panic "index out of range"
       end.

(** [RoundRobin.SelectTarget]: the result and the new counter.  Go's [%]
    truncates towards zero ([Z.rem]); [rr.current++] wraps. *)
Definition RoundRobin_SelectTarget (current : Z) (targets : list Target)
  : outcome Target * Z :=
  if len targets =? 0 then (Err "no targets available", current)
  else
    let healthy := healthyTargets targets in
    if len healthy =? 0 then (Err "no healthy targets available", current)
    else
      match index_at healthy (Z.rem current (len healthy)) with
      | Ok t => (Ok t, int_add current 1)
      | other => (other, current)
      end.

(** The selection loop of least connections; [selected] starts as the
    nil pointer and [minConnections] as -1. *)
Definition least_step (acc : option Target * Z) (target : Target)
  : option Target * Z :=
  let '(selected, minConnections) := acc in
  if (minConnections =? -1) || (Connections target <? minConnections)
  then (Some target, Connections target)
  else (selected, minConnections).

Definition least_loop (healthy : list Target) : option Target * Z :=
  fold_left least_step healthy (None, -1).

(** [LeastConnections.SelectTarget]; a nil [selected] cannot be used by
    the caller, which reads [target.URL]. *)
Definition LeastConnections_SelectTarget (targets : list Target)
  : outcome Target :=
  if len targets =? 0 then Err "no targets available"
  else
    let healthy := healthyTargets targets in
    if len healthy =? 0 then Err "no healthy targets available"
    else match fst (least_loop healthy) with
         | Some t => Ok t
         | None => Panic "nil pointer dereference"
         end.

(** [IPHash.getClientIP]. *)
Definition IPHash_getClientIP (req : Request) : string :=
  let ip := Header_Get (Header req) "X-Real-IP" in
  if negb (String.eqb ip "") then ip
  else
    let forwarded := Header_Get (Header req) "X-Forwarded-For" in
    let fromRemoteAddr :=
      match SplitHostPort (RemoteAddr req) with
      | None => RemoteAddr req
      | Some (host, _) => host
      end in
    if negb (String.eqb forwarded "")
    then match Split forwarded "," with
         | ip0 :: _ => TrimSpace ip0
         | [] => fromRemoteAddr
         end
    else fromRemoteAddr.

Definition hashIP (ip : string) : Z := fnv32a ip.

(** [IPHash.SelectTarget]: [hash % uint32(len(healthyTargets))]; a zero
    divisor panics. *)
Definition IPHash_SelectTarget (targets : list Target) (req : Request)
  : outcome Target :=
  if len targets =? 0 then Err "no targets available"
  else
    let healthy := healthyTargets targets in
    if len healthy =? 0 then Err "no healthy targets available"
    else
      let clientIP := IPHash_getClientIP req in
      let hash := hashIP clientIP in
      let n := uint32 (len healthy) in
      if n =? 0 then Panic "integer divide by zero"
      else index_at healthy (hash mod n).

(** The interface method, dispatching on the strategy. *)
Definition SelectTarget (lb : LoadBalancer) (targets : list Target)
           (req : Request) : outcome Target * LoadBalancer :=
  match lb with
  | RoundRobin current =>
      let '(r, c) := RoundRobin_SelectTarget current targets in
      (r, RoundRobin c)
  | LeastConnections => (LeastConnections_SelectTarget targets, lb)
  | IPHash => (IPHash_SelectTarget targets req, lb)
  end.

(** [UpdateTarget]: only least connections touches the target. *)
Definition UpdateTarget (lb : LoadBalancer) (target : Target) (delta : Z)
  : Target :=
  match lb with
  | LeastConnections =>
      let c := int_add (Connections target) delta in
      {| URL := URL target; Weight := Weight target;
         IsHealthy := IsHealthy target;
         Connections := if c <? 0 then 0 else c |}
  | _ => target
  end.

End LoadBalancer.

(* ===================================================================== *)
(** * internal/health                                                     *)
(* ===================================================================== *)

Module Health.

(** [health.Status]. *)
Inductive Status : Type :=
| StatusUnknown
| StatusHealthy
| StatusUnhealthy.

Definition Status_eqb (a b : Status) : bool :=
  match a, b with
  | StatusUnknown, StatusUnknown => true
  | StatusHealthy, StatusHealthy => true
  | StatusUnhealthy, StatusUnhealthy => true
  | _, _ => false
  end.

(** [health.TargetHealth]; times are nanoseconds, [Error] is the message
    of the last error, if any. *)
Record TargetHealth : Type := mkTargetHealth {
  URL : string;
  Status_ : Status;
  LastCheck : Z;
  ConsecutiveFailures : Z;
  ConsecutiveSuccesses : Z;
  ResponseTime : Z;
  Error : option string
}.

(** [config.HealthCheckConfig]. *)
Record HealthCheckConfig : Type := mkHealthCheckConfig {
  Enabled : bool;
  Path : string;
  Interval : Z;
  Timeout : Z;
  FailureThreshold : Z;
  SuccessThreshold : Z
}.

(** The record that [registerTarget] stores and that [CheckTarget] starts
    from for a URL it has not seen: every other field has its zero
    value. *)
Definition unknownTarget (url : string) : TargetHealth :=
  {| URL := url; Status_ := StatusUnknown; LastCheck := 0;
     ConsecutiveFailures := 0; ConsecutiveSuccesses := 0;
     ResponseTime := 0; Error := None |}.

(** [checker.updateTargetHealth]; [now] is the reading of [time.Now()]. *)
Definition updateTargetHealth (existing : TargetHealth) (isHealthy : bool)
           (responseTime : Z) (err : option string)
           (config : HealthCheckConfig) (now : Z) : TargetHealth :=
  if isHealthy then
    let successes := int_add (ConsecutiveSuccesses existing) 1 in
    {| URL := URL existing; LastCheck := now;
       ResponseTime := responseTime; Error := err;
       ConsecutiveSuccesses := successes;
       ConsecutiveFailures := 0;
       Status_ := if SuccessThreshold config <=? successes
                  then StatusHealthy else Status_ existing |}
  else
    let failures := int_add (ConsecutiveFailures existing) 1 in
    {| URL := URL existing; LastCheck := now;
       ResponseTime := responseTime; Error := err;
       ConsecutiveFailures := failures;
       ConsecutiveSuccesses := 0;
       Status_ := if FailureThreshold config <=? failures
                  then StatusUnhealthy else Status_ existing |}.

(** The state of the [checker]: its [targets] map. *)
Record checker : Type := mkChecker {
  cfg_Enabled : bool;
  targets : gmap string TargetHealth
}.

Definition NewChecker (enabled : bool) : checker :=
  {| cfg_Enabled := enabled; targets := ∅ |}.

(** [checker.IsHealthy]. *)
Definition IsHealthy (c : checker) (url : string) : bool :=
  match targets c !! url with
  | None => true
  | Some health => Status_eqb (Status_ health) StatusHealthy
  end.

(** [checker.GetHealth]. *)
Definition GetHealth (c : checker) (url : string) : TargetHealth :=
  match targets c !! url with
  | None => unknownTarget url
  | Some health => health
  end.

(** [checker.registerTarget] and [checker.unregisterTarget]. *)
Definition registerTarget (c : checker) (url : string) : checker :=
  match targets c !! url with
  | Some _ => c
  | None => {| cfg_Enabled := cfg_Enabled c;
               targets := <[url := unknownTarget url]> (targets c) |}
  end.

Definition unregisterTarget (c : checker) (url : string) : checker :=
  {| cfg_Enabled := cfg_Enabled c; targets := delete url (targets c) |}.

(** What one probe observes: the request could not be built, the
    transport failed (which covers the timeout), or a response came back
    with a status code after some time. *)
Inductive probe : Type :=
| RequestFailed (msg : string)
| TransportFailed (elapsed : Z) (msg : string)
| Responded (elapsed : Z) (StatusCode : Z).

(** [checker.CheckTarget]. *)
Definition CheckTarget (c : checker) (url : string)
           (config : HealthCheckConfig) (p : probe) (now : Z) : TargetHealth :=
  if negb (Enabled config) then
    {| URL := url; Status_ := StatusHealthy; LastCheck := now;
       ConsecutiveFailures := 0; ConsecutiveSuccesses := 0;
       ResponseTime := 0; Error := None |}
  else
    let existing := match targets c !! url with
                    | Some h => h
                    | None => unknownTarget url
                    end in
    match p with
    | RequestFailed msg =>
        updateTargetHealth existing false 0
          (Some ("failed to create request: " ++ msg)) config now
    | TransportFailed elapsed msg =>
        updateTargetHealth existing false elapsed
          (Some ("health check failed: " ++ msg)) config now
    | Responded elapsed code =>
        let isHealthy := (200 <=? code) && (code <? 300) in
        updateTargetHealth existing isHealthy elapsed
          (if isHealthy then None
           else Some ("unhealthy status code: "
                      ++ NilZero.string_of_int (Z.to_int code)))
          config now
    end.

(** The configuration that [performHealthChecks] builds for every
    target. *)
Definition defaultHealthConfig (interval timeout : Z) : HealthCheckConfig :=
  {| Enabled := true; Path := "/health"; Interval := interval;
     Timeout := timeout; FailureThreshold := 3; SuccessThreshold := 2 |}.

(** [checker.performHealthChecks]: every registered URL is probed and
    its record replaced; the goroutines write disjoint keys. *)
Definition performHealthChecks (c : checker) (interval timeout : Z)
           (probes : string -> probe) (now : Z) : checker :=
  {| cfg_Enabled := cfg_Enabled c;
     targets := map_imap
                  (fun url _ =>
                     Some (CheckTarget c url
                             (defaultHealthConfig interval timeout)
                             (probes url) now))
                  (targets c) |}.

(** What one tick observes of a target: whether the probe was answered
    2xx, the response time, the error and the time of the check. *)
Record observation : Type := mkObservation {
  ok : bool;
  rtt : Z;
  failure : option string;
  at_time : Z
}.

(** A run of probes on one target: the observations are applied in
    order, as successive ticks do. *)
Definition run_probes (config : HealthCheckConfig) (h : TargetHealth)
           (obs : list observation) : TargetHealth :=
  fold_left (fun acc o =>
               updateTargetHealth acc (ok o) (rtt o) (failure o) config
                                  (at_time o))
            obs h.

(** The number of outcomes equal to [b] at the end of a history. *)
Fixpoint streak_rev (b : bool) (rev_outcomes : list bool) : nat :=
  match rev_outcomes with
  | o :: rest => if Bool.eqb o b then S (streak_rev b rest) else O
  | [] => O
  end.

Definition trailing (b : bool) (outcomes : list bool) : nat :=
  streak_rev b (rev outcomes).

End Health.

(* ===================================================================== *)
(** * The response writer                                                 *)
(* ===================================================================== *)

Module Http.

(** The calls a handler makes on its [http.ResponseWriter], in order.
    [Abort] records that the handler panicked. *)
Inductive WOp : Type :=
| SetHeader (key value : string)
| DelHeader (key : string)
| WriteHeader (statusCode : Z)
| Write (data : string)
| Abort (msg : string).

Definition StatusSwitchingProtocols : Z := 101.
Definition StatusOK : Z := 200.
Definition StatusUnauthorized : Z := 401.
Definition StatusNotFound : Z := 404.
Definition StatusTooManyRequests : Z := 429.
Definition StatusInternalServerError : Z := 500.
Definition StatusServiceUnavailable : Z := 503.

Definition newline : string := String (ascii_of_nat 10) EmptyString.

(** [http.Error] and [http.NotFound]. *)
Definition Error (error : string) (code : Z) : list WOp :=
  [ DelHeader "Content-Length";
    SetHeader "Content-Type" "text/plain; charset=utf-8";
    SetHeader "X-Content-Type-Options" "nosniff";
    WriteHeader code;
    Write (error ++ newline) ].

Definition NotFound : list WOp := Error "404 page not found" StatusNotFound.

(** The codes with which [WriteHeader] of the server's own writer fixes
    the status line.  A code outside 100..999 makes the call panic
    before anything is noted, and a 1xx code other than 101 sends an
    informational response: both leave the status line open.  (This is
    the writer of an HTTP/1 connection; over HTTP/2 the code 101 is
    informational as well.) *)
Definition fixes_status (code : Z) : bool :=
  (100 <=? code) && (code <=? 999)
  && negb ((code <=? 199) && negb (code =? StatusSwitchingProtocols)).

(** What the server's own writer makes of the calls: the status line is
    fixed by the first [WriteHeader] with a code that fixes it (or by
    the first [Write], as 200), later [WriteHeader] calls are ignored,
    and the body is every [Write] in order. *)
Fixpoint sent_status (ops : list WOp) : option Z :=
  match ops with
  | [] => None
  | WriteHeader c :: rest => if fixes_status c then Some c else sent_status rest
  | Write _ :: _ => Some StatusOK
  | Abort _ :: _ => None
  | _ :: rest => sent_status rest
  end.

Fixpoint sent_body (ops : list WOp) : string :=
  match ops with
  | [] => ""
  | Write d :: rest => d ++ sent_body rest
  | Abort _ :: _ => ""
  | _ :: rest => sent_body rest
  end.

(** The status codes passed to [WriteHeader], in order. *)
Fixpoint statuses (ops : list WOp) : list Z :=
  match ops with
  | [] => []
  | WriteHeader c :: rest => c :: statuses rest
  | _ :: rest => statuses rest
  end.

End Http.

Export Http.

(* ===================================================================== *)
(** * internal/middleware: rate limiting                                  *)
(* ===================================================================== *)

Module RateLimit.

(** ** The token bucket of golang.org/x/time/rate

    Times are nanoseconds since the zero [time.Time]; durations are
    nanoseconds.  The limit is a whole number of events per second, as
    [rate.Limit(int)] gives, and tokens are counted in billionths of a
    token, so that the arithmetic of the bucket is exact. *)

Definition Second : Z := 1000000000.
Definition maxDuration : Z := int_max.
Definition InfDuration : Z := int_max.

Record Limiter : Type := mkLimiter {
  limit : Z;
  burst : Z;
  tokens : Z;
  last : Z
}.

Definition NewLimiter (r : Z) (b : Z) : Limiter :=
  {| limit := r; burst := b; tokens := 0; last := 0 |}.

(** [Time.Sub] saturates. *)
Definition Time_Sub (t u : Z) : Z :=
  Z.max (- maxDuration - 1) (Z.min maxDuration (t - u)).

Definition tokensFromDuration (lim : Z) (d : Z) : Z :=
  if lim <=? 0 then 0 else d * lim.

Definition durationFromTokens (lim : Z) (toks : Z) : Z :=
  if lim <=? 0 then InfDuration
  else let d := Z.quot toks lim in
       if int_max <? d then InfDuration else d.

(** [Limiter.advance]: the tokens the bucket holds at time [t]. *)
Definition advance (lim : Limiter) (t : Z) : Z :=
  let last' := if t <? last lim then t else last lim in
  let elapsed := Time_Sub t last' in
  let delta := tokensFromDuration (limit lim) elapsed in
  let toks := tokens lim + delta in
  if burst lim * Second <? toks then burst lim * Second else toks.

(** [Limiter.Allow()], that is [reserveN(now, 1, 0).ok], with the new
    state of the limiter. *)
Definition Allow (lim : Limiter) (now : Z) : bool * Limiter :=
  let toks := advance lim now - 1 * Second in
  let waitDuration :=
    if toks <? 0 then durationFromTokens (limit lim) (- toks) else 0 in
  let ok := (1 <=? burst lim) && (waitDuration <=? 0) in
  if ok
  then (true, {| limit := limit lim; burst := burst lim;
                 tokens := toks; last := now |})
  else (false, lim).

(** ** The middleware *)

Record RateLimitConfig : Type := mkRateLimitConfig {
  RequestsPerSecond : Z;
  Burst : Z;
  KeyFunc : string
}.

Record RateLimitMiddleware : Type := mkRateLimitMiddleware {
  config : RateLimitConfig;
  limiters : gmap string Limiter
}.

(** [NewRateLimitMiddleware]. *)
Definition NewRateLimitMiddleware (cfg : gmap string any)
  : RateLimitMiddleware :=
  {| config :=
       {| RequestsPerSecond :=
            match as_int (cfg !! "requests_per_second") with
            | Some rps => rps | None => 10 end;
          Burst :=
            match as_int (cfg !! "burst") with
            | Some b => b | None => 20 end;
          KeyFunc :=
            match as_string (cfg !! "key_func") with
            | Some k => k | None => "ip" end |};
     limiters := ∅ |}.

(** [getClientIP] of ratelimit.go. *)
Definition getClientIP (r : Request) : string :=
  let ip := Header_Get (Header r) "X-Real-IP" in
  if negb (String.eqb ip "") then ip
  else
    let ip := Header_Get (Header r) "X-Forwarded-For" in
    if negb (String.eqb ip "") then ip
    else RemoteAddr r.

(** [RateLimitMiddleware.getKey]. *)
Definition getKey (rlm : RateLimitMiddleware) (r : Request) : string :=
  let k := KeyFunc (config rlm) in
  if String.eqb k "ip" then getClientIP r
  else if String.eqb k "user" then
    let userID := Header_Get (Header r) "X-User-ID" in
    if negb (String.eqb userID "") then userID else getClientIP r
  else if String.eqb k "global" then "global"
  else getClientIP r.

(** [RateLimitMiddleware.getLimiter]: the limiter of the key, created on
    first use, and the registry with it. *)
Definition getLimiter (rlm : RateLimitMiddleware) (key : string)
  : Limiter * RateLimitMiddleware :=
  match limiters rlm !! key with
  | Some limiter => (limiter, rlm)
  | None =>
      let limiter := NewLimiter (RequestsPerSecond (config rlm))
                                (Burst (config rlm)) in
      (limiter, {| config := config rlm;
                   limiters := <[key := limiter]> (limiters rlm) |})
  end.

(** [fmt.Sprintf("%.2f", n)] for an [int] argument: the verb does not
    fit the type. *)
Definition Sprintf_2f_int (n : Z) : string :=
  "%!f(int=" ++ NilZero.string_of_int (Z.to_int n) ++ ")".

(** What the middleware writes when it denies a request. *)
Definition denied (rlm : RateLimitMiddleware) : list WOp :=
  [ SetHeader "X-RateLimit-Limit"
              (Sprintf_2f_int (RequestsPerSecond (config rlm)));
    SetHeader "X-RateLimit-Remaining" "0";
    SetHeader "Retry-After" "1" ]
  ++ Http.Error "Rate limit exceeded" StatusTooManyRequests.

(** The decision of [RateLimitMiddleware.Handle] on one call: [true]
    when the request goes on to the next handler.  The limiter is shared
    through the registry, so its new state is stored under the key. *)
Definition allow_request (rlm : RateLimitMiddleware) (now : Z) (r : Request)
  : bool * RateLimitMiddleware :=
  let key := getKey rlm r in
  let '(limiter, rlm1) := getLimiter rlm key in
  let '(ok, limiter') := Allow limiter now in
  (ok, {| config := config rlm1;
          limiters := <[key := limiter']> (limiters rlm1) |}).

End RateLimit.

(* ===================================================================== *)
(** * internal/middleware: JWT authentication                             *)
(* ===================================================================== *)

Module Auth.

(** [middleware.AuthConfig]. *)
Record AuthConfig : Type := mkAuthConfig {
  JWTSecret : string;
  JWTIssuer : string;
  SkipPaths : list string;
  TokenLocation : string;
  TokenName : string;
  AuthType : string;
  SecretKey : string;
  TokenHeader : string;
  PublicPaths : list string
}.

(** [middleware.Claims] with the registered claims it embeds; a numeric
    date is a time in nanoseconds, absent when the claim is. *)
Record Claims : Type := mkClaims {
  UserID : string;
  Email : string;
  Roles : list string;
  Issuer : string;
  ExpiresAt : option Z;
  NotBefore : option Z;
  IssuedAt : option Z
}.

(** The strings of a [[]any] value. *)
Definition strings_of (l : list any) : list string :=
  omap (fun v => match v with AString s => Some s | _ => None end) l.

(** [NewAuthMiddleware]; [None] is the error for a missing secret. *)
Definition NewAuthMiddleware (cfg : gmap string any) : option AuthConfig :=
  let jwtSecret0 := default "" (as_string (cfg !! "jwt_secret")) in
  let secretKey := default "" (as_string (cfg !! "secret_key")) in
  let jwtSecret :=
    match as_string (cfg !! "secret_key") with
    | Some k => if String.eqb jwtSecret0 "" then k else jwtSecret0
    | None => jwtSecret0
    end in
  let skipPaths0 :=
    match as_slice (cfg !! "skip_paths") with
    | Some l => strings_of l | None => [] end in
  let publicPaths :=
    match as_slice (cfg !! "public_paths") with
    | Some l => strings_of l | None => [] end in
  let skipPaths :=
    match as_slice (cfg !! "public_paths") with
    | Some _ => if len skipPaths0 =? 0 then publicPaths else skipPaths0
    | None => skipPaths0
    end in
  let tokenName0 := default "Authorization" (as_string (cfg !! "token_name")) in
  let tokenName :=
    match as_string (cfg !! "token_header") with
    | Some h => if String.eqb tokenName0 "Authorization" then h else tokenName0
    | None => tokenName0
    end in
  if String.eqb jwtSecret "" then None
  else Some {| JWTSecret := jwtSecret;
               JWTIssuer := default "" (as_string (cfg !! "jwt_issuer"));
               SkipPaths := skipPaths;
               TokenLocation :=
                 default "header" (as_string (cfg !! "token_location"));
               TokenName := tokenName;
               AuthType := default "jwt" (as_string (cfg !! "auth_type"));
               SecretKey := secretKey;
               TokenHeader := default "" (as_string (cfg !! "token_header"));
               PublicPaths := publicPaths |}.

(** [AuthMiddleware.extractToken]; [None] is the error. *)
Definition extractToken (am : AuthConfig) (r : Request) : option string :=
  if String.eqb (TokenLocation am) "header" then
    let authHeader := Header_Get (Header r) (TokenName am) in
    if String.eqb authHeader "" then None
    else if HasPrefix authHeader "Bearer "
    then Some (TrimPrefix authHeader "Bearer ")
    else Some authHeader
  else if String.eqb (TokenLocation am) "cookie" then
    snd <$> List.find (fun c => String.eqb (fst c) (TokenName am)) (Cookies r)
  else if String.eqb (TokenLocation am) "query" then
    match Query r !! TokenName am with
    | Some (token :: _) => if String.eqb token "" then None else Some token
    | _ => None
    end
  else None.

(** ** github.com/golang-jwt/jwt/v5 *)

(** The families of registered signing methods, with the name of the
    method. *)
Inductive SigningMethod : Type :=
| SigningMethodHMAC (alg : string)
| SigningMethodRSA (alg : string)
| SigningMethodRSAPSS (alg : string)
| SigningMethodECDSA (alg : string)
| SigningMethodEd25519
| SigningMethodNone.

(** [jwt.GetSigningMethod]: the methods the library registers. *)
Definition GetSigningMethod (alg : string) : option SigningMethod :=
  if existsb (String.eqb alg) ["HS256"; "HS384"; "HS512"]
  then Some (SigningMethodHMAC alg)
  else if existsb (String.eqb alg) ["RS256"; "RS384"; "RS512"]
  then Some (SigningMethodRSA alg)
  else if existsb (String.eqb alg) ["PS256"; "PS384"; "PS512"]
  then Some (SigningMethodRSAPSS alg)
  else if existsb (String.eqb alg) ["ES256"; "ES384"; "ES512"]
  then Some (SigningMethodECDSA alg)
  else if String.eqb alg "EdDSA" then Some SigningMethodEd25519
  else if String.eqb alg "none" then Some SigningMethodNone
  else None.

(** A token string, as the parser reads it: not three well-formed
    segments, or a header with its [alg] entry (absent when the header
    has none that is a string), the claims, the text that was signed
    (the first two segments) and the decoded signature. *)
Inductive TokenString : Type :=
| Malformed
| Segments (alg : option string) (claims : Claims)
           (signingInput : string) (signature : string).

Section Validation.

(** The keyed hash of a method of the HMAC family: [hmac alg key text]
    is HMAC-SHA256, -SHA384 or -SHA512 of [text], by [alg]. *)
Variable hmac : string -> string -> string -> string.

(** The key function that [validateToken] passes to the parser: the
    type assertion holds for the methods of the HMAC family. *)
Definition keyFunc (am : AuthConfig) (method : SigningMethod) : option string :=
  match method with
  | SigningMethodHMAC _ => Some (JWTSecret am)
  | _ => None
  end.

(** [SigningMethod.Verify] with a [[]byte] key: the other families
    refuse the type of the key. *)
Definition Verify (method : SigningMethod) (signingInput signature key : string)
  : bool :=
  match method with
  | SigningMethodHMAC alg => String.eqb signature (hmac alg key signingInput)
  | _ => false
  end.

(** The validator of the parser, with its default options: [exp] and
    [nbf] are checked when present. *)
Definition Validate (c : Claims) (now : Z) : bool :=
  match ExpiresAt c with Some exp => now <? exp | None => true end
  && match NotBefore c with Some nbf => negb (now <? nbf) | None => true end.

(** [AuthMiddleware.validateToken]: [jwt.ParseWithClaims] with the key
    function, then the checks of the middleware itself. *)
Definition validateToken (am : AuthConfig) (now : Z) (tokenString : TokenString)
  : outcome Claims :=
  match tokenString with
  | Malformed => Err "token is malformed"
  | Segments None _ _ _ => Err "signing method (alg) is unspecified"
  | Segments (Some alg) claims signingInput signature =>
      match GetSigningMethod alg with
      | None => Err "signing method (alg) is unavailable"
      | Some method =>
          match keyFunc am method with
          | None => Err "unexpected signing method"
          | Some key =>
              if negb (Verify method signingInput signature key)
              then Err "signature is invalid"
              else if negb (Validate claims now)
              then Err "token has invalid claims"
              else if negb (String.eqb (JWTIssuer am) "")
                      && negb (String.eqb (Issuer claims) (JWTIssuer am))
              then Err "invalid token issuer"
              else if match ExpiresAt claims with
                      | Some exp => exp <? now
                      | None => false
                      end
              then Err "token expired"
              else Ok claims
          end
      end
  end.

(** What a token needs to pass [validateToken]. *)
Definition accepted (am : AuthConfig) (now : Z) (tokenString : TokenString)
           (claims : Claims) : Prop :=
  exists alg signingInput signature,
    tokenString = Segments (Some alg) claims signingInput signature
    /\ In alg ["HS256"; "HS384"; "HS512"]
    /\ signature = hmac alg (JWTSecret am) signingInput
    /\ match ExpiresAt claims with Some exp => now < exp | None => True end
    /\ match NotBefore claims with Some nbf => nbf <= now | None => True end
    /\ (JWTIssuer am = "" \/ Issuer claims = JWTIssuer am).

(** The parser of the library: how the text of a token splits into
    segments. *)
Variable parse : string -> TokenString.

(** [AuthMiddleware.Handle] up to the call of the next handler: either
    the answer of the middleware, or the request that goes on. *)
Definition Handle (am : AuthConfig) (now : Z) (r : Request)
  : list WOp + Request :=
  if existsb (fun skipPath => HasPrefix (Path r) skipPath) (SkipPaths am)
  then inr r
  else
    match extractToken am r with
    | None => inl (Http.Error "Unauthorized" StatusUnauthorized)
    | Some token =>
        match validateToken am now (parse token) with
        | Ok claims =>
            let h1 := Header_Set (Header r) "X-User-ID" (UserID claims) in
            let h2 := Header_Set h1 "X-User-Email" (Email claims) in
            let h3 := Header_Set h2 "X-User-Roles"
                                 (String.concat "," (Roles claims)) in
            inr {| Method := Method r; Host := Host r; Path := Path r;
                   Header := h3; RemoteAddr := RemoteAddr r;
                   Cookies := Cookies r; Query := Query r |}
        | _ => inl (Http.Error "Unauthorized" StatusUnauthorized)
        end
    end.

End Validation.

End Auth.

(* ===================================================================== *)
(** * internal/tls: the certificate manager                               *)
(* ===================================================================== *)

Module TLS.

(** [config.CertificateConfig], the fields that loading reads. *)
Record CertificateConfig : Type := mkCertificateConfig {
  Hosts : list string;
  CertFile : string;
  KeyFile : string;
  AutoGenerate : bool;
  SelfSigned : bool
}.

(** [config.AutoCertConfig] and [config.TLSConfig]. *)
Record AutoCertConfig : Type := mkAutoCertConfig {
  AutoCert_Enabled : bool;
  AutoCert_Hosts : list string
}.

Record TLSConfig : Type := mkTLSConfig {
  Enabled : bool;
  AutoCert : AutoCertConfig;
  Certificates : list CertificateConfig
}.

(** A parsed key pair ([tls.Certificate]): the PEM texts it came from. *)
Record Certificate : Type := mkCertificate {
  certPEM : string;
  keyPEM : string
}.

(** [tls.Manager]: the configuration, the store and whether the ACME
    manager was set up. *)
Record Manager : Type := mkManager {
  cfg : TLSConfig;
  certificates : gmap string Certificate;
  autocertMgr : bool
}.

Section Loading.

(** The part of [loadCertificate] before the store is written: the
    generation of a missing self-signed pair, the two file reads, the
    parsing and the validation against the clock.  [None] is an error of
    any of them. *)
Variable readKeyPair : CertificateConfig -> option Certificate.

(** The loop at the end of [loadCertificate]:
    [for _, host := range certConfig.Hosts { m.certificates[host] = &cert }]. *)
Definition storeHosts (cert : Certificate) (hosts : list string)
           (store : gmap string Certificate) : gmap string Certificate :=
  fold_left (fun st host => <[host := cert]> st) hosts store.

(** [Manager.loadCertificate]. *)
Definition loadCertificate (certConfig : CertificateConfig)
           (store : gmap string Certificate)
  : option (gmap string Certificate) :=
  match readKeyPair certConfig with
  | None => None
  | Some cert => Some (storeHosts cert (Hosts certConfig) store)
  end.

(** [Manager.loadManualCertificates]: the entries in order, stopping at
    the first error. *)
Fixpoint loadManualCertificates (entries : list CertificateConfig)
         (store : gmap string Certificate)
  : option (gmap string Certificate) :=
  match entries with
  | [] => Some store
  | certConfig :: rest =>
      match loadCertificate certConfig store with
      | None => None
      | Some store' => loadManualCertificates rest store'
      end
  end.

(** [NewManager]; [None] is its error.  The ACME manager is set up when
    it is enabled; its cache directory is taken to be there. *)
Definition NewManager (c : TLSConfig) : option Manager :=
  if negb (Enabled c)
  then Some {| cfg := c; certificates := ∅; autocertMgr := false |}
  else
    match loadManualCertificates (Certificates c) ∅ with
    | None => None
    | Some store =>
        Some {| cfg := c; certificates := store;
                autocertMgr := AutoCert_Enabled (AutoCert c) |}
    end.

(** [Manager.ReloadCertificates]: the store is emptied and loaded again;
    [None] is its error. *)
Definition ReloadCertificates (m : Manager) : option Manager :=
  match loadManualCertificates (Certificates (cfg m)) ∅ with
  | None => None
  | Some store => Some {| cfg := cfg m; certificates := store;
                          autocertMgr := autocertMgr m |}
  end.

End Loading.

(** What the [GetCertificate] callback answers. *)
Inductive resolution : Type :=
| Found (cert : Certificate)
| AutoCertManager (serverName : string)
| NoCertificate (msg : string).

(** [for _, cert := range m.certificates { return cert }]: Go starts the
    iteration of a map at an entry of its choosing; [choice] is that
    choice. *)
Definition firstOfRange (store : gmap string Certificate) (choice : nat)
  : option Certificate :=
  let entries := map_to_list store in
  snd <$> entries !! (choice mod List.length entries)%nat.

(** The first lines of the callback: the server name up to its first
    colon. *)
Definition requestedHost (ServerName : string) : string :=
  let colonIndex := Index ServerName ":" in
  if negb (colonIndex =? -1)
  then slice_to ServerName (Z.to_nat colonIndex) else ServerName.

(** The callback that [Manager.GetTLSConfig] installs as
    [GetCertificate], on the [ServerName] of the client hello. *)
Definition GetCertificate (m : Manager) (choice : nat) (ServerName : string)
  : resolution :=
  let requestedHost := requestedHost ServerName in
  if String.eqb requestedHost "" then
    match firstOfRange (certificates m) choice with
    | Some cert => Found cert
    | None => NoCertificate "no default certificate available"
    end
  else
    match certificates m !! requestedHost with
    | Some cert => Found cert
    | None =>
        if AutoCert_Enabled (AutoCert (cfg m)) && autocertMgr m
        then AutoCertManager ServerName
        else NoCertificate ("no certificate found for host: " ++ requestedHost)
    end.

(** [Manager.GetTLSConfig]: the callback, unless TLS is disabled. *)
Definition GetTLSConfig (m : Manager) (host : string)
  : option (nat -> string -> resolution) :=
  if negb (Enabled (cfg m)) then None else Some (GetCertificate m).

(** ASCII lower case, as [strings.ToLower] gives on a host name. *)
Definition ToLower (s : string) : string :=
  string_of_list_ascii (map to_lower (list_ascii_of_string s)).

(** The normalisation the specification describes: the port removed and
    the name in lower case. *)
Definition normalizedSNI (ServerName : string) : string :=
  ToLower (requestedHost ServerName).

(** The entry that wrote the store last for a host: the last one of the
    configuration whose [hosts] list names it. *)
Definition lastEntryFor (entries : list CertificateConfig) (host : string)
  : option CertificateConfig :=
  List.find (fun entry => existsb (String.eqb host) (Hosts entry))
            (rev entries).

End TLS.

(* ===================================================================== *)
(** * internal/config: the configuration tree                             *)
(* ===================================================================== *)

Module config.

Record RewriteConfig : Type := mkRewriteConfig {
  StripPrefix : string;
  AddPrefix : string;
  Regex : string;
  Replacement : string
}.

Record RetryPolicy : Type := mkRetryPolicy {
  Attempts : Z;
  Backoff : Z
}.

(** [config.RouteRule]; the [Headers] map is kept as a finite map. *)
Record RouteRule : Type := mkRouteRule {
  Host : string;
  Path : string;
  Methods : list string;
  Upstream : string;
  Rewrite : RewriteConfig;
  Middleware : list string;
  Headers : gmap string string;
  Timeout_ : Z;
  Retry : RetryPolicy
}.

Record Target : Type := mkTarget {
  URL : string;
  Weight : Z
}.

Record UpstreamService : Type := mkUpstreamService {
  LoadBalancer : string;
  HealthCheck : Health.HealthCheckConfig;
  Targets : list Target
}.

(** [config.MiddlewareChain]: one entry of the middleware configuration. *)
Record MiddlewareChain : Type := mkMiddlewareChain {
  Name : string;
  Type_ : string;
  Config_ : gmap string any;
  Enabled : bool;
  Order : Z
}.

(** The parts of [config.Config] that the proxy reads. *)
Record Config : Type := mkConfig {
  Upstreams : gmap string UpstreamService;
  Routes : list RouteRule;
  Middlewares : list MiddlewareChain
}.

(** [validateRouteRule], the checks on host and path. *)
Definition validRoutePattern (rule : RouteRule) : bool :=
  negb (String.eqb (Host rule) "")
  && negb (String.eqb (Path rule) "")
  && HasPrefix (Path rule) "/".


End config.

(* ===================================================================== *)
(** * internal/proxy: the router and the target views                     *)
(* ===================================================================== *)

Module Router.

(** The body of the loop of [server.findMatchingRoute] for one rule:
    [true] when no [continue] is taken and the rule is returned. *)
Definition ruleMatches (rule : config.RouteRule) (r : Request) : bool :=
  (if negb (String.eqb (config.Host rule) "") then
     let requestHost := Host r in
     let colonIndex := Index requestHost ":" in
     let requestHost :=
       if negb (colonIndex =? -1)
       then slice_to requestHost (Z.to_nat colonIndex) else requestHost in
     String.eqb (config.Host rule) requestHost
   else true)
  &&
  (if negb (String.eqb (config.Path rule) "") then
     if HasSuffix (config.Path rule) "/*" then
       let prefix := TrimSuffix (config.Path rule) "/*" in
       HasPrefix (Path r) prefix
     else String.eqb (Path r) (config.Path rule)
   else true)
  &&
  (if 0 <? len (config.Methods rule) then
     existsb (fun method => String.eqb method (Method r)) (config.Methods rule)
   else true).

(** [server.findMatchingRoute]. *)
Fixpoint findMatchingRoute (rules : list config.RouteRule) (r : Request)
  : option config.RouteRule :=
  match rules with
  | [] => None
  | rule :: rest =>
      if ruleMatches rule r then Some rule else findMatchingRoute rest r
  end.

(** The three conditions as the specification states them.  The port of
    a [Host] header starts at its first colon. *)
Definition stripPort (host : string) : string :=
  let i := Index host ":" in
  if i <? 0 then host else slice_to host (Z.to_nat i).

Definition hostCondition (rule : config.RouteRule) (r : Request) : Prop :=
  config.Host rule = "" \/ config.Host rule = stripPort (Host r).

Definition pathCondition (rule : config.RouteRule) (r : Request) : Prop :=
  let p := config.Path rule in
  if HasSuffix p "/*"
  then HasPrefix (Path r) (slice_to p (String.length p - 2)) = true
  else Path r = p.

Definition methodCondition (rule : config.RouteRule) (r : Request) : Prop :=
  config.Methods rule = [] \/ In (Method r) (config.Methods rule).

Definition conditionsHold (rule : config.RouteRule) (r : Request) : Prop :=
  hostCondition rule r /\ pathCondition rule r /\ methodCondition rule r.

End Router.

(* ===================================================================== *)
(** * internal/middleware and internal/proxy: chains and the handlers     *)
(* ===================================================================== *)

Module Proxy.

(** A middleware instance, with the state it owns: the factory builds
    the first four kinds, the proxy the last. *)
Inductive Middleware : Type :=
| LoggingMiddleware (cfg : gmap string any)
| RateLimitMiddleware (rlm : RateLimit.RateLimitMiddleware)
| AuthMiddleware (am : Auth.AuthConfig)
| CompressionMiddleware (cfg : gmap string any)
| headersMiddleware (headers : gmap string string).

(** [middleware.Factory.Create]; [None] is its error. *)
Definition Create (middlewareType : string) (cfg : gmap string any)
  : option Middleware :=
  if String.eqb middlewareType "logging" then Some (LoggingMiddleware cfg)
  else if String.eqb middlewareType "rate_limit"
  then Some (RateLimitMiddleware (RateLimit.NewRateLimitMiddleware cfg))
  else if String.eqb middlewareType "auth"
  then AuthMiddleware <$> Auth.NewAuthMiddleware cfg
  else if String.eqb middlewareType "compression"
  then Some (CompressionMiddleware cfg)
  else None.

(** [sort.Slice] by [Order]; validation makes the orders distinct, so
    the sorted chain does not depend on the algorithm. *)
Fixpoint insertByOrder (mw : config.MiddlewareChain)
         (sorted : list config.MiddlewareChain) : list config.MiddlewareChain :=
  match sorted with
  | [] => [mw]
  | x :: rest => if config.Order mw <? config.Order x
                 then mw :: sorted else x :: insertByOrder mw rest
  end.

Definition sortByOrder (chain : list config.MiddlewareChain)
  : list config.MiddlewareChain :=
  fold_right insertByOrder [] chain.

(** [middleware.Factory.CreateChain]. *)
Fixpoint createEnabled (middlewares : list config.MiddlewareChain)
  : option (list Middleware) :=
  match middlewares with
  | [] => Some []
  | mw :: rest =>
      if negb (config.Enabled mw) then createEnabled rest
      else match Create (config.Type_ mw) (config.Config_ mw) with
           | None => None
           | Some m => cons m <$> createEnabled rest
           end
  end.

Definition CreateChain (chain : list config.MiddlewareChain)
  : option (list Middleware) :=
  createEnabled (sortByOrder chain).

(** The chain that [server.applyRouteMiddleware] builds for a route: an
    instance from the factory for every name that has an enabled entry,
    then the headers middleware when the route sets headers. *)
Definition routeInstance (chain : list config.MiddlewareChain)
           (middlewareName : string) : option Middleware :=
  match List.find (fun mw => String.eqb (config.Name mw) middlewareName
                             && config.Enabled mw) chain with
  | Some mwConfig =>
      if negb (String.eqb (config.Name mwConfig) "")
      then Create (config.Type_ mwConfig) (config.Config_ mwConfig)
      else None
  | None => None
  end.

Definition applyRouteMiddleware (cfg : config.Config)
           (route : config.RouteRule) : list Middleware :=
  (omap (routeInstance (config.Middlewares cfg)) (config.Middleware route)
   ++ (if (0 <? size (config.Headers route))%nat
       then [headersMiddleware (config.Headers route)] else []))%list.

(** [headerResponseWriter]: only [WriteHeader] is overridden. *)
Definition headerResponseWriter (headers : gmap string string)
           (ops : list WOp) : list WOp :=
  flat_map (fun op =>
              match op with
              | WriteHeader statusCode =>
                  (map (fun kv => SetHeader (fst kv) (snd kv))
                       (map_to_list headers)
                   ++ [WriteHeader statusCode])%list
              | _ => [op]
              end) ops.

(** [retryResponseWriter]: the captured status and the [written] flag,
    and what one call on it passes to the writer it wraps. *)
Record retryResponseWriter : Type := mkRetryResponseWriter {
  statusCode : Z;
  written : bool
}.

Definition rw_call (rw : retryResponseWriter) (op : WOp)
  : list WOp * retryResponseWriter :=
  match op with
  | WriteHeader code =>
      if negb (written rw)
      then ([WriteHeader code], {| statusCode := code; written := true |})
      else ([], rw)
  | Write data =>
      if negb (written rw)
      then ([WriteHeader StatusOK; Write data],
            {| statusCode := StatusOK; written := true |})
      else ([Write data], rw)
  | other => ([other], rw)
  end.

Fixpoint rw_calls (rw : retryResponseWriter) (ops : list WOp)
  : list WOp * retryResponseWriter :=
  match ops with
  | [] => ([], rw)
  | op :: rest =>
      let '(out, rw1) := rw_call rw op in
      let '(more, rw2) := rw_calls rw1 rest in
      ((out ++ more)%list, rw2)
  end.

(** What one call of the wrapped handler passes to the underlying
    writer through a wrapper that was just reset, and the status the
    wrapper has captured at the end of the call. *)
Definition forwarded (ops : list WOp) : list WOp :=
  fst (rw_calls {| statusCode := 0; written := false |} ops).

Definition captured (ops : list WOp) : Z :=
  statusCode (snd (rw_calls {| statusCode := 0; written := false |} ops)).

Definition is_abort (op : WOp) : bool :=
  match op with Abort _ => true | _ => false end.

Section Handlers.

(** The state a handler runs in, and what it gives back: the calls on
    its writer, the new state and the request, which it may have changed
    in place. *)
Context {S : Type}.
Definition Handler : Type := S -> Request -> list WOp * S * Request.

(** The clock read by [time.Now()] and what [time.Sleep] does to it. *)
Variable clock : S -> Z.
Variable Sleep : Z -> S -> S.

(** The libraries behind the middleware: HMAC and the token parser of
    the JWT library, and the response writer of the compression
    middleware as a function of the calls made on it. *)
Variable hmac : string -> string -> string -> string.
Variable parse : string -> Auth.TokenString.
Variable compressedResponseWriter :
  gmap string any -> Request -> list WOp -> list WOp.

(** [Chain.Then(handler)] run on a request, with the instances of the
    chain after the call. *)
Fixpoint Then (middlewares : list Middleware) (handler : Handler)
         (st : S) (r : Request) : list WOp * list Middleware * S * Request :=
  match middlewares with
  | [] => let '(ops, st', r') := handler st r in (ops, [], st', r')
  | LoggingMiddleware c :: rest =>
      let '(ops, rest', st', r') := Then rest handler st r in
      (ops, LoggingMiddleware c :: rest', st', r')
  | RateLimitMiddleware rlm :: rest =>
      let '(ok, rlm') := RateLimit.allow_request rlm (clock st) r in
      if ok then
        let '(ops, rest', st', r') := Then rest handler st r in
        (ops, RateLimitMiddleware rlm' :: rest', st', r')
      else (RateLimit.denied rlm, RateLimitMiddleware rlm' :: rest, st, r)
  | AuthMiddleware am :: rest =>
      match Auth.Handle hmac parse am (clock st) r with
      | inl ops => (ops, middlewares, st, r)
      | inr r1 =>
          let '(ops, rest', st', r') := Then rest handler st r1 in
          (ops, AuthMiddleware am :: rest', st', r')
      end
  | CompressionMiddleware c :: rest =>
      let '(ops, rest', st', r') := Then rest handler st r in
      (compressedResponseWriter c r ops,
       CompressionMiddleware c :: rest', st', r')
  | headersMiddleware h :: rest =>
      let '(ops, rest', st', r') := Then rest handler st r in
      (headerResponseWriter h ops, headersMiddleware h :: rest', st', r')
  end.

(** The loop of [retryHandler.ServeHTTP]:
    [for attempt := 0; attempt <= Attempts; attempt++].  [fuel] is the
    number of iterations left.  The result carries, for every call of
    the wrapped handler, the calls it made on the wrapper. *)
Fixpoint retryLoop (fuel : nat) (attempt : Z) (handler : Handler)
         (retryPolicy : config.RetryPolicy) (st : S) (r : Request)
  : list WOp * S * Request * list (list WOp) :=
  match fuel with
  | O => ([], st, r, [])
  | Datatypes.S fuel' =>
      let '(ops, st1, r1) := handler st r in
      let '(out, rw) :=
        rw_calls {| statusCode := 0; written := false |} ops in
      if existsb is_abort ops then (out, st1, r1, [ops])
      else if (statusCode rw <? 500)
              || (attempt =? config.Attempts retryPolicy)
      then (out, st1, r1, [ops])
      else
        let st2 := if attempt <? config.Attempts retryPolicy
                   then Sleep (config.Backoff retryPolicy) st1 else st1 in
        let '(more, st3, r3, calls) :=
          retryLoop fuel' (attempt + 1) handler retryPolicy st2 r1 in
        ((out ++ more)%list, st3, r3, ops :: calls)
  end.

Definition retryHandler_ServeHTTP (handler : Handler)
           (retryPolicy : config.RetryPolicy) (st : S) (r : Request)
  : list WOp * S * Request * list (list WOp) :=
  retryLoop (Z.to_nat (config.Attempts retryPolicy + 1)) 0
            handler retryPolicy st r.

End Handlers.

(** ** The server *)

(** The world outside the proxy: the clock and the state of the
    backends. *)
Record World (B : Type) : Type := mkWorld {
  now : Z;
  backends : B
}.
Arguments mkWorld {B} now backends.
Arguments now {B} w.
Arguments backends {B} w.

(** [proxy.server]: the configuration, the health checker, one load
    balancer for every upstream and the instances of the global chain. *)
Record server : Type := mkServer {
  cfg : config.Config;
  healthChecker : Health.checker;
  loadBalancers : gmap string LoadBalancer.LoadBalancer;
  globalChain : list Middleware
}.

Section Server.

Variable B : Type.

(** [url.Parse] on the URL of a target: the parsed URL as its text, or
    [None] for the error. *)
Variable url_Parse : string -> option string.

(** [regexp.Compile(regex)] followed by [ReplaceAllString(path,
    replacement)]; [None] when the expression does not compile. *)
Variable regexp_ReplaceAllString : string -> string -> string -> option string.

(** [httputil.ReverseProxy.ServeHTTP] to a target: the round trip to the
    backend and the copy of its answer. *)
Variable ReverseProxy : string -> World B -> Request -> list WOp * World B.

Variable hmac : string -> string -> string -> string.
Variable parse : string -> Auth.TokenString.
Variable compressedResponseWriter :
  gmap string any -> Request -> list WOp -> list WOp.

Definition setPath (r : Request) (p : string) : Request :=
  {| Method := Method r; Host := Host r; Path := p; Header := Header r;
     RemoteAddr := RemoteAddr r; Cookies := Cookies r; Query := Query r |}.

(** [server.applyRewrite]: the request with its new path, or [None] for
    the error. *)
Definition applyRewrite (r : Request) (rewrite : config.RewriteConfig)
  : option Request :=
  let originalPath := Path r in
  let p1 :=
    if negb (String.eqb (config.StripPrefix rewrite) "")
       && HasPrefix originalPath (config.StripPrefix rewrite)
    then let p := TrimPrefix originalPath (config.StripPrefix rewrite) in
         if String.eqb p "" then "/" else p
    else originalPath in
  let p2 :=
    if negb (String.eqb (config.AddPrefix rewrite) "")
    then config.AddPrefix rewrite
         ++ (if negb (HasPrefix p1 "/") then "/" ++ p1 else p1)
    else p1 in
  if negb (String.eqb (config.Regex rewrite) "")
     && negb (String.eqb (config.Replacement rewrite) "")
  then setPath r <$> regexp_ReplaceAllString (config.Regex rewrite)
                       (config.Replacement rewrite) p2
  else Some (setPath r p2).

(** [server.createTargets]: a new view of every target whose URL
    parses; [Connections] is not set and has its zero value. *)
Definition createTarget (hc : Health.checker) (targetConfig : config.Target)
  : option LoadBalancer.Target :=
  match url_Parse (config.URL targetConfig) with
  | None => None
  | Some url =>
      let isHealthy := Health.IsHealthy hc (config.URL targetConfig) in
      Some {| LoadBalancer.URL := url;
              LoadBalancer.Weight := config.Weight targetConfig;
              LoadBalancer.IsHealthy := isHealthy;
              LoadBalancer.Connections := 0 |}
  end.

Definition createTargets (hc : Health.checker)
           (upstream : config.UpstreamService) : list LoadBalancer.Target :=
  omap (createTarget hc) (config.Targets upstream).

(** [server.initializeLoadBalancers]. *)
Definition initializeLoadBalancers (c : config.Config)
  : gmap string LoadBalancer.LoadBalancer :=
  (fun service => LoadBalancer.Create (config.LoadBalancer service))
    <$> config.Upstreams c.

Definition setLoadBalancer (s : server) (name : string)
           (lb : LoadBalancer.LoadBalancer) : server :=
  {| cfg := cfg s; healthChecker := healthChecker s;
     loadBalancers := <[name := lb]> (loadBalancers s);
     globalChain := globalChain s |}.

(** [time.Sleep]: a duration that is not positive returns at once. *)
Definition sleepWorld (d : Z) (w : World B) : World B :=
  {| now := now w + Z.max 0 d; backends := backends w |}.

(** The route handler of one request: the chain of the route around the
    reverse proxy, run in the world and carrying the instances of the
    chain from one call to the next. *)
Definition routeHandler (target : LoadBalancer.Target)
  : @Handler (list Middleware * World B) :=
  fun st r =>
    let '(ops, chain', w', r') :=
      Then now hmac parse compressedResponseWriter (fst st)
           (fun w r0 => let '(ops, w1) :=
                          ReverseProxy (LoadBalancer.URL target) w r0 in
                        (ops, w1, r0))
           (snd st) r in
    (ops, (chain', w'), r').

(** What [server.createMainHandler] selects for a request: the route,
    the target views handed to the strategy and its answer. *)
Record selection : Type := mkSelection {
  sel_route : config.RouteRule;
  sel_request : Request;
  sel_targets : list LoadBalancer.Target;
  sel_result : outcome LoadBalancer.Target;
  sel_lb : LoadBalancer.LoadBalancer
}.

(** The handler of [server.createMainHandler] up to the selection of a
    target: the answer it gives on the way, or the selection. *)
Definition selectTarget (s : server) (r : Request) : list WOp + selection :=
  match Router.findMatchingRoute (config.Routes (cfg s)) r with
  | None => inl NotFound
  | Some route =>
      match applyRewrite r (config.Rewrite route) with
      | None => inl (Http.Error "Internal server error"
                                StatusInternalServerError)
      | Some r1 =>
          match config.Upstreams (cfg s) !! config.Upstream route with
          | None => inl (Http.Error "Upstream not found"
                                    StatusServiceUnavailable)
          | Some upstream =>
              match loadBalancers s !! config.Upstream route with
              | None => inl (Http.Error "Load balancer not found"
                                        StatusServiceUnavailable)
              | Some lb =>
                  let targets := createTargets (healthChecker s) upstream in
                  if len targets =? 0
                  then inl (Http.Error "No healthy targets available"
                                       StatusServiceUnavailable)
                  else
                    let '(result, lb') :=
                      LoadBalancer.SelectTarget lb targets r1 in
                    inr {| sel_route := route; sel_request := r1;
                           sel_targets := targets; sel_result := result;
                           sel_lb := lb' |}
              end
          end
      end
  end.

(** The handler of [server.createMainHandler].  The deadline of the
    route is not modelled.  [lb.UpdateTarget(target, 1)] counts the
    request on the selected view, which no later request sees: the
    views of the next request are built anew. *)
Definition mainHandler : @Handler (server * World B) :=
  fun st r =>
    let '(s, w) := st in
    match selectTarget s r with
    | inl ops => (ops, st, r)
    | inr sel =>
        let route := sel_route sel in
        let s1 := setLoadBalancer s (config.Upstream route) (sel_lb sel) in
        match sel_result sel with
        | Err _ => (Http.Error "Failed to select target"
                               StatusServiceUnavailable,
                    (s1, w), sel_request sel)
        | Panic msg => ([Abort msg], (s1, w), sel_request sel)
        | Ok selected =>
            let chain := applyRouteMiddleware (cfg s) route in
            let target := LoadBalancer.UpdateTarget (sel_lb sel) selected 1 in
            if 0 <? config.Attempts (config.Retry route) then
              let '(ops, st', r', _) :=
                retryHandler_ServeHTTP
                  (fun d cw => (fst cw, sleepWorld d (snd cw)))
                  (routeHandler target) (config.Retry route)
                  (chain, w) (sel_request sel) in
              (ops, (s1, snd st'), r')
            else
              let '(ops, st', r') :=
                routeHandler target (chain, w) (sel_request sel) in
              (ops, (s1, snd st'), r')
        end
    end.

(** [server.Start]: the load balancers and the global chain; [None] is
    its error. *)
Definition Start (c : config.Config) (hc : Health.checker) : option server :=
  match CreateChain (config.Middlewares c) with
  | None => None
  | Some chain =>
      Some {| cfg := c; healthChecker := hc;
              loadBalancers := initializeLoadBalancers c;
              globalChain := chain |}
  end.

(** The handler that [Start] gives to the HTTP servers:
    [globalChain.Then(mainHandler)]. *)
Definition ServeHTTP (s : server) (w : World B) (r : Request)
  : list WOp * server * World B :=
  let '(ops, chain', st', _) :=
    Then (fun st => now (snd st)) hmac parse compressedResponseWriter
         (globalChain s) mainHandler (s, w) r in
  (ops,
   {| cfg := cfg (fst st'); healthChecker := healthChecker (fst st');
      loadBalancers := loadBalancers (fst st'); globalChain := chain' |},
   snd st').

End Server.

End Proxy.


(* ===================================================================== *)
(** * Concrete requests, configurations and libraries                     *)
(* ===================================================================== *)

Module Scenario.

(** A request without cookies or query parameters. *)
Definition request (method host path : string)
           (header : list (string * string)) (remoteAddr : string) : Request :=
  {| Method := method; Host := host; Path := path;
     Header := fold_right (fun kv h => Header_Set h (fst kv) (snd kv)) ∅ header;
     RemoteAddr := remoteAddr; Cookies := []; Query := ∅ |}.

(** A direct connection: no proxy headers, the peer address of the
    socket. *)
Definition direct : Request :=
  request "GET" "localhost" "/api/v1" [] "10.0.0.1:51234".

(** A request that came through two proxies. *)
Definition forwarded : Request :=
  request "GET" "localhost" "/api/v1"
          [("X-Forwarded-For", "10.0.0.1, 192.168.0.7")] "172.17.0.1:40000".

(** Stand-ins for the libraries: every URL parses to itself, a rewrite
    by regular expression leaves the path as it is. *)
Definition url_Parse (u : string) : option string := Some u.
Definition regexp_ReplaceAllString (regex replacement path : string)
  : option string := Some path.

(** The upstream of the README: two targets. *)
Definition apiService (strategy : string) : config.UpstreamService :=
  {| config.LoadBalancer := strategy;
     config.HealthCheck := Health.defaultHealthConfig 30 5;
     config.Targets := [ {| config.URL := "http://localhost:3001";
                            config.Weight := 1 |};
                         {| config.URL := "http://localhost:3002";
                            config.Weight := 1 |} ] |}.

Definition noRewrite : config.RewriteConfig :=
  {| config.StripPrefix := ""; config.AddPrefix := "";
     config.Regex := ""; config.Replacement := "" |}.

(** A route to the upstream, with the middleware it names and its retry
    policy. *)
Definition apiRoute (middleware : list string) (attempts backoff : Z)
  : config.RouteRule :=
  {| config.Host := "localhost"; config.Path := "/api/v1";
     config.Methods := ["GET"; "POST"];
     config.Upstream := "api-service";
     config.Rewrite := noRewrite;
     config.Middleware := middleware;
     config.Headers := ∅;
     config.Timeout_ := 0;
     config.Retry := {| config.Attempts := attempts;
                        config.Backoff := backoff |} |}.

(** A checker that has seen the first target fail three times. *)
Definition firstTargetDown : Health.checker :=
  let probes := fun _ : string => Health.TransportFailed 1 "refused" in
  let c0 := Health.registerTarget (Health.NewChecker true)
                                  "http://localhost:3001" in
  let c1 := Health.performHealthChecks c0 30 5 probes 1 in
  let c2 := Health.performHealthChecks c1 30 5 probes 2 in
  Health.performHealthChecks c2 30 5 probes 3.

(** A server whose only route uses least connections, no middleware. *)
Definition leastConnectionsConfig : config.Config :=
  {| config.Upstreams := {[ "api-service" := apiService "least_connections" ]};
     config.Routes := [apiRoute [] 0 0];
     config.Middlewares := [] |}.

Definition leastConnectionsServer : Proxy.server :=
  {| Proxy.cfg := leastConnectionsConfig;
     Proxy.healthChecker := firstTargetDown;
     Proxy.loadBalancers :=
       Proxy.initializeLoadBalancers leastConnectionsConfig;
     Proxy.globalChain := [] |}.

(** More stand-ins: a keyed hash that is not a secure one, a parser
    that knows the text of one token, a backend that answers 200, and a
    compression writer that passes every call on. *)
Definition hmac (alg key text : string) : string :=
  alg ++ "/" ++ key ++ "/" ++ text.

Definition aliceClaims : Auth.Claims :=
  {| Auth.UserID := "alice"; Auth.Email := "alice@example.com";
     Auth.Roles := ["admin"]; Auth.Issuer := "sentinel";
     Auth.ExpiresAt := Some 2000; Auth.NotBefore := None;
     Auth.IssuedAt := Some 1000 |}.

(** A token for [aliceClaims] with the header [alg], signed with [key]
    by the method of that name. *)
Definition signedToken (alg key : string) : Auth.TokenString :=
  Auth.Segments (Some alg) aliceClaims "header.claims"
                (hmac alg key "header.claims").

Definition parse (token : string) : Auth.TokenString :=
  if String.eqb token "hs384-token" then signedToken "HS384" "s3cret"
  else if String.eqb token "hs256-token" then signedToken "HS256" "s3cret"
  else Auth.Malformed.

Definition compressedResponseWriter (cfg : gmap string any) (r : Request)
           (ops : list WOp) : list WOp := ops.

Definition okBackend (url : string) (w : Proxy.World unit) (r : Request)
  : list WOp * Proxy.World unit :=
  ([WriteHeader 200; Write "ok"], w).

(** A configuration whose middleware file enables JWT authentication;
    the route names no middleware. *)
Definition authEntry : config.MiddlewareChain :=
  {| config.Name := "auth"; config.Type_ := "auth";
     config.Config_ := {[ "jwt_secret" := AString "s3cret" ]};
     config.Enabled := true; config.Order := 1 |}.

Definition authConfig : config.Config :=
  {| config.Upstreams := {[ "api-service" := apiService "round_robin" ]};
     config.Routes := [apiRoute [] 0 0];
     config.Middlewares := [authEntry] |}.

(** A request for a path that no rule of [authConfig] matches. *)
Definition unmatched : Request :=
  request "GET" "localhost" "/nowhere" [] "10.0.0.1:51234".

Definition world0 : Proxy.World unit :=
  {| Proxy.now := 63835596800 * 1000000000; Proxy.backends := tt |}.

(** The middleware built from [authEntry], and a clock reading before
    the expiry of the tokens. *)
Definition authMiddleware : Auth.AuthConfig :=
  default {| Auth.JWTSecret := ""; Auth.JWTIssuer := ""; Auth.SkipPaths := [];
             Auth.TokenLocation := ""; Auth.TokenName := "";
             Auth.AuthType := ""; Auth.SecretKey := "";
             Auth.TokenHeader := ""; Auth.PublicPaths := [] |}
          (Auth.NewAuthMiddleware (config.Config_ authEntry)).

Definition beforeExpiry : Z := 1500.

(** A request that carries the HS384 token as a bearer token. *)
Definition withBearer (token : string) : Request :=
  request "GET" "localhost" "/api/v1"
          [("Authorization", "Bearer " ++ token)] "10.0.0.1:51234".

(** Two manual certificates, for [a.example] and [b.example], read from
    files that hold them. *)
Definition certEntry (host : string) : TLS.CertificateConfig :=
  {| TLS.Hosts := [host];
     TLS.CertFile := "certs/" ++ host ++ ".crt";
     TLS.KeyFile := "certs/" ++ host ++ ".key";
     TLS.AutoGenerate := false; TLS.SelfSigned := false |}.

Definition readKeyPair (entry : TLS.CertificateConfig)
  : option TLS.Certificate :=
  Some {| TLS.certPEM := "PEM of " ++ TLS.CertFile entry;
          TLS.keyPEM := "PEM of " ++ TLS.KeyFile entry |}.

Definition tlsConfig : TLS.TLSConfig :=
  {| TLS.Enabled := true;
     TLS.AutoCert := {| TLS.AutoCert_Enabled := false;
                        TLS.AutoCert_Hosts := [] |};
     TLS.Certificates := [certEntry "a.example"; certEntry "b.example"] |}.

Definition tlsManager : TLS.Manager :=
  default {| TLS.cfg := tlsConfig; TLS.certificates := ∅;
             TLS.autocertMgr := false |}
          (TLS.NewManager readKeyPair tlsConfig).


Definition noSleep (d : Z) (calls : nat) : nat := calls.

(** A handler that relays the 103 of its backend before the 503 with
    which the backend answers. *)
Definition earlyHints : @Proxy.Handler nat :=
  fun calls r =>
    ([SetHeader "Link" "</style.css>; rel=preload"; WriteHeader 103;
      WriteHeader 503; Write "unavailable"],
     Datatypes.S calls, r).

Definition retryOnce : config.RetryPolicy :=
  {| config.Attempts := 1; config.Backoff := 10000000 |}.






End Scenario.

(* ===================================================================== *)
(** * Further parts of the packages                                       *)
(* ===================================================================== *)

(** ** Byte strings *)

Module Bytes.

(** A string without the byte [c]. *)
Definition lacks (c : ascii) (s : string) : bool :=
  forallb (fun a => negb (Ascii.eqb a c)) (list_ascii_of_string s).

(** A host name or a port as a peer address has them: no colon and no
    bracket. *)
Definition plain (s : string) : bool :=
  lacks ":" s && lacks "[" s && lacks "]" s.

(** [strings.Contains]. *)
Definition Contains (s substr : string) : bool := 0 <=? Index s substr.

End Bytes.

Export Bytes.

(** ** internal/loadbalancer: a sequence of selections *)

Module Dispatch.
Import LoadBalancer.

(** The calls of [SelectTarget] that successive requests make on the
    load balancer of one upstream, over the same target views: the
    answers in order, and the balancer after the last call. *)
Fixpoint selectEach (lb : LoadBalancer) (targets : list Target)
         (reqs : list Request) : list (outcome Target) * LoadBalancer :=
  match reqs with
  | [] => ([], lb)
  | req :: rest =>
      let '(result, lb1) := SelectTarget lb targets req in
      let '(results, lb2) := selectEach lb1 targets rest in
      (result :: results, lb2)
  end.

(** A request as the listener hands it over: the peer address of the
    socket and no proxy headers. *)
Definition fromPeer (host port : string) (r : Request) : Prop :=
  RemoteAddr r = host ++ ":" ++ port
  /\ Header_Get (Header r) "X-Real-IP" = ""
  /\ Header_Get (Header r) "X-Forwarded-For" = "".

End Dispatch.

(** ** internal/health: the loop of the checker *)

Module HealthLoop.
Import Health.

(** What one tick of the ticker finds: the answer of every target to
    its probe and the reading of the clock. *)
Record tick : Type := mkTick {
  probes : string -> probe;
  at_ : Z
}.

(** [checker.run]: [performHealthChecks] on every tick, until the stop
    channel is closed. *)
Definition run (c : checker) (interval timeout : Z) (ticks : list tick)
  : checker :=
  fold_left (fun c t => performHealthChecks c interval timeout
                                            (probes t) (at_ t))
            ticks c.

(** [checker.Start]: the loop is not started when the checker is
    disabled. *)
Definition Start (c : checker) (interval timeout : Z) (ticks : list tick)
  : checker :=
  if negb (cfg_Enabled c) then c else run c interval timeout ticks.

(** [checker.GetAllHealth]: a copy of every record. *)
Definition GetAllHealth (c : checker) : gmap string TargetHealth :=
  (fun health =>
     {| URL := URL health; Status_ := Status_ health;
        LastCheck := LastCheck health;
        ConsecutiveFailures := ConsecutiveFailures health;
        ConsecutiveSuccesses := ConsecutiveSuccesses health;
        ResponseTime := ResponseTime health; Error := Error health |})
    <$> targets c.

(** The test of [CheckTarget] on a probe: a response with a status from
    200 to 299. *)
Definition isHealthy (p : probe) : bool :=
  match p with
  | Responded _ code => (200 <=? code) && (code <? 300)
  | _ => false
  end.

End HealthLoop.

(** ** internal/middleware: the registry of limiters *)

Module RateLimitRegistry.
Import RateLimit.

(** The decisions of [RateLimitMiddleware.Handle] on successive
    requests, each with the reading of the clock at its call, and the
    middleware after the last one. *)
Fixpoint serve (rlm : RateLimitMiddleware) (events : list (Z * Request))
  : list bool * RateLimitMiddleware :=
  match events with
  | [] => ([], rlm)
  | (now, r) :: rest =>
      let '(ok, rlm1) := allow_request rlm now r in
      let '(oks, rlm2) := serve rlm1 rest in
      (ok :: oks, rlm2)
  end.

(** The events that are counted on the limiter of [key]. *)
Definition keyed (rlm : RateLimitMiddleware) (key : string)
           (event : Z * Request) : bool :=
  String.eqb (getKey rlm (snd event)) key.

(** [Limiter.Tokens()], in billionths of a token: the tokens at the
    reading [now] of the clock; the limiter is not changed. *)
Definition Tokens (lim : Limiter) (now : Z) : Z := advance lim now.

(** [RateLimitMiddleware.Cleanup]: the limiters with a full bucket are
    deleted.  [clock key] is the reading of the clock when the loop asks
    the limiter of [key] for its tokens. *)
Definition Cleanup (rlm : RateLimitMiddleware) (clock : string -> Z)
  : RateLimitMiddleware :=
  {| config := config rlm;
     limiters :=
       filter (fun entry =>
                 Tokens (snd entry) (clock (fst entry))
                 <> Burst (config rlm) * Second)
              (limiters rlm) |}.

(** Every limiter of the registry was made by [getLimiter]: it has the
    rate and the burst of the configuration. *)
Definition fromConfig (rlm : RateLimitMiddleware) : Prop :=
  forall (key : string) (lim : Limiter),
    limiters rlm !! key = Some lim ->
    limit lim = RequestsPerSecond (config rlm)
    /\ burst lim = Burst (config rlm).

(** [lean] is [full] without some limiters, each with a full bucket at
    the time [clock] gives for its key. *)
Definition withoutFull (clock : string -> Z)
           (full lean : RateLimitMiddleware) : Prop :=
  config full = config lean
  /\ forall key : string,
       limiters lean !! key = limiters full !! key
       \/ (limiters lean !! key = None
           /\ exists lim,
                limiters full !! key = Some lim
                /\ limit lim = RequestsPerSecond (config full)
                /\ burst lim = Burst (config full)
                /\ Tokens lim (clock key) = burst lim * Second).

End RateLimitRegistry.

(** ** internal/middleware: tokens and roles *)

Module AuthTokens.
Import Auth.

Definition StatusForbidden : Z := 403.

(** [Time.Truncate(d)]: the time rounded down to a multiple of [d] since
    the zero time. *)
Definition Truncate (t d : Z) : Z := if d <=? 0 then t else t - t mod d.

(** [jwt.NewNumericDate]: the precision of a numeric date is the
    second. *)
Definition NewNumericDate (t : Z) : Z := Truncate t RateLimit.Second.

Section Signing.

(** [Token.SignedString] of the library for a token made by
    [jwt.NewWithClaims] with a method of the HMAC family and a byte
    key: the text of the token, from the name of the method, the claims
    and the key. *)
Variable SignedString : string -> Claims -> string -> string.

(** The claims that [AuthMiddleware.GenerateToken] signs.  [now1],
    [now2] and [now3] are the three readings of the clock, in the order
    of the composite literal. *)
Definition newClaims (am : AuthConfig) (userID email : string)
           (roles : list string) (duration : Z) (now1 now2 now3 : Z)
  : Claims :=
  {| UserID := userID; Email := email; Roles := roles;
     ExpiresAt := Some (NewNumericDate (now1 + duration));
     IssuedAt := Some (NewNumericDate now2);
     NotBefore := Some (NewNumericDate now3);
     Issuer := JWTIssuer am |}.

(** [AuthMiddleware.GenerateToken]: the token string it returns;
    signing with a byte key does not fail. *)
Definition GenerateToken (am : AuthConfig) (userID email : string)
           (roles : list string) (duration : Z) (now1 now2 now3 : Z)
  : string :=
  SignedString "HS256"
               (newClaims am userID email roles duration now1 now2 now3)
               (JWTSecret am).

(** The parser of the library reads a signed token back: the header
    names the method, the claims are the ones that were signed, and the
    signature is the keyed hash of the first two segments.  The claims
    travel as JSON, so this is a property of the claims: a string that
    is not valid UTF-8 does not come back as it was. *)
Definition readsBack (hmac : string -> string -> string -> string)
           (parse : string -> TokenString)
           (alg : string) (claims : Claims) (key : string) : Prop :=
  exists signingInput : string,
    parse (SignedString alg claims key)
    = Segments (Some alg) claims signingInput (hmac alg key signingInput).

End Signing.

(** The handler that [AuthMiddleware.ValidateRole] wraps around the next
    one: the answer of the middleware, or the request that goes on. *)
Definition ValidateRole (requiredRole : string) (r : Request)
  : list WOp + Request :=
  let roles := Header_Get (Header r) "X-User-Roles" in
  if String.eqb roles "" then inl (Http.Error "Forbidden" StatusForbidden)
  else
    let userRoles := Split roles "," in
    if existsb (fun role => String.eqb (TrimSpace role) requiredRole) userRoles
    then inr r
    else inl (Http.Error "Forbidden" StatusForbidden).

(** [AuthMiddleware.RequireAuth]. *)
Definition RequireAuth (hmac : string -> string -> string -> string)
           (parse : string -> TokenString) (am : AuthConfig) (now : Z)
           (r : Request) : list WOp + Request :=
  Handle hmac parse am now r.

End AuthTokens.

(** ** internal/tls: the hosts of the manager *)

Module TLSHosts.
Import TLS.

(** [Manager.ValidateHost]. *)
Definition ValidateHost (m : Manager) (host : string) : bool :=
  if negb (Enabled (cfg m)) then false
  else match certificates m !! host with
       | Some _ => true
       | None =>
           if AutoCert_Enabled (AutoCert (cfg m))
           then existsb (fun allowedHost => String.eqb host allowedHost)
                        (AutoCert_Hosts (AutoCert (cfg m)))
           else false
       end.

(** The [certified_hosts] entry of [Manager.GetCertificateInfo]: the
    keys of the store, in the order of a map iteration. *)
Definition certified_hosts (m : Manager) : list string :=
  fst <$> map_to_list (certificates m).

End TLSHosts.

(** ** internal/config: validation *)

Module Validate.

(** An [error]: [nil], or a message. *)
Definition error : Type := option string.
Definition nil : error := None.
Definition Errorf (msg : string) : error := Some msg.

(** [%d] of an [int]. *)
Definition itoa (i : Z) : string := NilZero.string_of_int (Z.to_int i).

(** [contains]. *)
Definition contains (slice : list string) (item : string) : bool :=
  existsb (fun s => String.eqb s item) slice.

(** Comparisons of a [float64], given by its IEEE 754 bits, with the
    constants of the validator.  A NaN compares false with everything;
    9.0 has the bits 0x4022000000000000. *)
Definition float64_isNaN (bits : Z) : bool :=
  (Z.land (Z.shiftr bits 52) 2047 =? 2047)
  && negb (Z.land bits (2 ^ 52 - 1) =? 0).

Definition float64_magnitude (bits : Z) : Z := Z.land bits (2 ^ 63 - 1).

Definition float64_lt_zero (bits : Z) : bool :=
  negb (float64_isNaN bits) && Z.testbit bits 63
  && negb (float64_magnitude bits =? 0).

Definition float64_gt_nine (bits : Z) : bool :=
  negb (float64_isNaN bits) && negb (Z.testbit bits 63)
  && (16418 * 2 ^ 48 <? float64_magnitude bits).

(** A parsed [*url.URL]: the two fields the validator reads, and its
    text. *)
Record URL : Type := mkURL {
  Scheme : string;
  URL_Host : string;
  URL_String : string
}.

Section Library.

(** [url.Parse] and [regexp.Compile]; an error carries its text. *)
Variable url_Parse : string -> URL + string.
Variable regexp_Compile : string -> error.

(** [validateTarget]. *)
Definition validateTarget (target : config.Target) : error :=
  if String.eqb (config.URL target) "" then Errorf "target URL cannot be empty"
  else
    match url_Parse (config.URL target) with
    | inr err => Errorf ("invalid target URL: " ++ err)
    | inl parsedURL =>
        if negb (String.eqb (Scheme parsedURL) "http")
           && negb (String.eqb (Scheme parsedURL) "https")
        then Errorf "target URL scheme must be http or https"
        else if String.eqb (URL_Host parsedURL) ""
        then Errorf "target URL must have a host"
        else if config.Weight target <? 0
        then Errorf "target weight cannot be negative"
        else nil
    end.

(** [validateHealthCheck]. *)
Definition validateHealthCheck (hc : Health.HealthCheckConfig) : error :=
  if String.eqb (Health.Path hc) ""
  then Errorf "health check path cannot be empty"
  else if negb (HasPrefix (Health.Path hc) "/")
  then Errorf "health check path must start with '/'"
  else if Health.Interval hc <=? 0
  then Errorf "health check interval must be positive"
  else if Health.Timeout hc <=? 0
  then Errorf "health check timeout must be positive"
  else if Health.FailureThreshold hc <=? 0
  then Errorf "health check failure threshold must be positive"
  else if Health.SuccessThreshold hc <=? 0
  then Errorf "health check success threshold must be positive"
  else nil.

(** The loop of [validateUpstreamService] over the targets, from the
    index [i]. *)
Fixpoint validateTargets (i : Z) (targets : list config.Target) : error :=
  match targets with
  | [] => nil
  | target :: rest =>
      match validateTarget target with
      | Some err =>
          Errorf ("target " ++ itoa i ++ " validation failed: " ++ err)
      | None => validateTargets (i + 1) rest
      end
  end.

Definition validLBStrategies : list string :=
  ["round_robin"; "least_connections"; "ip_hash"].

(** [validateUpstreamService]. *)
Definition validateUpstreamService (name : string)
           (service : config.UpstreamService) : error :=
  if String.eqb name "" then Errorf "upstream service name cannot be empty"
  else if negb (contains validLBStrategies (config.LoadBalancer service))
  then Errorf ("invalid load balancer strategy: "
               ++ config.LoadBalancer service ++ ", must be one of: "
               ++ String.concat ", " validLBStrategies)
  else if len (config.Targets service) =? 0
  then Errorf "at least one target must be defined"
  else
    match validateTargets 0 (config.Targets service) with
    | Some err => Some err
    | None =>
        if Health.Enabled (config.HealthCheck service) then
          match validateHealthCheck (config.HealthCheck service) with
          | Some err => Errorf ("health check validation failed: " ++ err)
          | None => nil
          end
        else nil
    end.

(** The loop of [validateUpstreamsConfig] over the services.  Go ranges
    over the map in an order of its choosing: which error is reported
    when several services are wrong depends on it, whether there is one
    does not. *)
Fixpoint validateServices (services : list (string * config.UpstreamService))
  : error :=
  match services with
  | [] => nil
  | (name, service) :: rest =>
      match validateUpstreamService name service with
      | Some err =>
          Errorf ("upstream service '" ++ name ++ "' validation failed: "
                  ++ err)
      | None => validateServices rest
      end
  end.

(** [validateUpstreamsConfig]. *)
Definition validateUpstreamsConfig
           (services : gmap string config.UpstreamService) : error :=
  if (size services =? 0)%nat
  then Errorf "at least one upstream service must be defined"
  else validateServices (map_to_list services).

Definition validMethods : list string :=
  ["GET"; "POST"; "PUT"; "DELETE"; "PATCH"; "HEAD"; "OPTIONS"].

(** The loop of [validateRouteRule] over the methods. *)
Fixpoint validateMethods (methods : list string) : error :=
  match methods with
  | [] => nil
  | method :: rest =>
      if negb (contains validMethods method)
      then Errorf ("invalid HTTP method: " ++ method)
      else validateMethods rest
  end.

(** [validateRouteRule]. *)
Definition validateRouteRule (rule : config.RouteRule)
           (upstreams : gmap string config.UpstreamService) : error :=
  if String.eqb (config.Host rule) "" then Errorf "route host cannot be empty"
  else if String.eqb (config.Path rule) ""
  then Errorf "route path cannot be empty"
  else if negb (HasPrefix (config.Path rule) "/")
  then Errorf "route path must start with '/'"
  else if String.eqb (config.Upstream rule) ""
  then Errorf "route upstream cannot be empty"
  else
    match upstreams !! config.Upstream rule with
    | None => Errorf ("upstream service '" ++ config.Upstream rule
                      ++ "' not found")
    | Some _ =>
        match validateMethods (config.Methods rule) with
        | Some err => Some err
        | None =>
            let rewrite := config.Rewrite rule in
            match (if negb (String.eqb (config.Regex rewrite) "")
                   then regexp_Compile (config.Regex rewrite) else nil) with
            | Some err => Errorf ("invalid rewrite regex: " ++ err)
            | None =>
                if negb (String.eqb (config.StripPrefix rewrite) "")
                   && negb (HasPrefix (config.StripPrefix rewrite) "/")
                then Errorf "rewrite strip_prefix must start with '/'"
                else if negb (String.eqb (config.AddPrefix rewrite) "")
                        && negb (HasPrefix (config.AddPrefix rewrite) "/")
                then Errorf "rewrite add_prefix must start with '/'"
                else if negb (String.eqb (config.Regex rewrite) "")
                        && String.eqb (config.Replacement rewrite) ""
                then Errorf
                       "rewrite replacement is required when regex is specified"
                else if config.Timeout_ rule <? 0
                then Errorf "route timeout cannot be negative"
                else if config.Attempts (config.Retry rule) <? 0
                then Errorf "retry attempts cannot be negative"
                else if config.Backoff (config.Retry rule) <? 0
                then Errorf "retry backoff cannot be negative"
                else nil
            end
        end
    end.

(** The loop of [validateRoutesConfig], from the index [i]. *)
Fixpoint validateRules (i : Z) (rules : list config.RouteRule)
         (upstreams : gmap string config.UpstreamService) : error :=
  match rules with
  | [] => nil
  | rule :: rest =>
      match validateRouteRule rule upstreams with
      | Some err =>
          Errorf ("route rule " ++ itoa i ++ " validation failed: " ++ err)
      | None => validateRules (i + 1) rest upstreams
      end
  end.

(** [validateRoutesConfig]. *)
Definition validateRoutesConfig (rules : list config.RouteRule)
           (upstreams : gmap string config.UpstreamService) : error :=
  if len rules =? 0 then Errorf "at least one route rule must be defined"
  else validateRules 0 rules upstreams.

End Library.

Definition validKeyFuncs : list string := ["ip"; "user"; "global"].

(** [validateMiddlewareSpecificConfig]. *)
Definition validateMiddlewareSpecificConfig (middlewareType : string)
           (cfg : gmap string any) : error :=
  if String.eqb middlewareType "auth" then
    match as_string (cfg !! "jwt_secret") with
    | Some (String _ _) => nil
    | _ =>
        match as_string (cfg !! "secret_key") with
        | Some (String _ _) => nil
        | _ => Errorf "auth middleware requires jwt_secret or secret_key"
        end
    end
  else if String.eqb middlewareType "rate_limit" then
    match as_int (cfg !! "requests_per_second") with
    | Some rps =>
        if rps <=? 0
        then Errorf
               "rate_limit middleware requires positive requests_per_second"
        else
          match as_int (cfg !! "burst") with
          | Some burst =>
              if burst <=? 0
              then Errorf "rate_limit middleware requires positive burst"
              else
                match as_string (cfg !! "key_func") with
                | Some keyFunc =>
                    if negb (contains validKeyFuncs keyFunc)
                    then Errorf ("invalid key_func: " ++ keyFunc
                                 ++ ", must be one of: "
                                 ++ String.concat ", " validKeyFuncs)
                    else nil
                | None => nil
                end
          | None => Errorf "rate_limit middleware requires positive burst"
          end
    | None =>
        Errorf "rate_limit middleware requires positive requests_per_second"
    end
  else if String.eqb middlewareType "compression" then
    match (match cfg !! "level" with
           | Some (AFloat64 level) =>
               if float64_lt_zero level || float64_gt_nine level
               then Errorf "compression level must be between 0 and 9"
               else nil
           | _ => nil
           end) with
    | Some err => Some err
    | None =>
        match (match cfg !! "min_size" with
               | Some (AFloat64 minSize) =>
                   if float64_lt_zero minSize
                   then Errorf "compression min_size cannot be negative"
                   else nil
               | _ => nil
               end) with
        | Some err => Some err
        | None =>
            match cfg !! "min_length" with
            | Some (AFloat64 minLength) =>
                if float64_lt_zero minLength
                then Errorf "compression min_length cannot be negative"
                else nil
            | _ => nil
            end
        end
    end
  else nil.

Definition validTypes : list string :=
  ["logging"; "rate_limit"; "auth"; "cors"; "compression"].

(** The loop of [validateMiddlewareConfig], from the index [i], with
    the names and the orders seen so far. *)
Fixpoint validateChain (i : Z) (names : gset string) (orders : gset Z)
         (chain : list config.MiddlewareChain) : error :=
  match chain with
  | [] => nil
  | middleware :: rest =>
      if String.eqb (config.Name middleware) ""
      then Errorf ("middleware " ++ itoa i ++ " name cannot be empty")
      else if bool_decide (config.Name middleware ∈ names)
      then Errorf ("duplicate middleware name: " ++ config.Name middleware)
      else if bool_decide (config.Order middleware ∈ orders)
      then Errorf ("duplicate middleware order: "
                   ++ itoa (config.Order middleware))
      else if negb (contains validTypes (config.Type_ middleware))
      then Errorf ("invalid middleware type: " ++ config.Type_ middleware
                   ++ ", must be one of: " ++ String.concat ", " validTypes)
      else
        match validateMiddlewareSpecificConfig (config.Type_ middleware)
                                               (config.Config_ middleware) with
        | Some err =>
            Errorf ("middleware '" ++ config.Name middleware
                    ++ "' config validation failed: " ++ err)
        | None =>
            validateChain (i + 1) ({[ config.Name middleware ]} ∪ names)
                          ({[ config.Order middleware ]} ∪ orders) rest
        end
  end.

(** [validateMiddlewareConfig]. *)
Definition validateMiddlewareConfig (chain : list config.MiddlewareChain)
  : error :=
  validateChain 0 ∅ ∅ chain.

End Validate.

(** ** internal/config: defaults and the global settings *)

Module Settings.
Import Validate.

(** [config.ServerConfig], [config.LogConfig] and [config.GlobalConfig];
    durations are nanoseconds. *)
Record ServerConfig : Type := mkServerConfig {
  HTTPPort : Z;
  HTTPSPort : Z;
  ReadTimeout : Z;
  WriteTimeout : Z;
  IdleTimeout : Z;
  MaxHeaderSize : Z;
  HTTP2Enabled : bool
}.

Record LogConfig : Type := mkLogConfig {
  Level : string;
  Format : string
}.

Record GlobalConfig : Type := mkGlobalConfig {
  Server : ServerConfig;
  Log : LogConfig
}.

(** [config.HealthConfig] and [config.MetricsConfig]. *)
Record HealthConfig : Type := mkHealthConfig {
  Health_Enabled : bool;
  Health_Interval : Z;
  Health_Timeout : Z;
  Health_Port : Z
}.

Record MetricsConfig : Type := mkMetricsConfig {
  Metrics_Enabled : bool;
  Metrics_Port : Z;
  Metrics_Path : string
}.

(** [config.AutoCertConfig] and [config.TLSConfig] with the fields that
    the validator reads. *)
Record AutoCertConfig : Type := mkAutoCertConfig {
  AutoCert_Enabled : bool;
  Email : string;
  AutoCert_Hosts : list string;
  CacheDir : string;
  Staging : bool
}.

Record TLSConfig : Type := mkTLSConfig {
  TLS_Enabled : bool;
  AutoCert : AutoCertConfig;
  Certificates : list TLS.CertificateConfig
}.

(** The parts of [config.Config] that [setDefaults] reads and writes. *)
Record Config : Type := mkConfig {
  Global : GlobalConfig;
  TLS_ : TLSConfig;
  Health_ : HealthConfig;
  Metrics : MetricsConfig
}.

Definition Second : Z := 1000000000.

(** [setDefaults]. *)
Definition setDefaults (config : Config) : Config :=
  let server := Server (Global config) in
  let log := Log (Global config) in
  let orZ (x d : Z) := if x =? 0 then d else x in
  let orS (x d : string) := if String.eqb x "" then d else x in
  {| Global :=
       {| Server :=
            {| HTTPPort := orZ (HTTPPort server) 8080;
               HTTPSPort := orZ (HTTPSPort server) 8443;
               ReadTimeout := orZ (ReadTimeout server) (30 * Second);
               WriteTimeout := orZ (WriteTimeout server) (30 * Second);
               IdleTimeout := orZ (IdleTimeout server) (60 * Second);
               MaxHeaderSize := orZ (MaxHeaderSize server) (1024 * 1024);
               HTTP2Enabled := HTTP2Enabled server |};
          Log := {| Level := orS (Level log) "info";
                    Format := orS (Format log) "json" |} |};
     TLS_ :=
       {| TLS_Enabled := TLS_Enabled (TLS_ config);
          AutoCert :=
            {| AutoCert_Enabled := AutoCert_Enabled (AutoCert (TLS_ config));
               Email := Email (AutoCert (TLS_ config));
               AutoCert_Hosts := AutoCert_Hosts (AutoCert (TLS_ config));
               CacheDir := orS (CacheDir (AutoCert (TLS_ config))) "./certs";
               Staging := Staging (AutoCert (TLS_ config)) |};
          Certificates := Certificates (TLS_ config) |};
     Health_ :=
       {| Health_Enabled := Health_Enabled (Health_ config);
          Health_Interval := orZ (Health_Interval (Health_ config))
                                 (30 * Second);
          Health_Timeout := orZ (Health_Timeout (Health_ config)) (5 * Second);
          Health_Port := orZ (Health_Port (Health_ config)) 8081 |};
     Metrics :=
       {| Metrics_Enabled := Metrics_Enabled (Metrics config);
          Metrics_Port := orZ (Metrics_Port (Metrics config)) 8082;
          Metrics_Path := orS (Metrics_Path (Metrics config)) "/metrics" |} |}.

Definition validLogLevels : list string := ["debug"; "info"; "warn"; "error"].
Definition validLogFormats : list string := ["json"; "text"].

(** [validateGlobalConfig]. *)
Definition validateGlobalConfig (config : GlobalConfig) : error :=
  let server := Server config in
  if (HTTPPort server <? 1) || (65535 <? HTTPPort server)
  then Errorf ("invalid HTTP port: " ++ itoa (HTTPPort server))
  else if (HTTPSPort server <? 1) || (65535 <? HTTPSPort server)
  then Errorf ("invalid HTTPS port: " ++ itoa (HTTPSPort server))
  else if HTTPPort server =? HTTPSPort server
  then Errorf "HTTP and HTTPS ports cannot be the same"
  else if ReadTimeout server <? 0
  then Errorf "read timeout cannot be negative"
  else if WriteTimeout server <? 0
  then Errorf "write timeout cannot be negative"
  else if IdleTimeout server <? 0
  then Errorf "idle timeout cannot be negative"
  else if MaxHeaderSize server <? 1024
  then Errorf "max header size must be at least 1024 bytes"
  else if negb (contains validLogLevels (Level (Log config)))
  then Errorf ("invalid log level: " ++ Level (Log config)
               ++ ", must be one of: " ++ String.concat ", " validLogLevels)
  else if negb (contains validLogFormats (Format (Log config)))
  then Errorf ("invalid log format: " ++ Format (Log config)
               ++ ", must be one of: " ++ String.concat ", " validLogFormats)
  else nil.

(** The loop of [validateTLSConfig] over the certificates, from the
    index [i]. *)
Fixpoint validateCertificates (i : Z) (certs : list TLS.CertificateConfig)
  : error :=
  match certs with
  | [] => nil
  | cert :: rest =>
      if len (TLS.Hosts cert) =? 0
      then Errorf ("certificate " ++ itoa i ++ " must have at least one host")
      else if String.eqb (TLS.CertFile cert) ""
      then Errorf ("certificate " ++ itoa i ++ " cert file cannot be empty")
      else if String.eqb (TLS.KeyFile cert) ""
      then Errorf ("certificate " ++ itoa i ++ " key file cannot be empty")
      else validateCertificates (i + 1) rest
  end.

(** [validateTLSConfig]. *)
Definition validateTLSConfig (config : TLSConfig) : error :=
  if negb (TLS_Enabled config) then nil
  else
    match (if AutoCert_Enabled (AutoCert config) then
             if String.eqb (Email (AutoCert config)) ""
             then Errorf "Let's Encrypt email cannot be empty"
             else if len (AutoCert_Hosts (AutoCert config)) =? 0
             then Errorf
                    "at least one host must be specified for Let's Encrypt"
             else if existsb (fun host => String.eqb host "")
                             (AutoCert_Hosts (AutoCert config))
             then Errorf "Let's Encrypt host cannot be empty"
             else if String.eqb (CacheDir (AutoCert config)) ""
             then Errorf "Let's Encrypt cache directory cannot be empty"
             else nil
           else nil) with
    | Some err => Some err
    | None => validateCertificates 0 (Certificates config)
    end.

End Settings.

(** ** internal/middleware: the order of a chain *)

Module Chains.

(** A chain in strictly ascending order of its [Order] fields. *)
Fixpoint ascending (chain : list config.MiddlewareChain) : bool :=
  match chain with
  | [] => true
  | mw :: rest =>
      forallb (fun x => config.Order mw <? config.Order x) rest
      && ascending rest
  end.

(** The entries that [CreateChain] builds an instance for. *)
Definition enabledEntries (chain : list config.MiddlewareChain)
  : list config.MiddlewareChain :=
  List.filter config.Enabled chain.

(** The [Name] method of a middleware instance. *)
Definition Name (m : Proxy.Middleware) : string :=
  match m with
  | Proxy.LoggingMiddleware _ => "logging"
  | Proxy.RateLimitMiddleware _ => "rate_limit"
  | Proxy.AuthMiddleware _ => "auth"
  | Proxy.CompressionMiddleware _ => "compression"
  | Proxy.headersMiddleware _ => "headers"
  end.

End Chains.

(** ** internal/middleware: compression *)

Module Compression.

(** The levels of [compress/gzip]. *)
Definition HuffmanOnly : Z := -2.
Definition DefaultCompression : Z := -1.
Definition NoCompression : Z := 0.
Definition BestCompression : Z := 9.

(** [middleware.CompressionMiddleware]. *)
Record CompressionMiddleware : Type := mkCompressionMiddleware {
  level : Z;
  minLength : Z;
  compressedTypes : list string;
  skipPaths : list string
}.

(** [make([]string, len(slice))] filled at the indices that hold a
    string: the other entries keep the zero value, the empty string. *)
Definition stringsAt (slice : list any) : list string :=
  map (fun v => match v with AString s => s | _ => "" end) slice.

Definition as_float64 (v : option any) : option Z :=
  match v with Some (AFloat64 bits) => Some bits | _ => None end.

Definition defaultTypes : list string :=
  [ "text/html"; "text/plain"; "text/css"; "text/javascript";
    "application/javascript"; "application/json"; "application/xml";
    "text/xml" ].

Section Conversion.

(** The conversion [int(f)] of a [float64], given by its bits: the
    value truncated towards zero, and what the platform gives for a
    value that does not fit. *)
Variable int_of_float64 : Z -> Z.

(** [NewCompressionMiddleware]; it returns no error.  A configuration
    read from YAML holds lists as [[]any], so the branches for
    [[]string] are not taken. *)
Definition NewCompressionMiddleware (cfg : gmap string any)
  : CompressionMiddleware :=
  let inRange (l : Z) := (NoCompression <=? l) && (l <=? BestCompression) in
  let level1 :=
    match as_int (cfg !! "level") with
    | Some l => if inRange l then l else DefaultCompression
    | None => DefaultCompression
    end in
  let level2 :=
    match as_float64 (cfg !! "level") with
    | Some levelFloat =>
        let l := int_of_float64 levelFloat in
        if inRange l then l else level1
    | None => level1
    end in
  let minLength1 :=
    match as_int (cfg !! "min_length") with
    | Some m => m | None => 1024 end in
  let minLength2 :=
    match as_float64 (cfg !! "min_length") with
    | Some m => int_of_float64 m | None => minLength1 end in
  let minLength3 :=
    match as_int (cfg !! "min_size") with
    | Some m => m | None => minLength2 end in
  let minLength4 :=
    match as_float64 (cfg !! "min_size") with
    | Some m => int_of_float64 m | None => minLength3 end in
  let types1 :=
    match as_slice (cfg !! "types") with
    | Some typesSlice => stringsAt typesSlice | None => defaultTypes end in
  let types2 :=
    match as_slice (cfg !! "content_types") with
    | Some contentTypesSlice => stringsAt contentTypesSlice
    | None => types1 end in
  {| level := level2; minLength := minLength4; compressedTypes := types2;
     skipPaths := match as_slice (cfg !! "skip_paths") with
                  | Some skipPathsSlice => stringsAt skipPathsSlice
                  | None => []
                  end |}.

End Conversion.

(** The status that a wrapper which lets only the first [WriteHeader]
    through passes on: the code of the first [WriteHeader] call, or 200
    when a [Write] comes first. *)
Fixpoint first_status (ops : list WOp) : option Z :=
  match ops with
  | [] => None
  | WriteHeader c :: _ => Some c
  | Write _ :: _ => Some StatusOK
  | Abort _ :: _ => None
  | _ :: rest => first_status rest
  end.

(** [CompressionMiddleware.shouldCompress]. *)
Definition shouldCompress (c : CompressionMiddleware) (contentType : string)
           (contentLength : Z) : bool :=
  if (0 <? contentLength) && (contentLength <? minLength c) then false
  else existsb (fun compressedType => Contains contentType compressedType)
               (compressedTypes c).

(** [http.Header.Del]. *)
Definition Header_Del (h : gmap string (list string)) (key : string)
  : gmap string (list string) :=
  delete (CanonicalHeaderKey key) h.

(** The libraries behind the writer.  A [*gzip.Writer] over the
    underlying response writer: making one for a level, and what a
    [Write] and [Close] pass on to the underlying writer, as the data of
    its [Write] calls, with the new state.  And
    [fmt.Sscanf(cl, "%d", &contentLength)] on a variable that holds 0:
    the value the variable has afterwards. *)
Record Library : Type := mkLibrary {
  Writer : Type;
  gzip_NewWriter : Z -> Writer;
  gzip_Write : Writer -> string -> list string * Writer;
  gzip_Close : Writer -> list string;
  Sscanf_d : string -> Z
}.

Section Writer.

Variable lib : Library.

(** [compressedResponseWriter], with the header map of the writer it
    wraps. *)
Record compressedResponseWriter : Type := mkCompressedResponseWriter {
  header : gmap string (list string);
  gzipWriter : option (Writer lib);
  wroteHeader : bool
}.

(** [compressedResponseWriter.WriteHeader]: the calls on the wrapped
    writer and the new state.  [gzip.NewWriterLevel] fails for a level
    outside -2..9. *)
Definition cw_WriteHeader (c : CompressionMiddleware)
           (cw : compressedResponseWriter) (statusCode : Z)
  : list WOp * compressedResponseWriter :=
  if wroteHeader cw then ([], cw)
  else if 400 <=? statusCode
  then ([WriteHeader statusCode],
        {| header := header cw; gzipWriter := gzipWriter cw;
           wroteHeader := true |})
  else
    let contentType := Header_Get (header cw) "Content-Type" in
    let cl := Header_Get (header cw) "Content-Length" in
    let contentLength :=
      if negb (String.eqb cl "") then Sscanf_d lib cl else 0 in
    if shouldCompress c contentType contentLength then
      let h := Header_Del
                 (Header_Set (Header_Set (header cw) "Content-Encoding" "gzip")
                             "Vary" "Accept-Encoding")
                 "Content-Length" in
      ([SetHeader "Content-Encoding" "gzip";
        SetHeader "Vary" "Accept-Encoding";
        DelHeader "Content-Length";
        WriteHeader statusCode],
       {| header := h;
          gzipWriter := if (level c <? HuffmanOnly)
                           || (BestCompression <? level c)
                        then None
                        else Some (gzip_NewWriter lib (level c));
          wroteHeader := true |})
    else ([WriteHeader statusCode],
          {| header := header cw; gzipWriter := gzipWriter cw;
             wroteHeader := true |}).

(** One call of the wrapped handler on the writer: [Header().Set] and
    [Header().Del] reach the header map of the wrapped writer,
    [WriteHeader] and [Write] are the methods of the wrapper. *)
Definition cw_call (c : CompressionMiddleware) (cw : compressedResponseWriter)
           (op : WOp) : list WOp * compressedResponseWriter :=
  match op with
  | SetHeader key value =>
      ([op], {| header := Header_Set (header cw) key value;
                gzipWriter := gzipWriter cw; wroteHeader := wroteHeader cw |})
  | DelHeader key =>
      ([op], {| header := Header_Del (header cw) key;
                gzipWriter := gzipWriter cw; wroteHeader := wroteHeader cw |})
  | WriteHeader statusCode => cw_WriteHeader c cw statusCode
  | Write data =>
      let '(out, cw1) :=
        if negb (wroteHeader cw) then cw_WriteHeader c cw StatusOK
        else ([], cw) in
      match gzipWriter cw1 with
      | Some g =>
          let '(chunks, g') := gzip_Write lib g data in
          ((out ++ map Write chunks)%list,
           {| header := header cw1; gzipWriter := Some g';
              wroteHeader := wroteHeader cw1 |})
      | None => ((out ++ [Write data])%list, cw1)
      end
  | Abort msg => ([op], cw)
  end.

Fixpoint cw_calls (c : CompressionMiddleware) (cw : compressedResponseWriter)
         (ops : list WOp) : list WOp * compressedResponseWriter :=
  match ops with
  | [] => ([], cw)
  | op :: rest =>
      let '(out, cw1) := cw_call c cw op in
      let '(more, cw2) := cw_calls c cw1 rest in
      ((out ++ more)%list, cw2)
  end.

(** The handler of [CompressionMiddleware.Handle], on the calls that
    the next handler makes: what reaches the writer of the middleware.
    [h0] is the header map of that writer when the next handler starts.
    When the next handler panics, the gzip writer is not closed. *)
Definition Handle (c : CompressionMiddleware) (h0 : gmap string (list string))
           (r : Request) (ops : list WOp) : list WOp :=
  if existsb (fun skipPath => HasPrefix (Path r) skipPath) (skipPaths c)
  then ops
  else if negb (Contains (Header_Get (Header r) "Accept-Encoding") "gzip")
  then ops
  else
    let '(out, cw) :=
      cw_calls c {| header := h0; gzipWriter := None; wroteHeader := false |}
               ops in
    if existsb Proxy.is_abort ops then out
    else match gzipWriter cw with
         | Some g => (out ++ map Write (gzip_Close lib g))%list
         | None => out
         end.

End Writer.

Arguments header {lib} c.
Arguments gzipWriter {lib} c.
Arguments wroteHeader {lib} c.
Arguments mkCompressedResponseWriter {lib} header gzipWriter wroteHeader.

End Compression.

(** ** More configurations *)

Module Examples.

(** The rate limit of [Scenario.rateLimitEntry] placed after the
    authentication, and an entry of the type that the validator knows
    and the factory does not. *)
Definition rateLimitSecond : config.MiddlewareChain :=
  {| config.Name := "limit"; config.Type_ := "rate_limit";
     config.Config_ := {[ "requests_per_second" := AInt 5;
                          "burst" := AInt 3 ]};
     config.Enabled := true; config.Order := 2 |}.

Definition corsEntry (enabled : bool) : config.MiddlewareChain :=
  {| config.Name := "cors"; config.Type_ := "cors";
     config.Config_ := ∅; config.Enabled := enabled; config.Order := 3 |}.

(** A stand-in for [url.Parse] that knows the scheme [http] and
    nothing else of the syntax of URLs, and one for [regexp.Compile]
    that accepts every expression. *)
Definition url_Parse (u : string) : Validate.URL + string :=
  if HasPrefix u "http://"
  then inl {| Validate.Scheme := "http";
              Validate.URL_Host := TrimPrefix u "http://";
              Validate.URL_String := u |}
  else inr "first path segment in URL cannot contain colon".

Definition regexp_Compile (regex : string) : Validate.error := Validate.nil.

(** A request below the prefix of an API. *)
(** Stand-ins for the token library: the text of a token names its
    method, user and key, and the parser knows the token of one user. *)
Definition SignedString (alg : string) (claims : Auth.Claims) (key : string)
  : string :=
  alg ++ "." ++ Auth.UserID claims ++ "." ++ key.

Definition tokenParse (claims : Auth.Claims) (token : string)
  : Auth.TokenString :=
  if String.eqb token (SignedString "HS256" claims "s3cret")
  then Auth.Segments (Some "HS256") claims "header.claims"
                     (Scenario.hmac "HS256" "s3cret" "header.claims")
  else Auth.Malformed.

Definition usersRequest : Request :=
  Scenario.request "GET" "localhost" "/api/v1/users" [] "10.0.0.1:51234".

(** A world with an empty log of contacted targets. *)
Definition quietWorld : Proxy.World (list string * unit) :=
  {| Proxy.now := Proxy.now Scenario.world0; Proxy.backends := ([], tt) |}.

(** A stand-in for the gzip writer that marks what it was given, and a
    client that accepts gzip. *)
Definition marking : Compression.Library :=
  {| Compression.Writer := unit;
     Compression.gzip_NewWriter := fun _ => tt;
     Compression.gzip_Write := fun g data => (["gzip(" ++ data ++ ")"], g);
     Compression.gzip_Close := fun _ => ["gzip-trailer"];
     Compression.Sscanf_d := fun _ => 0 |}.

Definition gzipClient : Request :=
  Scenario.request "GET" "localhost" "/api/v1"
                   [("Accept-Encoding", "gzip, deflate")] "10.0.0.1:51234".

End Examples.

(** ** internal/proxy: the state of the server *)

Module ProxyState.
Import Proxy.

(** [server.UpdateConfig]: the configuration is replaced and the load
    balancers are made anew; the handler that [Start] built, with the
    instances of the global chain, stays. *)
Definition UpdateConfig (s : server) (c : config.Config) : server :=
  {| cfg := c; healthChecker := healthChecker s;
     loadBalancers := initializeLoadBalancers c;
     globalChain := globalChain s |}.

(** Every upstream of the configuration has its load balancer, and no
    other name has one. *)
Definition balanced (s : server) : Prop :=
  forall name : string,
    is_Some (loadBalancers s !! name)
    <-> is_Some (config.Upstreams (cfg s) !! name).

(** [url.Parse] as the proxy keeps its result: the text of the URL. *)
Definition parsedText (url_Parse : string -> Validate.URL + string)
           (u : string) : option string :=
  match url_Parse u with
  | inl url => Some (Validate.URL_String url)
  | inr _ => None
  end.

(** A reverse proxy with a log: the URL of the target is noted on every
    call, before the call is passed on. *)
Definition recording {B : Type}
           (ReverseProxy : string -> World B -> Request
                           -> list WOp * World B)
           (url : string) (w : World (list string * B)) (r : Request)
  : list WOp * World (list string * B) :=
  let '(ops, w1) :=
    ReverseProxy url {| now := now w; backends := snd (backends w) |} r in
  (ops, {| now := now w1;
           backends := (url :: fst (backends w), backends w1) |}).

(** The URLs noted in the log of a world. *)
Definition contacted {B : Type} (w : World (list string * B)) : list string :=
  fst (backends w).

(** A target that the proxy may forward to: a target of some upstream
    of the configuration whose URL parses to [url] and that the checker
    reports healthy. *)
Definition healthyTargetURL (url_Parse : string -> option string)
           (s : server) (url : string) : Prop :=
  exists (name : string) (upstream : config.UpstreamService)
         (targetConfig : config.Target),
    config.Upstreams (cfg s) !! name = Some upstream
    /\ In targetConfig (config.Targets upstream)
    /\ url_Parse (config.URL targetConfig) = Some url
    /\ Health.IsHealthy (healthChecker s) (config.URL targetConfig) = true.

End ProxyState.
(* ===================================================================== *)
(** * Properties of the load balancers                                    *)
(* ===================================================================== *)

Module LoadBalancerFacts.
Import LoadBalancer.

Lemma len_zero_nil {A} (l : list A) : (len l =? 0) = true -> l = [].
Proof.
  unfold len. intros H. apply Z.eqb_eq in H.
  destruct l; [reflexivity | simpl in H; lia].
Qed.

Lemma len_pos_of_nonzero {A} (l : list A) : (len l =? 0) = false -> 0 < len l.
Proof. unfold len. intros H. apply Z.eqb_neq in H. lia. Qed.

Lemma healthyTargets_In (targets : list Target) (t : Target) :
  In t (healthyTargets targets) <-> In t targets /\ IsHealthy t = true.
Proof. unfold healthyTargets. apply filter_In. Qed.

(** An index inside the slice yields one of its elements. *)
Lemma index_at_in_range (healthy : list Target) (i : Z) :
  0 <= i < len healthy -> exists t, index_at healthy i = Ok t /\ In t healthy.
Proof.
  intros [Hlo Hhi]. unfold index_at, len in *.
  destruct (i <? 0) eqn:Hneg; [apply Z.ltb_lt in Hneg; lia |].
  destruct (healthy !! Z.to_nat i) as [t |] eqn:Hlk.
  - exists t. split; [reflexivity |].
    apply list_elem_of_In. eapply list_elem_of_lookup_2. exact Hlk.
  - apply lookup_ge_None in Hlk. lia.
Qed.

Lemma index_at_cases (healthy : list Target) (i : Z) :
  (exists t, index_at healthy i = Ok t /\ In t healthy)
  \/ (exists msg, index_at healthy i = Panic msg
                  /\ (i < 0 \/ len healthy <= i)).
Proof.
  destruct (Z_lt_dec i 0) as [Hneg | Hpos].
  - right. unfold index_at. apply Z.ltb_lt in Hneg as Hb. rewrite Hb.
    eexists. split; [reflexivity | lia].
  - destruct (Z_lt_dec i (len healthy)) as [Hin | Hout].
    + left. apply index_at_in_range. lia.
    + right. unfold index_at, len in *.
      destruct (i <? 0) eqn:Hb; [apply Z.ltb_lt in Hb; lia |].
      destruct (healthy !! Z.to_nat i) as [t |] eqn:Hlk.
      * apply lookup_lt_Some in Hlk. lia.
      * eexists. split; [reflexivity | lia].
Qed.

(** Once the loop of least connections holds a target, it holds one to
    the end, and what it holds comes from the slice. *)
Lemma least_loop_from (healthy : list Target) (acc : option Target * Z) :
  forall t, fst (fold_left least_step healthy acc) = Some t ->
            fst acc = Some t \/ In t healthy.
Proof.
  revert acc. induction healthy as [| x rest IH]; intros acc t H; simpl in *.
  - left. exact H.
  - apply IH in H. destruct H as [H | H]; [| right; right; exact H].
    destruct acc as [selected minConnections]. unfold least_step in H.
    destruct ((minConnections =? -1) || (Connections x <? minConnections));
      simpl in H.
    + right. left. congruence.
    + left. exact H.
Qed.

Lemma least_loop_keeps (healthy : list Target) (acc : option Target * Z) :
  is_Some (fst acc) -> is_Some (fst (fold_left least_step healthy acc)).
Proof.
  revert acc. induction healthy as [| x rest IH]; intros acc H; simpl.
  - exact H.
  - apply IH. destruct acc as [selected minConnections]. unfold least_step.
    destruct ((minConnections =? -1) || (Connections x <? minConnections));
      simpl; [eexists; reflexivity | exact H].
Qed.

Lemma least_loop_selects (healthy : list Target) :
  healthy <> [] ->
  exists t, fst (least_loop healthy) = Some t /\ In t healthy.
Proof.
  intros Hne. destruct healthy as [| x rest]; [congruence |].
  unfold least_loop. simpl fold_left.
  assert (Hs : is_Some (fst (fold_left least_step rest (Some x, Connections x)))).
  { apply least_loop_keeps. eexists. reflexivity. }
  destruct Hs as [t Ht]. exists t. split; [exact Ht |].
  apply least_loop_from in Ht. destruct Ht as [Ht | Ht].
  - left. simpl in Ht. congruence.
  - right. exact Ht.
Qed.

(** C1. For each of the three strategies and every list of targets,
    [SelectTarget] does one of three things.  It returns an error, and
    then no target of the list is healthy (an empty list included).  Or
    it returns a target, and then that target is one of the list and its
    healthy flag is set, so an unhealthy target is never returned.  Or
    the call panics, which needs a healthy target and a round-robin
    counter that has wrapped below zero or at least 2^32 healthy targets
    under IP hash.  In particular the empty healthy subset always gives
    the error, and with a counter that has not wrapped and fewer than
    2^32 healthy targets the call does not panic. *)
Theorem C1_SelectTarget_only_healthy :
  forall (lb : LoadBalancer) (targets : list Target) (req : Request),
    let result := fst (SelectTarget lb targets req) in
    ((healthyTargets targets = [] /\ exists msg, result = Err msg)
     \/ (exists t, result = Ok t /\ In t targets /\ IsHealthy t = true
                   /\ In t (healthyTargets targets))
     \/ (exists msg, result = Panic msg /\ healthyTargets targets <> []
                     /\ ((exists current, lb = RoundRobin current
                                          /\ current < 0)
                         \/ (lb = IPHash
                             /\ 2 ^ 32 <= len (healthyTargets targets)))))
    /\ ((forall current, lb = RoundRobin current -> 0 <= current) ->
        len (healthyTargets targets) < 2 ^ 32 ->
        forall msg, result <> Panic msg).
Proof.
  intros lb targets req result. subst result.
  match goal with |- ?A /\ _ => assert (Hmain : A) end;
    [| split; [exact Hmain |];
       intros Hcur Hsmall msg E;
       destruct Hmain as [[_ [m E']] | [[t [E' _]]
                          | [m [_ [_ [[c [-> Hneg]] | [_ Hbig]]]]]]];
       [rewrite E in E'; discriminate | rewrite E in E'; discriminate
        | specialize (Hcur c eq_refl); lia | lia]].
  destruct (len targets =? 0) eqn:Hlen.
  { (* the empty list *)
    left. apply len_zero_nil in Hlen as ->.
    split; [reflexivity |].
    destruct lb; simpl; eexists; reflexivity. }
  destruct (len (healthyTargets targets) =? 0) eqn:Hh.
  { (* no healthy target *)
    left. split; [apply len_zero_nil; exact Hh |].
    destruct lb; simpl;
      unfold RoundRobin_SelectTarget, LeastConnections_SelectTarget,
        IPHash_SelectTarget; rewrite Hlen, Hh; eexists; reflexivity. }
  right.
  assert (Hne : healthyTargets targets <> []).
  { intros E. rewrite E in Hh. discriminate. }
  pose proof (len_pos_of_nonzero _ Hh) as Hpos.
  destruct lb as [current | |]; simpl.
  - (* round robin *)
    unfold RoundRobin_SelectTarget. rewrite Hlen, Hh.
    destruct (index_at_cases (healthyTargets targets)
                (Z.rem current (len (healthyTargets targets))))
      as [[t [E Hin]] | [msg [E Hbad]]]; rewrite E; simpl.
    + left. exists t. apply healthyTargets_In in Hin as Hin'.
      destruct Hin'. auto.
    + right. exists msg. split; [reflexivity |]. split; [exact Hne |].
      left. exists current. split; [reflexivity |].
      destruct (Z_lt_dec current 0) as [| Hc]; [assumption |].
      exfalso.
      pose proof (Z.rem_bound_pos current (len (healthyTargets targets))).
      lia.
  - (* least connections *)
    unfold LeastConnections_SelectTarget. rewrite Hlen, Hh.
    destruct (least_loop_selects _ Hne) as [t [E Hin]]. rewrite E.
    left. exists t. apply healthyTargets_In in Hin as Hin'.
    destruct Hin'. auto.
  - (* IP hash *)
    unfold IPHash_SelectTarget. rewrite Hlen, Hh.
    destruct (uint32 (len (healthyTargets targets)) =? 0) eqn:Hn.
    + right. eexists. split; [reflexivity |]. split; [exact Hne |].
      right. split; [reflexivity |].
      apply Z.eqb_eq in Hn. unfold uint32 in Hn.
      destruct (Z_lt_dec (len (healthyTargets targets)) (2 ^ 32)) as [Hsm |];
        [| lia].
      rewrite Z.mod_small in Hn; lia.
    + apply Z.eqb_neq in Hn.
      assert (Hb : 0 <= uint32 (len (healthyTargets targets))
                   <= len (healthyTargets targets)).
      { unfold uint32. split.
        - apply Z.mod_pos_bound. lia.
        - apply Z.mod_le; lia. }
      destruct (index_at_in_range (healthyTargets targets)
                  (hashIP (IPHash_getClientIP req)
                   mod uint32 (len (healthyTargets targets))))
        as [t [E Hin]].
      { pose proof (Z.mod_pos_bound (hashIP (IPHash_getClientIP req))
                      (uint32 (len (healthyTargets targets)))).
        lia. }
      rewrite E. left. exists t. apply healthyTargets_In in Hin as Hin'.
      destruct Hin'. auto.
Qed.

End LoadBalancerFacts.

(* ===================================================================== *)
(** * Properties of the health state machine                              *)
(* ===================================================================== *)

Module HealthFacts.
Import Health.

Lemma int_add_1_small (x : Z) : 0 <= x < int_max -> int_add x 1 = x + 1.
Proof.
  unfold int_add, wrap_int, int_max. intros H.
  rewrite Z.mod_small; lia.
Qed.

Lemma run_probes_snoc (config : HealthCheckConfig) (h : TargetHealth)
      (obs : list observation) (o : observation) :
  run_probes config h (obs ++ [o])
  = updateTargetHealth (run_probes config h obs) (ok o) (rtt o) (failure o)
                       config (at_time o).
Proof. unfold run_probes. rewrite fold_left_app. reflexivity. Qed.

Lemma trailing_snoc (b : bool) (outcomes : list bool) (o : bool) :
  trailing b (outcomes ++ [o])
  = if Bool.eqb o b then Datatypes.S (trailing b outcomes) else O.
Proof. unfold trailing. rewrite rev_app_distr. reflexivity. Qed.

Lemma trailing_le_length (b : bool) (outcomes : list bool) :
  (trailing b outcomes <= List.length outcomes)%nat.
Proof.
  unfold trailing. rewrite <- length_rev.
  induction (rev outcomes) as [| o rest IH]; simpl; [lia |].
  destruct (Bool.eqb o b); lia.
Qed.

(** The last [n] outcomes of a history whose streak is at least [n] are
    all equal to [b]. *)
Lemma trailing_suffix (b : bool) (outcomes : list bool) (n : nat) :
  (n <= trailing b outcomes)%nat ->
  exists before, outcomes = (before ++ repeat b n)%list.
Proof.
  unfold trailing. revert n.
  induction outcomes as [| o rest IH] using rev_ind; intros n Hn.
  - simpl in Hn. assert (n = O) by lia. subst. exists []. reflexivity.
  - rewrite rev_app_distr in Hn. simpl in Hn.
    destruct n as [| n]; [exists (rest ++ [o])%list; simpl; symmetry; apply app_nil_r |].
    destruct (Bool.eqb o b) eqn:E; [| lia].
    apply Bool.eqb_prop in E. subst o.
    destruct (IH n) as [before Hb]; [lia |].
    exists before. rewrite Hb. rewrite <- app_assoc. f_equal.
    change [b] with (repeat b 1). rewrite <- repeat_app.
    f_equal. lia.
Qed.

(** From a record with both counters at zero, each counter is the
    length of the current streak, as long as fewer than 2^63 probes were
    made. *)
Lemma run_probes_counters (config : HealthCheckConfig) (h0 : TargetHealth)
      (obs : list observation) :
  ConsecutiveFailures h0 = 0 -> ConsecutiveSuccesses h0 = 0 ->
  Z.of_nat (List.length obs) <= int_max ->
  ConsecutiveFailures (run_probes config h0 obs)
  = Z.of_nat (trailing false (map ok obs))
  /\ ConsecutiveSuccesses (run_probes config h0 obs)
     = Z.of_nat (trailing true (map ok obs)).
Proof.
  intros Hf Hs. induction obs as [| o rest IH] using rev_ind; intros Hlen.
  - simpl. rewrite Hf, Hs. split; reflexivity.
  - rewrite length_app in Hlen. simpl in Hlen.
    destruct IH as [IHf IHs]; [lia |].
    rewrite run_probes_snoc, map_app. simpl map.
    rewrite !trailing_snoc.
    pose proof (trailing_le_length false (map ok rest)) as Lf.
    pose proof (trailing_le_length true (map ok rest)) as Ls.
    rewrite length_map in Lf, Ls.
    unfold updateTargetHealth. destruct (ok o); simpl.
    + split; [reflexivity |].
      rewrite IHs, int_add_1_small; lia.
    + split; [| reflexivity].
      rewrite IHf, int_add_1_small; lia.
Qed.

(** C3. One update step, for every record and every probe outcome: on a
    2xx outcome the success counter is incremented (Go's [+ 1]), the
    failure counter is reset to zero, and the status is Healthy when the
    new success count reaches the success threshold and the previous
    status otherwise; on a failure the failure counter is incremented,
    the success counter reset, and the status is Unhealthy when the new
    failure count reaches the failure threshold and the previous status
    otherwise.  Hence, over any history of fewer than 2^63 probes that
    starts with both counters at zero, the counters are the lengths of
    the current streaks, a step from Healthy to Unhealthy is a failure
    that ends at least [FailureThreshold] consecutive failures, and a
    step from Unhealthy to Healthy is a success that ends at least
    [SuccessThreshold] consecutive successes. *)
Theorem C3_health_hysteresis :
  (forall (existing : TargetHealth) (isHealthy : bool) (responseTime : Z)
          (err : option string) (config : HealthCheckConfig) (now : Z),
      let health :=
        updateTargetHealth existing isHealthy responseTime err config now in
      if isHealthy then
        ConsecutiveSuccesses health
        = int_add (ConsecutiveSuccesses existing) 1
        /\ ConsecutiveFailures health = 0
        /\ Status_ health
           = (if SuccessThreshold config <=? ConsecutiveSuccesses health
              then StatusHealthy else Status_ existing)
      else
        ConsecutiveFailures health
        = int_add (ConsecutiveFailures existing) 1
        /\ ConsecutiveSuccesses health = 0
        /\ Status_ health
           = (if FailureThreshold config <=? ConsecutiveFailures health
              then StatusUnhealthy else Status_ existing))
  /\
  (forall (config : HealthCheckConfig) (h0 : TargetHealth)
          (obs : list observation) (o : observation),
      ConsecutiveFailures h0 = 0 -> ConsecutiveSuccesses h0 = 0 ->
      Z.of_nat (List.length obs) < int_max ->
      let before := run_probes config h0 obs in
      let after := run_probes config h0 (obs ++ [o]) in
      let history := map ok (obs ++ [o]) in
      ConsecutiveFailures after = Z.of_nat (trailing false history)
      /\ ConsecutiveSuccesses after = Z.of_nat (trailing true history)
      /\ (Status_ before = StatusHealthy -> Status_ after = StatusUnhealthy ->
          ok o = false
          /\ FailureThreshold config <= Z.of_nat (trailing false history)
          /\ exists earlier,
               history
               = (earlier
                  ++ repeat false (Z.to_nat (FailureThreshold config)))%list)
      /\ (Status_ before = StatusUnhealthy -> Status_ after = StatusHealthy ->
          ok o = true
          /\ SuccessThreshold config <= Z.of_nat (trailing true history)
          /\ exists earlier,
               history
               = (earlier
                  ++ repeat true (Z.to_nat (SuccessThreshold config)))%list)).
Proof.
  split.
  - intros existing isHealthy responseTime err config now health.
    subst health. unfold updateTargetHealth.
    destruct isHealthy; simpl; repeat split; reflexivity.
  - intros config h0 obs o Hf Hs Hlen before after history.
    assert (Hc : ConsecutiveFailures after = Z.of_nat (trailing false history)
                 /\ ConsecutiveSuccesses after
                    = Z.of_nat (trailing true history)).
    { subst after history. apply run_probes_counters; try assumption.
      rewrite length_app. simpl. lia. }
    destruct Hc as [Hcf Hcs].
    split; [exact Hcf |]. split; [exact Hcs |].
    assert (Hstep : after = updateTargetHealth before (ok o) (rtt o)
                              (failure o) config (at_time o)).
    { subst after before. apply run_probes_snoc. }
    split.
    + intros Hb Ha.
      assert (Hok : ok o = false /\ FailureThreshold config
                                    <= Z.of_nat (trailing false history)).
      { rewrite <- Hcf. rewrite Hstep in Ha |- *. unfold updateTargetHealth in *.
        destruct (ok o); simpl in *.
        - destruct (SuccessThreshold config
                    <=? int_add (ConsecutiveSuccesses before) 1);
            congruence.
        - split; [reflexivity |].
          destruct (FailureThreshold config
                    <=? int_add (ConsecutiveFailures before) 1) eqn:E;
            [apply Z.leb_le in E; exact E | congruence]. }
      destruct Hok as [Hok Hthr]. split; [exact Hok |]. split; [exact Hthr |].
      apply trailing_suffix. lia.
    + intros Hb Ha.
      assert (Hok : ok o = true /\ SuccessThreshold config
                                   <= Z.of_nat (trailing true history)).
      { rewrite <- Hcs. rewrite Hstep in Ha |- *. unfold updateTargetHealth in *.
        destruct (ok o); simpl in *.
        - split; [reflexivity |].
          destruct (SuccessThreshold config
                    <=? int_add (ConsecutiveSuccesses before) 1) eqn:E;
            [apply Z.leb_le in E; exact E | congruence].
        - destruct (FailureThreshold config
                    <=? int_add (ConsecutiveFailures before) 1);
            congruence. }
      destruct Hok as [Hok Hthr]. split; [exact Hok |]. split; [exact Hthr |].
      apply trailing_suffix. lia.
Qed.

(** A run on the defaults of the checker (three failures, two
    successes): two successes make the target healthy, two failures
    leave it so, and the third failure flips it. *)
Lemma C3_health_hysteresis_witness :
  let config := defaultHealthConfig 30 5 in
  let good := {| ok := true; rtt := 1; failure := None; at_time := 0 |} in
  let bad := {| ok := false; rtt := 1; failure := Some "down"; at_time := 0 |} in
  Status_ (run_probes config (unknownTarget "a") [good; good; bad; bad])
  = StatusHealthy
  /\ Status_ (run_probes config (unknownTarget "a") [good; good; bad; bad; bad])
     = StatusUnhealthy
  /\ FailureThreshold config
     <= Z.of_nat (trailing false [true; true; false; false; false]).
Proof.
  intros config good bad.
  split; [reflexivity |]. split; [reflexivity |].
  pose proof (proj2 C3_health_hysteresis config (unknownTarget "a")
                [good; good; bad; bad] bad eq_refl eq_refl) as H.
  simpl in H.
  assert (Hlen : 4 < int_max) by (unfold int_max; lia).
  destruct (H Hlen) as [_ [_ [Hflip _]]].
  destruct (Hflip eq_refl eq_refl) as [_ [Hthr _]].
  exact Hthr.
Defined.

End HealthFacts.

(* ===================================================================== *)
(** * Properties of the health checker's view                             *)
(* ===================================================================== *)

Module CheckerFacts.
Import Health.

(** [IsHealthy] answers [true] exactly for a URL that is not in the map
    and for one whose record is Healthy. *)
Lemma IsHealthy_true_iff (c : checker) (url : string) :
  IsHealthy c url = true
  <-> targets c !! url = None
      \/ exists health, targets c !! url = Some health
                        /\ Status_ health = StatusHealthy.
Proof.
  unfold IsHealthy. destruct (targets c !! url) as [health |]; split.
  - intros H. right. exists health. split; [reflexivity |].
    destruct (Status_ health); simpl in H; congruence.
  - intros [H | [h [H1 H2]]]; [discriminate |].
    injection H1 as ->. rewrite H2. reflexivity.
  - intros _. left. reflexivity.
  - intros _. reflexivity.
Qed.

(** A URL the checker has no record of is treated as healthy. *)
Lemma IsHealthy_unregistered (c : checker) (url : string) :
  targets c !! url = None -> IsHealthy c url = true.
Proof. intros H. apply IsHealthy_true_iff. left. exact H. Qed.

(** A record in the Unknown state is not. *)
Lemma IsHealthy_unknown_record (c : checker) (url : string) (h : TargetHealth) :
  targets c !! url = Some h -> Status_ h = StatusUnknown ->
  IsHealthy c url = false.
Proof. intros H1 H2. unfold IsHealthy. rewrite H1, H2. reflexivity. Qed.

(** C4 (as amended). [IsHealthy] answers [true] for a URL exactly when
    the checker has no record of it or its record is in the Healthy
    state.  So a target that was never registered is treated as healthy,
    in particular every target of a new checker, which is all a checker
    with checking disabled ever is; the record that [CheckTarget]
    returns when the check of the target is disabled is Healthy; and the
    view that the proxy builds of a target carries the answer of
    [IsHealthy] for its URL.  A record in the Unknown state, as
    [registerTarget] stores it, is answered [false]. *)
Theorem C4_unknown_targets_fail_open :
  forall (c : checker) (url : string),
    (IsHealthy c url = true
     <-> targets c !! url = None
         \/ exists health, targets c !! url = Some health
                           /\ Status_ health = StatusHealthy)
    /\ IsHealthy (NewChecker (cfg_Enabled c)) url = true
    /\ (forall (config : HealthCheckConfig) (p : probe) (now : Z),
          Enabled config = false ->
          Status_ (CheckTarget c url config p now) = StatusHealthy)
    /\ (forall (url_Parse : string -> option string)
               (targetConfig : config.Target) (view : LoadBalancer.Target),
          Proxy.createTarget url_Parse c targetConfig = Some view ->
          LoadBalancer.IsHealthy view
          = IsHealthy c (config.URL targetConfig))
    /\ (forall health, targets c !! url = Some health ->
                       Status_ health = StatusUnknown ->
                       IsHealthy c url = false).
Proof.
  intros c url. split; [apply IsHealthy_true_iff |].
  split; [reflexivity |]. split.
  - intros config p now H. unfold CheckTarget. rewrite H. reflexivity.
  - split.
    + intros url_Parse targetConfig view H. unfold Proxy.createTarget in H.
      destruct (url_Parse (config.URL targetConfig)); [| discriminate].
      injection H as <-. reflexivity.
    + intros health. apply IsHealthy_unknown_record.
Qed.

(** C4 (counterexample). A target that was registered and not probed yet
    is in the Unknown state, and [IsHealthy] answers [false] for it;
    after one successful probe, below the success threshold of two, it
    is still Unknown and still not healthy.  The same URL is healthy for
    a checker that has not registered it. *)
Lemma C4_registered_unknown_target_not_healthy :
  let url := "http://localhost:3001" in
  let c := registerTarget (NewChecker true) url in
  let c1 := performHealthChecks c 30 5 (fun _ => Responded 1 200) 0 in
  Status_ (GetHealth c url) = StatusUnknown
  /\ IsHealthy c url = false
  /\ Status_ (GetHealth c1 url) = StatusUnknown
  /\ ConsecutiveSuccesses (GetHealth c1 url) = 1
  /\ IsHealthy c1 url = false
  /\ IsHealthy (NewChecker true) url = true.
Proof. vm_compute. repeat split; reflexivity. Qed.

End CheckerFacts.

(* ===================================================================== *)
(** * The two client IP functions                                         *)
(* ===================================================================== *)

Module ClientIPFacts.

(** [strings.Split] returns at least one field. *)
Lemma split_go_nonempty (sep s : string) :
  forall (skip : nat) (cur : list ascii), split_go sep skip cur s <> [].
Proof.
  induction s as [| a s IH]; intros skip cur; cbn [split_go].
  - discriminate.
  - destruct skip; [| apply IH].
    destruct (String.prefix sep (String a s)); [discriminate | apply IH].
Qed.

Lemma Split_nonempty (s sep : string) : Split s sep <> [].
Proof. apply split_go_nonempty. Qed.

(** With an [X-Real-IP] header both functions return its value. *)
Lemma getClientIP_real_ip (r : Request) :
  Header_Get (Header r) "X-Real-IP" <> "" ->
  LoadBalancer.IPHash_getClientIP r = Header_Get (Header r) "X-Real-IP"
  /\ RateLimit.getClientIP r = Header_Get (Header r) "X-Real-IP".
Proof.
  intros H. unfold LoadBalancer.IPHash_getClientIP, RateLimit.getClientIP.
  destruct (String.eqb_spec (Header_Get (Header r) "X-Real-IP") "");
    [contradiction | split; reflexivity].
Qed.

(** Without it, the IP hash takes the first entry of [X-Forwarded-For],
    trimmed, and otherwise the host part of the remote address. *)
Lemma IPHash_getClientIP_forwarded (r : Request) :
  Header_Get (Header r) "X-Real-IP" = "" ->
  Header_Get (Header r) "X-Forwarded-For" <> "" ->
  exists first rest,
    Split (Header_Get (Header r) "X-Forwarded-For") "," = first :: rest
    /\ LoadBalancer.IPHash_getClientIP r = TrimSpace first.
Proof.
  intros H1 H2. unfold LoadBalancer.IPHash_getClientIP. rewrite H1. simpl.
  destruct (String.eqb_spec (Header_Get (Header r) "X-Forwarded-For") "");
    [contradiction |]. simpl.
  destruct (Split (Header_Get (Header r) "X-Forwarded-For") ",")
    as [| first rest] eqn:E.
  - exfalso. exact (Split_nonempty _ _ E).
  - exists first, rest. split; reflexivity.
Qed.

Lemma IPHash_getClientIP_remote (r : Request) :
  Header_Get (Header r) "X-Real-IP" = "" ->
  Header_Get (Header r) "X-Forwarded-For" = "" ->
  LoadBalancer.IPHash_getClientIP r
  = match SplitHostPort (RemoteAddr r) with
    | Some (host, _) => host
    | None => RemoteAddr r
    end.
Proof.
  intros H1 H2. unfold LoadBalancer.IPHash_getClientIP. rewrite H1, H2. simpl.
  destruct (SplitHostPort (RemoteAddr r)) as [[host port] |]; reflexivity.
Qed.

(** C5 (the code at the failing inputs). On a direct connection the IP
    hash strips the port of the remote address and the rate limiter
    keeps it; on a forwarded request the IP hash takes the first entry
    of [X-Forwarded-For] and the rate limiter the whole header.  The two
    functions disagree on both requests. *)
Theorem C5_client_ip_functions_disagree :
  LoadBalancer.IPHash_getClientIP Scenario.direct = "10.0.0.1"
  /\ RateLimit.getClientIP Scenario.direct = "10.0.0.1:51234"
  /\ LoadBalancer.IPHash_getClientIP Scenario.forwarded = "10.0.0.1"
  /\ RateLimit.getClientIP Scenario.forwarded = "10.0.0.1, 192.168.0.7".
Proof. vm_compute. repeat split; reflexivity. Qed.

End ClientIPFacts.

(* ===================================================================== *)
(** * The target views of a request and least connections                 *)
(* ===================================================================== *)

Module TargetViewFacts.
Import LoadBalancer.

Lemma find_head_filter {A} (f : A -> bool) (l : list A) :
  List.find f l = head (List.filter f l).
Proof.
  induction l as [| x l IH]; simpl; [reflexivity |].
  destruct (f x); [reflexivity | exact IH].
Qed.

(** With every count at zero the loop keeps the first target it sees. *)
Lemma least_loop_all_zero (t : Target) (rest : list Target) :
  Forall (fun x => Connections x = 0) rest ->
  fold_left least_step rest (Some t, 0) = (Some t, 0).
Proof.
  induction 1 as [| x rest Hx _ IH]; simpl; [reflexivity |].
  rewrite Hx. simpl. exact IH.
Qed.

Lemma LeastConnections_first_healthy (targets : list Target) :
  targets <> [] ->
  Forall (fun t => Connections t = 0) targets ->
  LeastConnections_SelectTarget targets
  = match List.find IsHealthy targets with
    | Some t => Ok t
    | None => Err "no healthy targets available"
    end.
Proof.
  intros Hne Hzero. unfold LeastConnections_SelectTarget.
  destruct (len targets =? 0) eqn:Hlen.
  { apply LoadBalancerFacts.len_zero_nil in Hlen. contradiction. }
  rewrite find_head_filter. fold (healthyTargets targets).
  assert (Hz : Forall (fun t => Connections t = 0) (healthyTargets targets)).
  { apply List.Forall_forall. intros t Ht.
    apply LoadBalancerFacts.healthyTargets_In in Ht as [Ht _].
    eapply List.Forall_forall in Hzero; eauto. }
  destruct (healthyTargets targets) as [| t rest]; [reflexivity |].
  change (len (t :: rest) =? 0) with false. cbv iota.
  unfold least_loop. simpl fold_left.
  inversion Hz as [| ? ? Ht Hrest]; subst.
  rewrite Ht. rewrite least_loop_all_zero by assumption. reflexivity.
Qed.

Section Views.

Variable url_Parse : string -> option string.
Variable regexp_ReplaceAllString : string -> string -> string -> option string.

Lemma createTargets_zero_connections (hc : Health.checker)
      (upstream : config.UpstreamService) :
  Forall (fun t => Connections t = 0)
         (Proxy.createTargets url_Parse hc upstream).
Proof.
  unfold Proxy.createTargets. apply List.Forall_forall. intros t Ht.
  apply list_elem_of_In, list_elem_of_omap in Ht as [tc [_ Hc]].
  unfold Proxy.createTarget in Hc.
  destruct (url_Parse (config.URL tc)); [| discriminate].
  injection Hc as <-. reflexivity.
Qed.

(** C9. Whenever the main handler reaches the selection of a target, the
    views it hands to the strategy are the ones [createTargets] has just
    built from the configured targets of the route's upstream and the
    health checker, and every one of them has [Connections = 0]; they do
    not depend on the load balancers or on any earlier request.  If the
    strategy of the upstream is least connections, the selected target is
    therefore the first healthy view in the declared order, and the
    error when none is healthy. *)
Theorem C9_least_connections_sees_zero_counts :
  forall (s : Proxy.server) (r : Request) (sel : Proxy.selection),
    Proxy.selectTarget url_Parse regexp_ReplaceAllString s r = inr sel ->
    exists upstream,
      config.Upstreams (Proxy.cfg s) !! config.Upstream (Proxy.sel_route sel)
      = Some upstream
      /\ Proxy.sel_targets sel
         = Proxy.createTargets url_Parse (Proxy.healthChecker s) upstream
      /\ Forall (fun t => Connections t = 0) (Proxy.sel_targets sel)
      /\ (Proxy.loadBalancers s !! config.Upstream (Proxy.sel_route sel)
          = Some LeastConnections ->
          Proxy.sel_result sel
          = match List.find IsHealthy (Proxy.sel_targets sel) with
            | Some t => Ok t
            | None => Err "no healthy targets available"
            end).
Proof.
  intros s r sel H. unfold Proxy.selectTarget in H.
  destruct (Router.findMatchingRoute _ r) as [route |]; [| discriminate].
  destruct (Proxy.applyRewrite _ r _) as [r1 |]; [| discriminate].
  destruct (config.Upstreams (Proxy.cfg s) !! config.Upstream route)
    as [upstream |] eqn:Hup; [| discriminate].
  destruct (Proxy.loadBalancers s !! config.Upstream route)
    as [lb |] eqn:Hlb; [| discriminate].
  destruct (len (Proxy.createTargets url_Parse (Proxy.healthChecker s) upstream)
            =? 0) eqn:Hlen; [discriminate |].
  destruct (SelectTarget lb _ r1) as [result lb'] eqn:Hsel.
  injection H as <-. simpl.
  exists upstream. split; [exact Hup |]. split; [reflexivity |].
  split; [apply createTargets_zero_connections |].
  intros Hlc. rewrite Hlb in Hlc. injection Hlc as ->.
  simpl in Hsel. injection Hsel as <- _.
  apply LeastConnections_first_healthy.
  - intros E. rewrite E in Hlen. discriminate.
  - apply createTargets_zero_connections.
Qed.

End Views.

(** On the server whose first target is down, least connections is
    handed two views with no connections and answers the second. *)
Lemma C9_least_connections_witness :
  exists sel,
    Proxy.selectTarget Scenario.url_Parse Scenario.regexp_ReplaceAllString
                       Scenario.leastConnectionsServer Scenario.direct
    = inr sel
    /\ (exists upstream,
          config.Upstreams (Proxy.cfg Scenario.leastConnectionsServer)
            !! config.Upstream (Proxy.sel_route sel) = Some upstream
          /\ Proxy.sel_targets sel
             = Proxy.createTargets Scenario.url_Parse
                 (Proxy.healthChecker Scenario.leastConnectionsServer) upstream
          /\ Forall (fun t => Connections t = 0) (Proxy.sel_targets sel)
          /\ (Proxy.loadBalancers Scenario.leastConnectionsServer
                !! config.Upstream (Proxy.sel_route sel)
              = Some LeastConnections ->
              Proxy.sel_result sel
              = match List.find IsHealthy (Proxy.sel_targets sel) with
                | Some t => Ok t
                | None => Err "no healthy targets available"
                end))
    /\ map Connections (Proxy.sel_targets sel) = [0; 0]
    /\ map IsHealthy (Proxy.sel_targets sel) = [false; true]
    /\ Proxy.sel_result sel
       = Ok {| URL := "http://localhost:3002"; Weight := 1;
               IsHealthy := true; Connections := 0 |}.
Proof.
  eexists. split; [vm_compute; reflexivity |].
  split.
  - apply (C9_least_connections_sees_zero_counts
             Scenario.url_Parse Scenario.regexp_ReplaceAllString
             Scenario.leastConnectionsServer Scenario.direct).
    vm_compute. reflexivity.
  - vm_compute. repeat split; reflexivity.
Defined.

End TargetViewFacts.

(* ===================================================================== *)
(** * The router                                                          *)
(* ===================================================================== *)

Module RouterFacts.
Import Router.

Lemma Index_lower_bound (s substr : string) : -1 <= Index s substr.
Proof.
  induction s as [| a s IH]; cbn [Index].
  - destruct (String.prefix substr ""); lia.
  - destruct (String.prefix substr (String a s)); [lia |].
    cbv zeta. destruct (Z.ltb_spec (Index s substr) 0); lia.
Qed.

Lemma existsb_eqb_In (x : string) (l : list string) :
  existsb (fun y => String.eqb y x) l = true <-> In x l.
Proof.
  rewrite existsb_exists. split.
  - intros [y [Hy E]]. apply String.eqb_eq in E. subst. exact Hy.
  - intros H. exists x. split; [exact H | apply String.eqb_refl].
Qed.

(** The host the code compares with is the [Host] header cut at its
    first colon. *)
Lemma requestHost_stripPort (host : string) :
  (if negb (Index host ":" =? -1)
   then slice_to host (Z.to_nat (Index host ":")) else host)
  = stripPort host.
Proof.
  unfold stripPort. pose proof (Index_lower_bound host ":") as Hb.
  destruct (Index host ":" =? -1) eqn:E1; simpl.
  - apply Z.eqb_eq in E1. rewrite E1. reflexivity.
  - apply Z.eqb_neq in E1.
    destruct (Index host ":" <? 0) eqn:E2; [| reflexivity].
    apply Z.ltb_lt in E2. lia.
Qed.

(** For a rule with a path, the loop body returns the rule exactly when
    the three conditions hold. *)
Lemma ruleMatches_iff (rule : config.RouteRule) (r : Request) :
  config.Path rule <> "" ->
  ruleMatches rule r = true <-> conditionsHold rule r.
Proof.
  intros Hpath. unfold ruleMatches, conditionsHold.
  rewrite requestHost_stripPort. rewrite !andb_true_iff.
  assert (Hh : (if negb (String.eqb (config.Host rule) "")
                then String.eqb (config.Host rule) (stripPort (Host r))
                else true) = true <-> hostCondition rule r).
  { unfold hostCondition.
    destruct (String.eqb_spec (config.Host rule) "") as [E | E]; simpl.
    - split; auto.
    - rewrite String.eqb_eq. split; [auto | intros [H | H]; congruence]. }
  assert (Hp : (if negb (String.eqb (config.Path rule) "")
                then if HasSuffix (config.Path rule) "/*"
                     then HasPrefix (Path r)
                                    (TrimSuffix (config.Path rule) "/*")
                     else String.eqb (Path r) (config.Path rule)
                else true) = true <-> pathCondition rule r).
  { unfold pathCondition, TrimSuffix.
    destruct (String.eqb_spec (config.Path rule) "") as [E | E];
      [contradiction |]. simpl.
    destruct (HasSuffix (config.Path rule) "/*"); [reflexivity |].
    apply String.eqb_eq. }
  assert (Hm : (if 0 <? len (config.Methods rule)
                then existsb (fun method => String.eqb method (Method r))
                             (config.Methods rule)
                else true) = true <-> methodCondition rule r).
  { unfold methodCondition, len.
    destruct (config.Methods rule) as [| m ms] eqn:E.
    - simpl. split; auto.
    - change (0 <? Z.of_nat (List.length (m :: ms))) with true. cbv iota.
      rewrite existsb_eqb_In. split; [auto | intros [H | H]; [discriminate | exact H]]. }
  rewrite Hh, Hp, Hm. tauto.
Qed.

(** The loop returns the first rule whose body does not [continue]. *)
Lemma findMatchingRoute_first (rules : list config.RouteRule) (r : Request) :
  match findMatchingRoute rules r with
  | Some rule =>
      exists before after,
        rules = (before ++ rule :: after)%list
        /\ ruleMatches rule r = true
        /\ Forall (fun x => ruleMatches x r = false) before
  | None => Forall (fun x => ruleMatches x r = false) rules
  end.
Proof.
  induction rules as [| rule rest IH]; simpl; [constructor |].
  destruct (ruleMatches rule r) eqn:E.
  - exists [], rest. repeat split; [exact E | constructor].
  - destruct (findMatchingRoute rest r) as [found |].
    + destruct IH as [before [after [H1 [H2 H3]]]].
      exists (rule :: before), after. rewrite H1.
      repeat split; [exact H2 | constructor; assumption].
    + constructor; assumption.
Qed.

Section MainHandler.

Variable B : Type.
Variable url_Parse : string -> option string.
Variable regexp_ReplaceAllString : string -> string -> string -> option string.
Variable ReverseProxy : string -> Proxy.World B -> Request
                        -> list WOp * Proxy.World B.
Variable hmac : string -> string -> string -> string.
Variable parse : string -> Auth.TokenString.
Variable compressedResponseWriter :
  gmap string any -> Request -> list WOp -> list WOp.

(** C8 (as amended). For every request and every routing table whose
    rules have a path, as validation requires, the router returns the
    first rule in declared order for which the three conditions hold:
    the rule's host is empty or equals the request's Host cut at its
    first colon; the request path has the rule path without its last two
    characters as a prefix when the rule path ends in [/*], and equals
    the rule path otherwise; the rule's method list is empty or contains
    the request method.  If no rule satisfies them, the main handler
    answers 404 and leaves the server and the world as they were: no
    route middleware is built or run. *)
Theorem C8_router_first_match :
  forall (s : Proxy.server) (w : Proxy.World B) (r : Request),
    Forall (fun rule => config.Path rule <> "")
           (config.Routes (Proxy.cfg s)) ->
    match findMatchingRoute (config.Routes (Proxy.cfg s)) r with
    | Some rule =>
        exists before after,
          config.Routes (Proxy.cfg s) = (before ++ rule :: after)%list
          /\ conditionsHold rule r
          /\ Forall (fun x => ~ conditionsHold x r) before
    | None =>
        Forall (fun x => ~ conditionsHold x r) (config.Routes (Proxy.cfg s))
        /\ Proxy.mainHandler B url_Parse regexp_ReplaceAllString ReverseProxy
                             hmac parse compressedResponseWriter (s, w) r
           = (NotFound, (s, w), r)
        /\ sent_status NotFound = Some StatusNotFound
    end.
Proof.
  intros s w r Hvalid.
  pose proof (findMatchingRoute_first (config.Routes (Proxy.cfg s)) r) as H.
  assert (Hno : forall l, Forall (fun rule => config.Path rule <> "") l ->
                          Forall (fun x => ruleMatches x r = false) l ->
                          Forall (fun x => ~ conditionsHold x r) l).
  { intros l Hl Hf. induction Hf as [| x l Hx _ IH]; constructor.
    - inversion Hl; subst. intros Hc. apply ruleMatches_iff in Hc; congruence.
    - apply IH. inversion Hl; assumption. }
  destruct (findMatchingRoute (config.Routes (Proxy.cfg s)) r) as [rule |] eqn:E.
  - destruct H as [before [after [H1 [H2 H3]]]].
    exists before, after. split; [exact H1 |].
    rewrite H1 in Hvalid. apply Forall_app in Hvalid as [Hb Ha].
    split.
    + apply ruleMatches_iff; [inversion Ha; assumption | exact H2].
    + apply Hno; assumption.
  - split; [apply Hno; assumption |]. split; [| reflexivity].
    unfold Proxy.mainHandler, Proxy.selectTarget. rewrite E. reflexivity.
Qed.

End MainHandler.

(** The request of a direct client matches the only route of the
    configuration, and the conditions hold for that route. *)
Lemma C8_router_first_match_witness :
  Forall (fun rule => config.Path rule <> "")
         (config.Routes (Proxy.cfg Scenario.leastConnectionsServer))
  /\ exists before after,
       config.Routes (Proxy.cfg Scenario.leastConnectionsServer)
       = (before ++ Scenario.apiRoute [] 0 0 :: after)%list
       /\ conditionsHold (Scenario.apiRoute [] 0 0) Scenario.direct
       /\ Forall (fun x => ~ conditionsHold x Scenario.direct) before.
Proof.
  assert (Hv : Forall (fun rule => config.Path rule <> "")
                      (config.Routes
                         (Proxy.cfg Scenario.leastConnectionsServer))).
  { repeat constructor. discriminate. }
  split; [exact Hv |].
  exact (C8_router_first_match unit Scenario.url_Parse
           Scenario.regexp_ReplaceAllString Scenario.okBackend Scenario.hmac
           Scenario.parse Scenario.compressedResponseWriter
           Scenario.leastConnectionsServer Scenario.world0 Scenario.direct Hv).
Defined.

(** C8 (counterexample). A request that matches no rule of a
    configuration whose middleware file enables authentication: the
    global chain runs first, the auth middleware answers 401, and the
    main handler, which would answer 404, is not reached. *)
Lemma C8_unmatched_request_meets_global_chain :
  findMatchingRoute (config.Routes Scenario.authConfig) Scenario.unmatched
  = None
  /\ exists s,
       Proxy.Start Scenario.authConfig (Health.NewChecker false) = Some s
       /\ fst (fst (Proxy.ServeHTTP unit Scenario.url_Parse
                      Scenario.regexp_ReplaceAllString Scenario.okBackend
                      Scenario.hmac Scenario.parse
                      Scenario.compressedResponseWriter
                      s Scenario.world0 Scenario.unmatched))
          = Http.Error "Unauthorized" StatusUnauthorized
       /\ sent_status (Http.Error "Unauthorized" StatusUnauthorized)
          = Some 401.
Proof.
  split; [reflexivity |].
  eexists. split; [vm_compute; reflexivity |].
  split; [vm_compute; reflexivity | reflexivity].
Qed.

End RouterFacts.

(* ===================================================================== *)
(** * JWT validation                                                      *)
(* ===================================================================== *)

Module AuthFacts.
Import Auth.

Lemma GetSigningMethod_HMAC (alg a : string) :
  GetSigningMethod alg = Some (SigningMethodHMAC a) <->
  a = alg /\ In alg ["HS256"; "HS384"; "HS512"].
Proof.
  unfold GetSigningMethod.
  destruct (existsb (String.eqb alg) ["HS256"; "HS384"; "HS512"]) eqn:E.
  - apply existsb_exists in E as [x [Hin Hx]]. apply String.eqb_eq in Hx.
    subst x. split.
    + intros H. injection H as <-. auto.
    + intros [-> _]. reflexivity.
  - split.
    + intros H. repeat (match type of H with
                        | (if ?b then _ else _) = _ => destruct b
                        end; try discriminate).
    + intros [_ Hin]. exfalso.
      assert (existsb (String.eqb alg) ["HS256"; "HS384"; "HS512"] = true).
      { apply existsb_exists. exists alg. split; [exact Hin |].
        apply String.eqb_refl. }
      congruence.
Qed.

Section Validation.

Variable hmac : string -> string -> string -> string.
Variable parse : string -> TokenString.

Lemma validateToken_accepted (am : AuthConfig) (now : Z)
      (tokenString : TokenString) (claims : Claims) :
  validateToken hmac am now tokenString = Ok claims
  <-> accepted hmac am now tokenString claims.
Proof.
  unfold accepted. split.
  - intros H. unfold validateToken in H.
    destruct tokenString as [| [alg |] c signingInput signature];
      try discriminate.
    destruct (GetSigningMethod alg) as [method |] eqn:Hm; [| discriminate].
    destruct method as [a | | | | |]; simpl in H; try discriminate.
    apply GetSigningMethod_HMAC in Hm as [-> Hin].
    destruct (String.eqb_spec signature (hmac alg (JWTSecret am) signingInput))
      as [Hsig | Hsig]; simpl in H; [| discriminate].
    destruct (Validate c now) eqn:Hv; simpl in H; [| discriminate].
    destruct (negb (String.eqb (JWTIssuer am) "")
              && negb (String.eqb (Issuer c) (JWTIssuer am))) eqn:Hi;
      [discriminate |].
    destruct (match ExpiresAt c with
              | Some exp => exp <? now | None => false end) eqn:He;
      [discriminate |].
    injection H as <-. exists alg, signingInput, signature.
    unfold Validate in Hv. apply andb_true_iff in Hv as [Hexp Hnbf].
    split; [reflexivity |]. split; [exact Hin |]. split; [exact Hsig |].
    split; [| split].
    + destruct (ExpiresAt c); [apply Z.ltb_lt; exact Hexp | exact I].
    + destruct (NotBefore c); [| exact I].
      apply negb_true_iff, Z.ltb_ge in Hnbf. exact Hnbf.
    + apply andb_false_iff in Hi as [Hi | Hi]; apply negb_false_iff in Hi;
        apply String.eqb_eq in Hi; auto.
  - intros [alg [signingInput [signature [-> [Hin [-> [Hexp [Hnbf Hiss]]]]]]]].
    unfold validateToken.
    assert (Hm : GetSigningMethod alg = Some (SigningMethodHMAC alg)).
    { apply GetSigningMethod_HMAC. auto. }
    rewrite Hm. simpl. rewrite String.eqb_refl. simpl.
    unfold Validate.
    assert (Hv : (match ExpiresAt claims with
                  | Some exp => now <? exp | None => true end
                  && match NotBefore claims with
                     | Some nbf => negb (now <? nbf) | None => true end)
                 = true).
    { apply andb_true_iff. split.
      - destruct (ExpiresAt claims); [apply Z.ltb_lt; exact Hexp | reflexivity].
      - destruct (NotBefore claims); [| reflexivity].
        apply negb_true_iff, Z.ltb_ge. exact Hnbf. }
    rewrite Hv. simpl.
    assert (Hi : (negb (String.eqb (JWTIssuer am) "")
                  && negb (String.eqb (Issuer claims) (JWTIssuer am)))
                 = false).
    { destruct Hiss as [-> | ->]; [reflexivity |].
      rewrite String.eqb_refl. apply andb_false_r. }
    rewrite Hi.
    destruct (ExpiresAt claims) as [exp |]; [| reflexivity].
    destruct (Z.ltb_spec exp now); [lia | reflexivity].
Qed.

(** C6 (as amended). A token passes [validateToken] exactly when its
    [alg] is one of the HMAC family, HS256, HS384 or HS512, its signature
    is the keyed hash of that method under the configured secret, [exp],
    when present, is after the current time, [nbf], when present, is not,
    and its issuer is the configured one when an issuer is configured.
    Every other token, so one with [alg] none or RS256, a bad signature,
    an expired [exp] or another issuer, is rejected.  On a path that is
    not skipped the middleware either passes the request on, and then a
    token was found and passed, or answers 401. *)
Theorem C6_validateToken_HMAC_family :
  forall (am : AuthConfig) (now : Z) (tokenString : TokenString)
         (claims : Claims) (r : Request),
    (validateToken hmac am now tokenString = Ok claims
     <-> accepted hmac am now tokenString claims)
    /\ match Handle hmac parse am now r with
       | inl ops => ops = Http.Error "Unauthorized" StatusUnauthorized
       | inr _ =>
           existsb (fun skipPath => HasPrefix (Path r) skipPath) (SkipPaths am)
           = true
           \/ exists token passed,
                extractToken am r = Some token
                /\ validateToken hmac am now (parse token) = Ok passed
       end.
Proof.
  intros am now tokenString claims r.
  split; [apply validateToken_accepted |].
  unfold Handle.
  destruct (existsb _ (SkipPaths am)); [left; reflexivity |].
  destruct (extractToken am r) as [token |]; [| reflexivity].
  destruct (validateToken hmac am now (parse token)) as [passed | |] eqn:E;
    [| reflexivity | reflexivity].
  right. exists token, passed. split; [reflexivity | exact E].
Qed.

End Validation.

(** C6 (counterexample). A token whose header says HS384, signed with
    the configured secret by that method, passes validation, and the
    request that carries it goes on to the next handler with the user
    headers set; the same claims under [alg] none are rejected. *)
Lemma C6_HS384_token_is_accepted :
  validateToken Scenario.hmac Scenario.authMiddleware Scenario.beforeExpiry
                (Scenario.signedToken "HS384" "s3cret")
  = Ok Scenario.aliceClaims
  /\ (exists r',
        Handle Scenario.hmac Scenario.parse Scenario.authMiddleware
               Scenario.beforeExpiry (Scenario.withBearer "hs384-token")
        = inr r'
        /\ Header_Get (Header r') "X-User-ID" = "alice")
  /\ validateToken Scenario.hmac Scenario.authMiddleware Scenario.beforeExpiry
                   (Scenario.signedToken "none" "s3cret")
     = Err "unexpected signing method".
Proof.
  split; [vm_compute; reflexivity |].
  split; [| vm_compute; reflexivity].
  eexists. split; vm_compute; reflexivity.
Qed.

End AuthFacts.

(* ===================================================================== *)
(** * The certificate resolver                                            *)
(* ===================================================================== *)

Module TLSFacts.
Import TLS.

Lemma find_snoc {A} (f : A -> bool) (l : list A) (x : A) :
  List.find f (l ++ [x])
  = match List.find f l with
    | Some y => Some y
    | None => if f x then Some x else None
    end.
Proof.
  induction l as [| y l IH]; simpl; [reflexivity |].
  destruct (f y); [reflexivity | exact IH].
Qed.

(** The store after the hosts of one entry were written. *)
Lemma storeHosts_lookup (cert : Certificate) (hosts : list string)
      (store : gmap string Certificate) (host : string) :
  storeHosts cert hosts store !! host
  = if existsb (String.eqb host) hosts then Some cert else store !! host.
Proof.
  unfold storeHosts. revert store.
  induction hosts as [| h hosts IH]; intros store; simpl; [reflexivity |].
  rewrite IH. destruct (existsb (String.eqb host) hosts).
  - rewrite orb_true_r. reflexivity.
  - rewrite orb_false_r. destruct (String.eqb_spec host h) as [-> | Hne].
    + apply lookup_insert_eq.
    + apply lookup_insert_ne. congruence.
Qed.

Section Loading.

Variable readKeyPair : CertificateConfig -> option Certificate.

(** After a load without error, a host is stored with the key pair of
    the last entry that names it. *)
Lemma loadManualCertificates_lookup (entries : list CertificateConfig) :
  forall (store store' : gmap string Certificate) (host : string),
    loadManualCertificates readKeyPair entries store = Some store' ->
    store' !! host
    = match lastEntryFor entries host with
      | Some entry => readKeyPair entry
      | None => store !! host
      end.
Proof.
  unfold lastEntryFor.
  induction entries as [| entry rest IH]; intros store store' host H;
    simpl in H.
  - injection H as <-. reflexivity.
  - unfold loadCertificate in H.
    destruct (readKeyPair entry) as [cert |] eqn:Hread; [| discriminate].
    rewrite (IH _ _ host H). simpl rev. rewrite find_snoc.
    destruct (List.find _ (rev rest)); [reflexivity |].
    rewrite storeHosts_lookup.
    destruct (existsb (String.eqb host) (Hosts entry));
      [symmetry; exact Hread | reflexivity].
Qed.

Lemma firstOfRange_stored (store : gmap string Certificate) (choice : nat) :
  match firstOfRange store choice with
  | Some cert => exists host, store !! host = Some cert
  | None => store = ∅
  end.
Proof.
  unfold firstOfRange.
  destruct (map_to_list store) as [| e entries] eqn:E.
  - simpl. apply map_to_list_empty_iff. exact E.
  - assert (Hlt : (choice mod List.length (e :: entries)
                   < List.length (e :: entries))%nat).
    { apply Nat.mod_upper_bound. simpl. lia. }
    apply lookup_lt_is_Some_2 in Hlt as [[host cert] Hlk].
    rewrite Hlk. simpl. exists host.
    apply elem_of_map_to_list. rewrite E.
    eapply list_elem_of_lookup_2. exact Hlk.
Qed.

(** C7 (as amended). For a manager that [NewManager] built from an
    enabled configuration, and every server name of a client hello: the
    name is cut at its first colon and looked up as it is, without any
    change of case.  If the cut name is not empty and some certificate
    entry names it in its [hosts] list, the resolver returns the key
    pair of the last such entry in the configuration, which is the only
    one when the entries do not share hosts; if no entry names it, no
    manual certificate is returned.  If the cut name is empty, the
    resolver returns the key pair of one of the entries, and the error
    only when the store is empty. *)
Theorem C7_GetCertificate_manual_store :
  forall (c : TLSConfig) (m : Manager) (choice : nat) (ServerName : string),
    NewManager readKeyPair c = Some m ->
    Enabled c = true ->
    if String.eqb (requestedHost ServerName) "" then
      match GetCertificate m choice ServerName with
      | Found cert =>
          exists entry, In entry (Certificates c)
                        /\ readKeyPair entry = Some cert
      | NoCertificate _ => certificates m = ∅
      | AutoCertManager _ => False
      end
    else
      match lastEntryFor (Certificates c) (requestedHost ServerName) with
      | Some entry =>
          In entry (Certificates c)
          /\ In (requestedHost ServerName) (Hosts entry)
          /\ exists cert, readKeyPair entry = Some cert
                          /\ GetCertificate m choice ServerName = Found cert
      | None =>
          forall cert, GetCertificate m choice ServerName <> Found cert
      end.
Proof.
  intros c m choice ServerName Hnew Hen.
  unfold NewManager in Hnew. rewrite Hen in Hnew. simpl in Hnew.
  destruct (loadManualCertificates readKeyPair (Certificates c) ∅)
    as [store |] eqn:Hload; [| discriminate].
  injection Hnew as <-.
  pose proof (fun host => loadManualCertificates_lookup
                            (Certificates c) ∅ store host Hload) as Hlk.
  unfold GetCertificate. simpl.
  destruct (String.eqb (requestedHost ServerName) "") eqn:Hempty.
  - pose proof (firstOfRange_stored store choice) as Hfirst.
    destruct (firstOfRange store choice) as [cert |]; [| exact Hfirst].
    destruct Hfirst as [host Hhost]. rewrite Hlk in Hhost.
    unfold lastEntryFor in Hhost.
    destruct (List.find _ (rev (Certificates c))) as [entry |] eqn:Hfind.
    + exists entry. split; [| exact Hhost].
      apply find_some in Hfind as [Hin _]. apply in_rev. exact Hin.
    + rewrite lookup_empty in Hhost. discriminate.
  - rewrite Hlk. unfold lastEntryFor.
    destruct (List.find _ (rev (Certificates c))) as [entry |] eqn:Hfind.
    + apply find_some in Hfind as [Hin Hhosts].
      split; [apply in_rev; exact Hin |]. split.
      * apply existsb_exists in Hhosts as [h [Hh E]].
        apply String.eqb_eq in E. subst h. exact Hh.
      * destruct (readKeyPair entry) as [cert |] eqn:Hread.
        -- exists cert. split; reflexivity.
        -- exfalso.
           (* every entry was read, or the load had failed *)
           clear -Hload Hin Hread. rewrite <- in_rev in Hin.
           revert Hload. generalize (∅ : gmap string Certificate).
           induction (Certificates c) as [| e rest IH]; intros st Hload;
             [contradiction |].
           simpl in Hload. unfold loadCertificate in Hload.
           destruct (readKeyPair e) as [ce |] eqn:He; [| discriminate].
           destruct Hin as [-> | Hin]; [congruence |].
           eapply IH; eassumption.
    + rewrite lookup_empty. intros cert.
      destruct (AutoCert_Enabled (AutoCert c) && AutoCert_Enabled (AutoCert c));
        discriminate.
Qed.

End Loading.

(** The handshake of the specification: two manual certificates, and
    the server name [a.example:8443] resolves to the first. *)
Lemma C7_GetCertificate_witness :
  TLS.NewManager Scenario.readKeyPair Scenario.tlsConfig
  = Some Scenario.tlsManager
  /\ Enabled Scenario.tlsConfig = true
  /\ In (Scenario.certEntry "a.example") (Certificates Scenario.tlsConfig)
  /\ In (requestedHost "a.example:8443")
        (Hosts (Scenario.certEntry "a.example"))
  /\ exists cert,
       Scenario.readKeyPair (Scenario.certEntry "a.example") = Some cert
       /\ GetCertificate Scenario.tlsManager 0 "a.example:8443" = Found cert.
Proof.
  assert (H1 : TLS.NewManager Scenario.readKeyPair Scenario.tlsConfig
               = Some Scenario.tlsManager) by reflexivity.
  split; [exact H1 |]. split; [reflexivity |].
  exact (C7_GetCertificate_manual_store Scenario.readKeyPair
           Scenario.tlsConfig Scenario.tlsManager 0%nat "a.example:8443"
           H1 eq_refl).
Defined.

(** C7 (counterexample). The store has a certificate for [a.example],
    which is the normalised form of the server name [A.Example:8443];
    the resolver looks up [A.Example] and finds none. *)
Lemma C7_mixed_case_server_name_not_resolved :
  normalizedSNI "A.Example:8443" = "a.example"
  /\ requestedHost "A.Example:8443" = "A.Example"
  /\ certificates Scenario.tlsManager !! "a.example"
     = Scenario.readKeyPair (Scenario.certEntry "a.example")
  /\ GetCertificate Scenario.tlsManager 0 "A.Example:8443"
     = NoCertificate "no certificate found for host: A.Example".
Proof. vm_compute. repeat split; reflexivity. Qed.

End TLSFacts.

(* ===================================================================== *)
(** * The retry handler                                                   *)
(* ===================================================================== *)

Module RetryFacts.
Import Proxy.







Section Retry.

Context {S : Type}.
Variable Sleep : Z -> S -> S.
Variable handler : @Handler S.
Variable retryPolicy : config.RetryPolicy.




End Retry.


(** A handler that relays a 103 before its 503.  The wrapper captures
    the 103, so there is no retry, and it drops the 503: the response
    that is sent has the status 200 with the body of the error. *)
Lemma informational_status_hides_the_answer :
  let '(out, _, _, calls) :=
    retryHandler_ServeHTTP Scenario.noSleep Scenario.earlyHints
                           Scenario.retryOnce 0%nat Scenario.direct in
  List.length calls = 1%nat
  /\ Forall (fun ops => captured ops = 103
                        /\ sent_status ops = Some 503) calls
  /\ out = [SetHeader "Link" "</style.css>; rel=preload"; WriteHeader 103;
            Write "unavailable"]
  /\ sent_status out = Some 200
  /\ sent_body out = "unavailable".
Proof. vm_compute. repeat split; repeat constructor. Qed.

End RetryFacts.

(* ===================================================================== *)
(** * The middleware of a route                                           *)
(* ===================================================================== *)

Module RouteMiddlewareFacts.
Import Proxy.








End RouteMiddlewareFacts.

(* ===================================================================== *)
(** * Byte strings                                                        *)
(* ===================================================================== *)

Module StringFacts.

Lemma match_bracket {A} (a : ascii) (r : string) (x y : A) :
  Ascii.eqb a "[" = false ->
  match String a r with String "[" _ => x | _ => y end = y.
Proof.
  intros H. destruct a as [[] [] [] [] [] [] [] []]; try reflexivity.
  discriminate H.
Qed.

Lemma lacks_cons c a s : lacks c (String a s) = negb (Ascii.eqb a c) && lacks c s.
Proof. reflexivity. Qed.

Lemma lacks_app c a b : lacks c (a ++ b) = lacks c a && lacks c b.
Proof.
  induction a as [| x a IH]; [reflexivity |].
  change (String x a ++ b) with (String x (a ++ b)).
  rewrite !lacks_cons, IH. apply andb_assoc.
Qed.

Lemma prefix_byte c a s : String.prefix (String c "") (String a s) = Ascii.eqb a c.
Proof.
  cbn [String.prefix]. destruct (ascii_dec c a) as [-> | Hne].
  - rewrite Ascii.eqb_refl. destruct s; reflexivity.
  - symmetry. apply Ascii.eqb_neq. congruence.
Qed.

Lemma IndexByte_lacks s c : lacks c s = true -> IndexByte s c = -1.
Proof.
  unfold IndexByte. induction s as [| a s IH]; intros H.
  - reflexivity.
  - rewrite lacks_cons in H. apply andb_prop in H as [Ha Hs].
    cbn [Index]. rewrite prefix_byte.
    apply negb_true_iff in Ha. rewrite Ha, (IH Hs). reflexivity.
Qed.

Lemma LastIndexByte_lacks s c : lacks c s = true -> LastIndexByte s c = -1.
Proof.
  induction s as [| a s IH]; intros H; [reflexivity |].
  rewrite lacks_cons in H. apply andb_prop in H as [Ha Hs].
  cbn [LastIndexByte]. rewrite (IH Hs). cbn.
  apply negb_true_iff in Ha. rewrite Ha. reflexivity.
Qed.

Lemma LastIndexByte_app a b c :
  lacks c b = true ->
  LastIndexByte (a ++ String c b) c = Z.of_nat (String.length a).
Proof.
  intros Hb. induction a as [| x a IH].
  - change ("" ++ String c b) with (String c b). cbn [LastIndexByte].
    rewrite (LastIndexByte_lacks _ _ Hb). cbn. rewrite Ascii.eqb_refl. reflexivity.
  - change (String x a ++ String c b) with (String x (a ++ String c b)).
    cbn [LastIndexByte]. rewrite IH.
    destruct (0 <=? Z.of_nat (String.length a)) eqn:E; [| apply Z.leb_gt in E; lia].
    cbn [String.length]. lia.
Qed.

Lemma slice_to_app a b : slice_to (a ++ b) (String.length a) = a.
Proof.
  unfold slice_to. induction a as [| x a IH].
  - cbn. destruct b; reflexivity.
  - change (String x a ++ b) with (String x (a ++ b)).
    cbn [String.length substring]. rewrite IH. reflexivity.
Qed.

Lemma substring_all s : substring 0 (String.length s) s = s.
Proof. induction s as [| a s IH]; [reflexivity |]. cbn [String.length substring]. rewrite IH. reflexivity. Qed.

Lemma length_app a b : String.length (a ++ b) = (String.length a + String.length b)%nat.
Proof. induction a as [| x a IH]; [reflexivity |].
  change (String x a ++ b) with (String x (a ++ b)). cbn [String.length]. rewrite IH. reflexivity. Qed.

Lemma slice_from_app a b : slice_from (a ++ b) (String.length a) = b.
Proof.
  unfold slice_from. rewrite length_app.
  replace (String.length a + String.length b - String.length a)%nat with (String.length b) by lia.
  induction a as [| x a IH].
  - cbn [String.length]. change ("" ++ b) with b. apply substring_all.
  - change (String x a ++ b) with (String x (a ++ b)).
    cbn [String.length substring]. exact IH.
Qed.

Lemma slice_from_0 s : slice_from s 0 = s.
Proof. unfold slice_from. rewrite Nat.sub_0_r. apply substring_all. Qed.

Lemma SplitHostPort_join host port :
  plain host = true -> plain port = true ->
  SplitHostPort (host ++ ":" ++ port) = Some (host, port).
Proof.
  unfold plain. intros Hh Hp.
  apply andb_prop in Hh as [Hh Hh3]. apply andb_prop in Hh as [Hh1 Hh2].
  apply andb_prop in Hp as [Hp Hp3]. apply andb_prop in Hp as [Hp1 Hp2].
  change (":" ++ port) with (String ":" port).
  unfold SplitHostPort.
  rewrite (LastIndexByte_app host port ":" Hp1).
  destruct (Z.of_nat (String.length host) <? 0) eqn:E; [apply Z.ltb_lt in E; lia |].
  rewrite Nat2Z.id.
  assert (Hm : forall (x y : option (string * string)),
             match host ++ String ":" port with String "[" _ => x | _ => y end = y).
  { intros x y. destruct host as [| a h].
    - reflexivity.
    - change (String a h ++ String ":" port) with (String a (h ++ String ":" port)).
      rewrite lacks_cons in Hh2.
      apply andb_prop in Hh2 as [Ha _]. apply negb_true_iff in Ha.
      exact (match_bracket a (h ++ String ":" port) x y Ha). }
  rewrite Hm. rewrite slice_to_app.
  rewrite (IndexByte_lacks host ":" Hh1). cbn [Z.leb Z.compare].
  rewrite slice_from_0.
  assert (Hb1 : lacks "[" (host ++ String ":" port) = true).
  { rewrite lacks_app, lacks_cons, Hh2, Hp2. reflexivity. }
  assert (Hb2 : lacks "]" (host ++ String ":" port) = true).
  { rewrite lacks_app, lacks_cons, Hh3, Hp3. reflexivity. }
  rewrite (IndexByte_lacks _ _ Hb1), (IndexByte_lacks _ _ Hb2).
  cbn [Z.leb Z.compare].
  replace (host ++ String ":" port) with ((host ++ ":") ++ port).
  2:{ clear. induction host as [| x a IH]; [reflexivity |].
      change (String x a ++ ":") with (String x (a ++ ":")).
      change (String x (a ++ ":") ++ port) with (String x ((a ++ ":") ++ port)).
      rewrite IH. reflexivity. }
  replace (String.length host + 1)%nat with (String.length (host ++ ":")).
  2:{ rewrite length_app. reflexivity. }
  rewrite slice_from_app. reflexivity.
Qed.

Lemma append_cons (x : ascii) (a b : string) :
  (String x a ++ b) = String x (a ++ b).
Proof. reflexivity. Qed.

Lemma prefix_app (p r : string) : String.prefix p (p ++ r) = true.
Proof.
  induction p as [| x p IH]; [destruct r; reflexivity |].
  rewrite append_cons. cbn [String.prefix].
  destruct (ascii_dec x x); [exact IH | congruence].
Qed.

Lemma TrimPrefix_app (p r : string) : TrimPrefix (p ++ r) p = r.
Proof.
  unfold TrimPrefix, HasPrefix. rewrite prefix_app. apply slice_from_app.
Qed.

Lemma append_assoc (a b c : string) : ((a ++ b) ++ c) = (a ++ (b ++ c)).
Proof.
  induction a as [| x a IH]; [reflexivity |].
  rewrite !append_cons, IH. reflexivity.
Qed.

Lemma append_nil_r (a : string) : (a ++ "") = a.
Proof. induction a as [| x a IH]; [reflexivity |]. rewrite append_cons, IH. reflexivity. Qed.

Lemma rev_cons_string (a : ascii) (cur : list ascii) :
  string_of_list_ascii (rev (a :: cur))
  = (string_of_list_ascii (rev cur) ++ String a "").
Proof.
  cbn [rev]. induction (rev cur) as [| y l IH]; [reflexivity |].
  cbn [app string_of_list_ascii]. rewrite IH. reflexivity.
Qed.

Lemma split_go_field (x : string) :
  lacks "," x = true ->
  forall cur : list ascii,
    split_go "," 0 cur x = [string_of_list_ascii (rev cur) ++ x]
    /\ forall more : string,
         split_go "," 0 cur (x ++ String "," more)
         = (string_of_list_ascii (rev cur) ++ x) :: split_go "," 0 [] more.
Proof.
  induction x as [| a x IH]; intros Hx cur.
  - split.
    + cbn [split_go]. rewrite append_nil_r. reflexivity.
    + intros more. change ("" ++ String "," more) with (String "," more).
      cbn [split_go]. rewrite prefix_byte, Ascii.eqb_refl.
      rewrite append_nil_r. reflexivity.
  - rewrite lacks_cons in Hx. apply andb_prop in Hx as [Ha Hx].
    apply negb_true_iff in Ha.
    destruct (IH Hx (a :: cur)) as [IH1 IH2].
    assert (E : (string_of_list_ascii (rev (a :: cur)) ++ x)
                = (string_of_list_ascii (rev cur) ++ String a x)).
    { rewrite rev_cons_string, append_assoc. reflexivity. }
    split.
    + cbn [split_go]. rewrite prefix_byte, Ha. rewrite IH1, E. reflexivity.
    + intros more. rewrite append_cons. cbn [split_go].
      rewrite prefix_byte, Ha. rewrite IH2, E. reflexivity.
Qed.

Lemma Split_concat (l : list string) :
  l <> [] -> Forall (fun x => lacks "," x = true) l ->
  Split (String.concat "," l) "," = l.
Proof.
  unfold Split. induction l as [| x l IH]; intros Hne Hall; [congruence |].
  inversion Hall as [| ? ? Hx Hl]; subst.
  destruct (split_go_field x Hx []) as [H1 H2].
  destruct l as [| y l].
  - cbn [String.concat]. rewrite H1. reflexivity.
  - change (String.concat "," (x :: y :: l))
      with (x ++ String "," (String.concat "," (y :: l))).
    rewrite H2. rewrite IH by (congruence || assumption). reflexivity.
Qed.

End StringFacts.

(* ===================================================================== *)
(** * Sequences of selections                                             *)
(* ===================================================================== *)

Module SelectionFacts.
Import LoadBalancer Dispatch.

Lemma int_add_succ (x : Z) : 0 <= x < int_max -> int_add x 1 = x + 1.
Proof.
  unfold int_add, wrap_int, int_max. intros H.
  rewrite Z.mod_small; lia.
Qed.

Lemma healthy_nonempty_len (targets : list Target) :
  healthyTargets targets <> [] ->
  (len targets =? 0) = false /\ (len (healthyTargets targets) =? 0) = false.
Proof.
  intros Hne. unfold len. split; apply Z.eqb_neq.
  - destruct targets; [exfalso; apply Hne; reflexivity | simpl; lia].
  - destruct (healthyTargets targets); [congruence | simpl; lia].
Qed.

(** One call of round robin with a counter that has not wrapped. *)
Lemma RoundRobin_step (c : Z) (targets : list Target) :
  0 <= c < int_max -> healthyTargets targets <> [] ->
  exists t,
    healthyTargets targets
      !! Z.to_nat (c mod len (healthyTargets targets)) = Some t
    /\ RoundRobin_SelectTarget c targets = (Ok t, c + 1).
Proof.
  intros Hc Hne. destruct (healthy_nonempty_len _ Hne) as [H1 H2].
  unfold RoundRobin_SelectTarget. rewrite H1, H2.
  apply Z.eqb_neq in H2.
  assert (Hk : 0 < len (healthyTargets targets)) by (unfold len in *; lia).
  rewrite Z.rem_mod_nonneg by lia.
  pose proof (Z.mod_pos_bound c _ Hk) as Hb.
  destruct (lookup_lt_is_Some_2 (healthyTargets targets)
              (Z.to_nat (c mod len (healthyTargets targets)))) as [t Ht].
  { unfold len in *. lia. }
  exists t. split; [exact Ht |].
  unfold index_at.
  destruct (c mod len (healthyTargets targets) <? 0) eqn:Hneg;
    [apply Z.ltb_lt in Hneg; lia |].
  rewrite Ht. rewrite int_add_succ by lia. reflexivity.
Qed.

Lemma selectEach_RoundRobin (targets : list Target) (reqs : list Request) :
  healthyTargets targets <> [] ->
  forall c, 0 <= c -> c + len reqs <= int_max ->
    snd (selectEach (RoundRobin c) targets reqs) = RoundRobin (c + len reqs)
    /\ List.length (fst (selectEach (RoundRobin c) targets reqs))
       = List.length reqs
    /\ forall (i : nat) (x : outcome Target),
         fst (selectEach (RoundRobin c) targets reqs) !! i = Some x ->
         exists t,
           x = Ok t
           /\ healthyTargets targets
                !! Z.to_nat ((c + Z.of_nat i)
                             mod len (healthyTargets targets)) = Some t.
Proof.
  intros Hne. induction reqs as [| req rest IH]; intros c Hc Hle.
  - simpl. unfold len. simpl. rewrite Z.add_0_r.
    split; [reflexivity |]. split; [reflexivity |].
    intros i x H. rewrite lookup_nil in H. discriminate.
  - assert (Hlen : len (req :: rest) = 1 + len rest).
    { unfold len. simpl List.length. lia. }
    assert (Hpos : 0 <= len rest) by (unfold len; lia).
    cbn [selectEach SelectTarget].
    destruct (RoundRobin_step c targets) as [t [Ht E]]; [lia | exact Hne |].
    rewrite E.
    destruct (IH (c + 1)) as [IH1 [IH2 IH3]]; [lia | lia |].
    destruct (selectEach (RoundRobin (c + 1)) targets rest)
      as [results lb2] eqn:Erest.
    simpl in *. split; [rewrite IH1; f_equal; lia |].
    split; [f_equal; exact IH2 |].
    intros i x H. destruct i as [| i].
    + simpl in H. injection H as <-. exists t. split; [reflexivity |].
      replace (c + Z.of_nat 0) with c by lia. exact Ht.
    + simpl in H. destruct (IH3 i x H) as [t' [-> Ht']].
      exists t'. split; [reflexivity |].
      replace (c + Z.of_nat (Datatypes.S i)) with (c + 1 + Z.of_nat i) by lia.
      exact Ht'.
Qed.

(** X1. Round robin rotates.  Over a fixed list of targets with at
    least one healthy target, and from a counter that does not wrap
    during the calls, the answer to the i-th of a sequence of requests
    is the healthy target at position (counter + i) modulo the number of
    healthy targets, and the counter has advanced by the number of
    requests.  From a counter that is a multiple of the number of
    healthy targets, as many requests as there are healthy targets get
    each healthy target once, in the order of the list. *)
Theorem RoundRobin_rotation :
  forall (targets : list Target) (reqs : list Request) (c : Z),
    healthyTargets targets <> [] ->
    0 <= c -> c + len reqs <= int_max ->
    let healthy := healthyTargets targets in
    let answers := fst (selectEach (RoundRobin c) targets reqs) in
    snd (selectEach (RoundRobin c) targets reqs) = RoundRobin (c + len reqs)
    /\ List.length answers = List.length reqs
    /\ (forall (i : nat) (x : outcome Target),
          answers !! i = Some x ->
          exists t, x = Ok t
                    /\ healthy !! Z.to_nat ((c + Z.of_nat i) mod len healthy)
                       = Some t)
    /\ (c mod len healthy = 0 -> List.length reqs = List.length healthy ->
        answers = map Ok healthy).
Proof.
  intros targets reqs c Hne Hc Hle healthy answers.
  destruct (selectEach_RoundRobin targets reqs Hne c Hc Hle)
    as [H1 [H2 H3]].
  split; [exact H1 |]. split; [exact H2 |]. split; [exact H3 |].
  intros Hmod Hsame. subst answers healthy.
  apply list_eq. intros i. rewrite list_lookup_fmap.
  destruct (fst (selectEach (RoundRobin c) targets reqs) !! i)
    as [x |] eqn:Hx.
  - destruct (H3 i x Hx) as [t [-> Ht]].
    apply lookup_lt_Some in Hx. rewrite H2, Hsame in Hx.
    assert (Hk : 0 < len (healthyTargets targets)) by (unfold len; lia).
    rewrite Z.add_mod in Ht by lia. rewrite Hmod, Z.add_0_l in Ht.
    rewrite Z.mod_mod in Ht by lia.
    rewrite Z.mod_small in Ht by (unfold len; lia).
    rewrite Nat2Z.id in Ht. rewrite Ht. reflexivity.
  - apply lookup_ge_None in Hx. rewrite H2, Hsame in Hx.
    rewrite (proj2 (lookup_ge_None (healthyTargets targets) i)) by lia.
    reflexivity.
Qed.

Lemma RoundRobin_rotation_witness :
  let a := {| URL := "a"; Weight := 1; IsHealthy := true; Connections := 0 |} in
  let b := {| URL := "b"; Weight := 1; IsHealthy := false; Connections := 0 |} in
  let c := {| URL := "c"; Weight := 1; IsHealthy := true; Connections := 0 |} in
  let reqs := [Examples.usersRequest; Examples.usersRequest] in
  healthyTargets [a; b; c] <> []
  /\ 0 <= 0
  /\ 0 + len reqs <= int_max
  /\ fst (selectEach (RoundRobin 0) [a; b; c] reqs) = [Ok a; Ok c]
  /\ snd (selectEach (RoundRobin 0) [a; b; c] reqs) = RoundRobin (0 + len reqs)
  /\ List.length (fst (selectEach (RoundRobin 0) [a; b; c] reqs))
     = List.length reqs.
Proof.
  intros a b c reqs.
  assert (Hne : healthyTargets [a; b; c] <> []) by (simpl; discriminate).
  assert (Hle : 0 + len reqs <= int_max) by (vm_compute; discriminate).
  split; [exact Hne |]. split; [lia |]. split; [exact Hle |].
  split; [reflexivity |].
  destruct (RoundRobin_rotation [a; b; c] reqs 0 Hne (Z.le_refl 0) Hle)
    as [H1 [H2 _]].
  split; [exact H1 | exact H2].
Defined.


(** The loop of least connections from a held target: it ends on the
    first target with the least count. *)
Lemma least_fold (l : list Target) :
  forall t, 0 <= Connections t ->
    Forall (fun u => 0 <= Connections u) l ->
    exists t',
      fold_left least_step l (Some t, Connections t)
      = (Some t', Connections t')
      /\ ((t' = t /\ Forall (fun u => Connections t <= Connections u) l)
          \/ exists l1 l2,
               l = (l1 ++ t' :: l2)%list
               /\ Connections t' < Connections t
               /\ Forall (fun u => Connections t' < Connections u) l1
               /\ Forall (fun u => Connections t' <= Connections u) l2).
Proof.
  induction l as [| x l IH]; intros t Ht Hall.
  - exists t. split; [reflexivity |]. left. split; [reflexivity | constructor].
  - inversion Hall as [| ? ? Hx Hl]; subst.
    cbn [fold_left]. unfold least_step at 2.
    destruct (Connections t =? -1) eqn:Hm; [apply Z.eqb_eq in Hm; lia |].
    cbn [orb].
    destruct (Connections x <? Connections t) eqn:Hlt.
    + apply Z.ltb_lt in Hlt.
      destruct (IH x Hx Hl) as [t' [E [[-> Hge] | [l1 [l2 [-> [Hlt' [H1 H2]]]]]]]].
      * exists x. split; [exact E |]. right. exists [], l.
        split; [reflexivity |]. split; [exact Hlt |].
        split; [constructor | exact Hge].
      * exists t'. split; [exact E |]. right. exists (x :: l1), l2.
        split; [reflexivity |]. split; [lia |].
        split; [constructor; [exact Hlt' | exact H1] | exact H2].
    + apply Z.ltb_ge in Hlt.
      destruct (IH t Ht Hl) as [t' [E [[-> Hge] | [l1 [l2 [-> [Hlt' [H1 H2]]]]]]]].
      * exists t. split; [exact E |]. left. split; [reflexivity |].
        constructor; [exact Hlt | exact Hge].
      * exists t'. split; [exact E |]. right. exists (x :: l1), l2.
        split; [reflexivity |]. split; [exact Hlt' |].
        split; [constructor; [lia | exact H1] | exact H2].
Qed.

(** X2. Least connections returns the first healthy target with the
    least count.  When no healthy target carries a negative count (the
    value -1 is what the loop starts from), the answer is a healthy
    target, every healthy target before it in the list has a strictly
    greater count and every healthy target after it has a count that is
    not smaller. *)
Theorem LeastConnections_first_minimum :
  forall (targets : list Target),
    healthyTargets targets <> [] ->
    Forall (fun u => 0 <= Connections u) (healthyTargets targets) ->
    exists t before after,
      LeastConnections_SelectTarget targets = Ok t
      /\ healthyTargets targets = (before ++ t :: after)%list
      /\ Forall (fun u => Connections t < Connections u) before
      /\ Forall (fun u => Connections t <= Connections u) after.
Proof.
  intros targets Hne Hall.
  destruct (healthy_nonempty_len _ Hne) as [H1 H2].
  unfold LeastConnections_SelectTarget. rewrite H1, H2.
  destruct (healthyTargets targets) as [| x rest] eqn:Eh; [congruence |].
  inversion Hall as [| ? ? Hx Hrest]; subst.
  unfold least_loop. cbn [fold_left].
  change (least_step (None, -1) x) with (Some x, Connections x).
  destruct (least_fold rest x Hx Hrest)
    as [t' [E [[-> Hge] | [l1 [l2 [-> [Hlt [Hl1 Hl2]]]]]]]]; rewrite E; cbn [fst].
  - exists x, [], rest. split; [reflexivity |]. split; [reflexivity |].
    split; [constructor | exact Hge].
  - exists t', (x :: l1), l2. split; [reflexivity |]. split; [reflexivity |].
    split; [constructor; [exact Hlt | exact Hl1] | exact Hl2].
Qed.

Lemma LeastConnections_first_minimum_witness :
  let a := {| URL := "a"; Weight := 1; IsHealthy := true; Connections := 2 |} in
  let b := {| URL := "b"; Weight := 1; IsHealthy := false; Connections := 0 |} in
  let c := {| URL := "c"; Weight := 1; IsHealthy := true; Connections := 1 |} in
  let d := {| URL := "d"; Weight := 1; IsHealthy := true; Connections := 1 |} in
  healthyTargets [a; b; c; d] <> []
  /\ Forall (fun u => 0 <= Connections u) (healthyTargets [a; b; c; d])
  /\ LeastConnections_SelectTarget [a; b; c; d] = Ok c
  /\ exists t before after,
       LeastConnections_SelectTarget [a; b; c; d] = Ok t
       /\ healthyTargets [a; b; c; d] = (before ++ t :: after)%list
       /\ Forall (fun u => Connections t < Connections u) before
       /\ Forall (fun u => Connections t <= Connections u) after.
Proof.
  intros a b c d.
  assert (Hne : healthyTargets [a; b; c; d] <> []) by (simpl; discriminate).
  assert (Hall : Forall (fun u => 0 <= Connections u)
                        (healthyTargets [a; b; c; d])).
  { simpl. repeat constructor; simpl; lia. }
  split; [exact Hne |]. split; [exact Hall |]. split; [reflexivity |].
  exact (LeastConnections_first_minimum [a; b; c; d] Hne Hall).
Defined.

(** X3. The count of least connections is acquired and released.  For
    every target and every delta the new count is not negative, also
    when the addition wraps.  Counting a request and then releasing it
    gives the target back as it was, and a release on a count of zero
    stays at zero.  Round robin and IP hash leave the target as it is. *)
Theorem UpdateTarget_acquire_release :
  forall (t : Target) (delta : Z),
    0 <= Connections (UpdateTarget LeastConnections t delta)
    /\ (0 <= Connections t < int_max ->
        UpdateTarget LeastConnections (UpdateTarget LeastConnections t 1) (-1)
        = t)
    /\ (Connections t = 0 ->
        UpdateTarget LeastConnections t (-1) = t)
    /\ (forall current, UpdateTarget (RoundRobin current) t delta = t)
    /\ UpdateTarget IPHash t delta = t.
Proof.
  intros [url weight healthy c] delta. cbn [UpdateTarget Connections].
  split.
  { destruct (int_add c delta <? 0) eqn:E; [lia | apply Z.ltb_ge in E; lia]. }
  split.
  { intros Hc. rewrite int_add_succ by exact Hc.
    destruct (c + 1 <? 0) eqn:E; [apply Z.ltb_lt in E; lia |].
    cbn [URL Weight IsHealthy Connections].
    assert (Hback : int_add (c + 1) (-1) = c).
    { unfold int_add, wrap_int, int_max in *. rewrite Z.mod_small; lia. }
    rewrite Hback.
    destruct (c <? 0) eqn:E'; [apply Z.ltb_lt in E'; lia | reflexivity]. }
  split.
  { intros ->.
    assert (Hm : int_add 0 (-1) = -1).
    { unfold int_add, wrap_int. reflexivity. }
    rewrite Hm. reflexivity. }
  split; [intros current |]; reflexivity.
Qed.


Lemma IPHash_getClientIP_peer host port r :
  plain host = true -> plain port = true -> fromPeer host port r ->
  IPHash_getClientIP r = host.
Proof.
  intros Hh Hp [Hra [Hreal Hfwd]]. unfold IPHash_getClientIP.
  rewrite Hreal, Hfwd, Hra. cbn [String.eqb negb].
  rewrite (StringFacts.SplitHostPort_join host port Hh Hp). reflexivity.
Qed.

(** X4. IP hash keeps a client on one target.  Two requests that reach
    the proxy from the same host, whatever their source ports, and carry
    no proxy headers are answered alike by the IP-hash strategy over the
    same targets: the key that is hashed is the host without the port.
    So are two requests with the same X-Real-IP header, whatever their
    peer addresses and other headers. *)
Theorem IPHash_peer_affinity :
  forall (targets : list Target) (r1 r2 : Request) (host p1 p2 : string),
    plain host = true -> plain p1 = true -> plain p2 = true ->
    fromPeer host p1 r1 -> fromPeer host p2 r2 ->
    IPHash_getClientIP r1 = host
    /\ SelectTarget IPHash targets r1 = SelectTarget IPHash targets r2
    /\ (forall r3 r4 : Request,
          Header_Get (Header r3) "X-Real-IP" <> "" ->
          Header_Get (Header r3) "X-Real-IP"
          = Header_Get (Header r4) "X-Real-IP" ->
          SelectTarget IPHash targets r3 = SelectTarget IPHash targets r4).
Proof.
  intros targets r1 r2 host p1 p2 Hh Hp1 Hp2 H1 H2.
  pose proof (IPHash_getClientIP_peer host p1 r1 Hh Hp1 H1) as E1.
  pose proof (IPHash_getClientIP_peer host p2 r2 Hh Hp2 H2) as E2.
  split; [exact E1 |]. split.
  - cbn [SelectTarget]. unfold IPHash_SelectTarget. rewrite E1, E2.
    reflexivity.
  - intros r3 r4 Hne Heq. cbn [SelectTarget]. unfold IPHash_SelectTarget.
    assert (E : forall r, Header_Get (Header r) "X-Real-IP" <> "" ->
                          IPHash_getClientIP r
                          = Header_Get (Header r) "X-Real-IP").
    { intros r Hr. unfold IPHash_getClientIP.
      destruct (String.eqb (Header_Get (Header r) "X-Real-IP") "") eqn:Eb;
        [apply String.eqb_eq in Eb; contradiction | reflexivity]. }
    rewrite (E r3 Hne). rewrite (E r4) by (rewrite <- Heq; exact Hne).
    rewrite Heq. reflexivity.
Qed.

Lemma IPHash_peer_affinity_witness :
  let r1 := Scenario.direct in
  let r2 := Scenario.request "POST" "localhost" "/api/v1" [] "10.0.0.1:40000" in
  let targets :=
    [ {| URL := "http://localhost:3001"; Weight := 1; IsHealthy := true;
         Connections := 0 |};
      {| URL := "http://localhost:3002"; Weight := 1; IsHealthy := true;
         Connections := 0 |} ] in
  fromPeer "10.0.0.1" "51234" r1 /\ fromPeer "10.0.0.1" "40000" r2
  /\ IPHash_getClientIP r1 = "10.0.0.1"
  /\ SelectTarget IPHash targets r1 = SelectTarget IPHash targets r2.
Proof.
  intros r1 r2 targets.
  assert (H1 : fromPeer "10.0.0.1" "51234" r1) by (repeat split).
  assert (H2 : fromPeer "10.0.0.1" "40000" r2) by (repeat split).
  split; [exact H1 |]. split; [exact H2 |].
  destruct (IPHash_peer_affinity targets r1 r2 "10.0.0.1" "51234" "40000"
              eq_refl eq_refl eq_refl H1 H2) as [E [Hsame _]].
  split; [exact E | exact Hsame].
Defined.

End SelectionFacts.

(* ===================================================================== *)
(** * The loop of the health checker                                      *)
(* ===================================================================== *)

Module HealthLoopFacts.
Import Health HealthLoop.

Lemma performHealthChecks_lookup (c : checker) (interval timeout : Z)
      (ps : string -> probe) (now : Z) (url : string) :
  targets (performHealthChecks c interval timeout ps now) !! url
  = (fun _ => CheckTarget c url (defaultHealthConfig interval timeout)
                          (ps url) now) <$> targets c !! url.
Proof.
  unfold performHealthChecks. cbn [targets].
  rewrite map_lookup_imap. destruct (targets c !! url); reflexivity.
Qed.

Lemma run_cons (c : checker) (interval timeout : Z) (t : tick)
      (ticks : list tick) :
  run c interval timeout (t :: ticks)
  = run (performHealthChecks c interval timeout (probes t) (at_ t))
        interval timeout ticks.
Proof. reflexivity. Qed.

Lemma run_registered (interval timeout : Z) (ticks : list tick) (url : string) :
  forall c, is_Some (targets (run c interval timeout ticks) !! url)
            <-> is_Some (targets c !! url).
Proof.
  induction ticks as [| t ticks IH]; intros c; [reflexivity |].
  rewrite run_cons, IH, performHealthChecks_lookup.
  apply fmap_is_Some.
Qed.

(** X5. The loop of the checker neither registers nor drops a target:
    after any number of ticks the registered URLs are the ones that were
    registered before.  Registration has no caller in the package, so a
    checker that was just built and then started, enabled or not,
    reports every URL as healthy after any number of ticks, whatever the
    probes answer. *)
Theorem run_keeps_the_registry :
  forall (c : checker) (interval timeout : Z) (ticks : list tick)
         (url : string),
    (is_Some (targets (run c interval timeout ticks) !! url)
     <-> is_Some (targets c !! url))
    /\ (is_Some (GetAllHealth (run c interval timeout ticks) !! url)
        <-> is_Some (GetAllHealth c !! url))
    /\ forall enabled : bool,
         IsHealthy (Start (NewChecker enabled) interval timeout ticks) url
         = true.
Proof.
  intros c interval timeout ticks url.
  pose proof (run_registered interval timeout ticks url) as Hreg.
  split; [apply Hreg |]. split.
  - unfold GetAllHealth. rewrite !lookup_fmap, !fmap_is_Some. apply Hreg.
  - intros enabled. unfold Start, IsHealthy.
    assert (Hnone : forall c0 : checker,
               targets c0 !! url = None ->
               targets (run c0 interval timeout ticks) !! url = None).
    { intros c0 H0. apply eq_None_not_Some. rewrite Hreg, H0.
      apply is_Some_None. }
    destruct (negb (cfg_Enabled (NewChecker enabled))).
    + cbn. rewrite lookup_empty. reflexivity.
    + rewrite Hnone; [reflexivity |]. cbn. apply lookup_empty.
Qed.

(** One tick on a registered target: the record moves by one step of the
    state machine under the thresholds 3 and 2. *)
Lemma performHealthChecks_step (c : checker) (interval timeout : Z)
      (ps : string -> probe) (now : Z) (url : string) (h : TargetHealth) :
  targets c !! url = Some h ->
  exists h',
    targets (performHealthChecks c interval timeout ps now) !! url = Some h'
    /\ (isHealthy (ps url) = false ->
        ConsecutiveFailures h' = int_add (ConsecutiveFailures h) 1
        /\ ConsecutiveSuccesses h' = 0
        /\ Status_ h' = if 3 <=? ConsecutiveFailures h'
                        then StatusUnhealthy else Status_ h)
    /\ (isHealthy (ps url) = true ->
        ConsecutiveSuccesses h' = int_add (ConsecutiveSuccesses h) 1
        /\ ConsecutiveFailures h' = 0
        /\ Status_ h' = if 2 <=? ConsecutiveSuccesses h'
                        then StatusHealthy else Status_ h).
Proof.
  intros Hlk. rewrite performHealthChecks_lookup, Hlk. cbn [fmap option_fmap option_map].
  eexists. split; [reflexivity |].
  unfold CheckTarget. cbn [defaultHealthConfig Enabled negb]. rewrite Hlk.
  destruct (ps url) as [msg | elapsed msg | elapsed code]; cbn [isHealthy].
  - split; [intros _ | discriminate]. cbn. auto.
  - split; [intros _ | discriminate]. cbn. auto.
  - destruct ((200 <=? code) && (code <? 300)); split;
      try discriminate; intros _; cbn; auto.
Qed.

Lemma int_add_one (x : Z) : 0 <= x < int_max -> int_add x 1 = x + 1.
Proof.
  unfold int_add, wrap_int, int_max. intros H.
  rewrite Z.mod_small; lia.
Qed.

Lemma run_failing (interval timeout : Z) (url : string) (ticks : list tick) :
  forall (c : checker) (h : TargetHealth),
    targets c !! url = Some h ->
    Forall (fun t => isHealthy (probes t url) = false) ticks ->
    0 <= ConsecutiveFailures h ->
    ConsecutiveFailures h + len ticks <= int_max ->
    exists h',
      targets (run c interval timeout ticks) !! url = Some h'
      /\ ConsecutiveFailures h' = ConsecutiveFailures h + len ticks
      /\ (ticks <> [] -> 3 <= ConsecutiveFailures h' ->
          Status_ h' = StatusUnhealthy).
Proof.
  induction ticks as [| t ticks IH]; intros c h Hlk Hall Hpos Hmax.
  - exists h. split; [exact Hlk |]. split; [unfold len; simpl; lia |].
    intros Hne. congruence.
  - inversion Hall as [| ? ? Ht Hrest]; subst.
    assert (Hlen : len (t :: ticks) = 1 + len ticks).
    { unfold len. simpl List.length. lia. }
    assert (Hl0 : 0 <= len ticks) by (unfold len; lia).
    destruct (performHealthChecks_step c interval timeout (probes t) (at_ t)
                url h Hlk) as [h1 [Hlk1 [Hfail _]]].
    destruct (Hfail Ht) as [Hcf [_ Hst]].
    rewrite int_add_one in Hcf by lia.
    destruct (IH _ h1 Hlk1 Hrest) as [h' [Hlk' [Hcf' Hst']]]; [lia | lia |].
    exists h'. rewrite run_cons. split; [exact Hlk' |].
    split; [lia |]. intros _ H3.
    destruct ticks as [| t2 ticks].
    + unfold run in Hlk'. cbn [fold_left] in Hlk'.
      rewrite Hlk1 in Hlk'. injection Hlk' as <-.
      rewrite Hst. destruct (3 <=? ConsecutiveFailures h1) eqn:E;
        [reflexivity | apply Z.leb_gt in E; lia].
    + apply Hst'; [discriminate | exact H3].
Qed.

Lemma run_succeeding (interval timeout : Z) (url : string) (ticks : list tick) :
  forall (c : checker) (h : TargetHealth),
    targets c !! url = Some h ->
    Forall (fun t => isHealthy (probes t url) = true) ticks ->
    0 <= ConsecutiveSuccesses h ->
    ConsecutiveSuccesses h + len ticks <= int_max ->
    exists h',
      targets (run c interval timeout ticks) !! url = Some h'
      /\ ConsecutiveSuccesses h' = ConsecutiveSuccesses h + len ticks
      /\ (ticks <> [] -> 2 <= ConsecutiveSuccesses h' ->
          Status_ h' = StatusHealthy).
Proof.
  induction ticks as [| t ticks IH]; intros c h Hlk Hall Hpos Hmax.
  - exists h. split; [exact Hlk |]. split; [unfold len; simpl; lia |].
    intros Hne. congruence.
  - inversion Hall as [| ? ? Ht Hrest]; subst.
    assert (Hlen : len (t :: ticks) = 1 + len ticks).
    { unfold len. simpl List.length. lia. }
    assert (Hl0 : 0 <= len ticks) by (unfold len; lia).
    destruct (performHealthChecks_step c interval timeout (probes t) (at_ t)
                url h Hlk) as [h1 [Hlk1 [_ Hok]]].
    destruct (Hok Ht) as [Hcs [_ Hst]].
    rewrite int_add_one in Hcs by lia.
    destruct (IH _ h1 Hlk1 Hrest) as [h' [Hlk' [Hcs' Hst']]]; [lia | lia |].
    exists h'. rewrite run_cons. split; [exact Hlk' |].
    split; [lia |]. intros _ H2.
    destruct ticks as [| t2 ticks].
    + unfold run in Hlk'. cbn [fold_left] in Hlk'.
      rewrite Hlk1 in Hlk'. injection Hlk' as <-.
      rewrite Hst. destruct (2 <=? ConsecutiveSuccesses h1) eqn:E;
        [reflexivity | apply Z.leb_gt in E; lia].
    + apply Hst'; [discriminate | exact H2].
Qed.

(** X6. The loop of the checker works with the thresholds 3 and 2,
    whatever the configuration of the upstream says.  A registered
    target whose probe fails on three or more ticks in a row is reported
    unhealthy after them, and one whose probe is answered 2xx on two or
    more ticks in a row is reported healthy, whatever its status was
    before (the counters of the record are not negative and do not
    wrap). *)
Theorem run_fixed_thresholds :
  forall (c : checker) (interval timeout : Z) (ticks : list tick)
         (url : string) (h : TargetHealth),
    targets c !! url = Some h ->
    0 <= ConsecutiveFailures h -> 0 <= ConsecutiveSuccesses h ->
    ConsecutiveFailures h + len ticks <= int_max ->
    ConsecutiveSuccesses h + len ticks <= int_max ->
    (Forall (fun t => isHealthy (probes t url) = false) ticks ->
     3 <= len ticks ->
     IsHealthy (run c interval timeout ticks) url = false
     /\ Status_ (GetHealth (run c interval timeout ticks) url)
        = StatusUnhealthy)
    /\ (Forall (fun t => isHealthy (probes t url) = true) ticks ->
        2 <= len ticks ->
        IsHealthy (run c interval timeout ticks) url = true
        /\ Status_ (GetHealth (run c interval timeout ticks) url)
           = StatusHealthy).
Proof.
  intros c interval timeout ticks url h Hlk Hf Hs Hfmax Hsmax. split.
  - intros Hall H3.
    destruct (run_failing interval timeout url ticks c h Hlk Hall Hf Hfmax)
      as [h' [Hlk' [Hcf Hst]]].
    assert (Hu : Status_ h' = StatusUnhealthy).
    { apply Hst; [| lia]. intros ->. unfold len in H3. simpl in H3. lia. }
    unfold IsHealthy, GetHealth. rewrite Hlk', Hu. split; reflexivity.
  - intros Hall H2.
    destruct (run_succeeding interval timeout url ticks c h Hlk Hall Hs Hsmax)
      as [h' [Hlk' [Hcs Hst]]].
    assert (Hu : Status_ h' = StatusHealthy).
    { apply Hst; [| lia]. intros ->. unfold len in H2. simpl in H2. lia. }
    unfold IsHealthy, GetHealth. rewrite Hlk', Hu. split; reflexivity.
Qed.

Lemma run_fixed_thresholds_witness :
  let url := "http://localhost:3001" in
  let c := registerTarget (NewChecker true) url in
  let down := {| probes := fun _ => TransportFailed 1 "refused"; at_ := 1 |} in
  let up := {| probes := fun _ => Responded 1 204; at_ := 2 |} in
  targets c !! url = Some (unknownTarget url)
  /\ IsHealthy (run c 30 5 [down; down; down]) url = false
  /\ IsHealthy (run c 30 5 [up; up]) url = true
  /\ IsHealthy (run c 30 5 [down; down; down; up]) url = false.
Proof.
  intros url c down up.
  assert (Hlk : targets c !! url = Some (unknownTarget url)) by reflexivity.
  split; [exact Hlk |].
  destruct (run_fixed_thresholds c 30 5 [down; down; down] url
              (unknownTarget url) Hlk)
    as [Hdown _]; [cbn; lia | cbn; lia | vm_compute; discriminate
                   | vm_compute; discriminate |].
  destruct (run_fixed_thresholds c 30 5 [up; up] url
              (unknownTarget url) Hlk)
    as [_ Hup]; [cbn; lia | cbn; lia | vm_compute; discriminate
                 | vm_compute; discriminate |].
  split; [apply Hdown; [repeat constructor | vm_compute; discriminate] |].
  split; [apply Hup; [repeat constructor | vm_compute; discriminate] |].
  reflexivity.
Defined.

(** X7. Registration never overwrites a record and never changes what
    [GetHealth] reports for any URL; for a URL that was not registered
    it turns the answer of [IsHealthy] from true to false.  After
    [unregisterTarget] the URL is reported healthy again and its history
    is gone: registering it anew gives the record of a target that was
    never checked.  Neither call touches the record of another URL. *)
Theorem register_unregister :
  forall (c : checker) (url other : string),
    (forall h, targets c !! url = Some h -> registerTarget c url = c)
    /\ GetHealth (registerTarget c url) other = GetHealth c other
    /\ (targets c !! url = None ->
        IsHealthy c url = true /\ IsHealthy (registerTarget c url) url = false)
    /\ IsHealthy (unregisterTarget c url) url = true
    /\ targets (registerTarget (unregisterTarget c url) url) !! url
       = Some (unknownTarget url)
    /\ (other <> url ->
        targets (registerTarget c url) !! other = targets c !! other
        /\ targets (unregisterTarget c url) !! other = targets c !! other).
Proof.
  intros c url other.
  split.
  { intros h Hlk. unfold registerTarget. rewrite Hlk. reflexivity. }
  split.
  { unfold GetHealth, registerTarget.
    destruct (targets c !! url) as [h |] eqn:Hlk; [reflexivity |].
    cbn [targets]. destruct (decide (other = url)) as [-> | Hne].
    - rewrite lookup_insert_eq, Hlk. reflexivity.
    - rewrite lookup_insert_ne by congruence. reflexivity. }
  split.
  { intros Hlk. unfold IsHealthy, registerTarget. rewrite Hlk.
    cbn [targets]. rewrite lookup_insert_eq. split; reflexivity. }
  split.
  { unfold IsHealthy, unregisterTarget. cbn [targets].
    rewrite lookup_delete_eq. reflexivity. }
  split.
  { unfold registerTarget, unregisterTarget. cbn [targets].
    rewrite lookup_delete_eq. cbn [targets]. apply lookup_insert_eq. }
  intros Hne. split.
  - unfold registerTarget. destruct (targets c !! url); [reflexivity |].
    cbn [targets]. apply lookup_insert_ne. congruence.
  - unfold unregisterTarget. cbn [targets]. apply lookup_delete_ne. congruence.
Qed.


Lemma updateTargetHealth_known (existing : TargetHealth) (isHealthy : bool)
      (responseTime : Z) (err : option string) (config : HealthCheckConfig)
      (now : Z) :
  Status_ existing <> StatusUnknown ->
  Status_ (updateTargetHealth existing isHealthy responseTime err config now)
  <> StatusUnknown.
Proof.
  intros H. unfold updateTargetHealth.
  destruct isHealthy; cbn [Status_];
    match goal with |- (if ?b then _ else _) <> _ => destruct b end;
    try exact H; discriminate.
Qed.

(** X8. The status of a target is damped.  From a record with both
    counters at zero, a history of probes in which no run of successes
    reaches the success threshold and no run of failures reaches the
    failure threshold leaves the status as it was: a target that flaps
    stays unknown, healthy or unhealthy.  And whatever the history and
    the thresholds, a target that has left the unknown status does not
    come back to it. *)
Theorem short_streaks_keep_the_status :
  forall (config : HealthCheckConfig) (h0 : TargetHealth)
         (obs : list observation),
    (ConsecutiveFailures h0 = 0 -> ConsecutiveSuccesses h0 = 0 ->
     Z.of_nat (List.length obs) <= int_max ->
     (forall n : nat,
         Z.of_nat (trailing true (map ok (firstn n obs)))
         < SuccessThreshold config
         /\ Z.of_nat (trailing false (map ok (firstn n obs)))
            < FailureThreshold config) ->
     Status_ (run_probes config h0 obs) = Status_ h0)
    /\ (Status_ h0 <> StatusUnknown ->
        Status_ (run_probes config h0 obs) <> StatusUnknown).
Proof.
  intros config h0 obs. split.
  - intros Hf Hs. induction obs as [| o l IH] using rev_ind; intros Hlen Hshort.
    + reflexivity.
    + rewrite length_app in Hlen. simpl in Hlen.
      assert (IH' : Status_ (run_probes config h0 l) = Status_ h0).
      { apply IH; [lia |]. intros n.
        destruct (le_lt_dec n (List.length l)) as [Hn | Hn].
        - specialize (Hshort n). rewrite firstn_app in Hshort.
          replace (n - List.length l)%nat with O in Hshort by lia.
          simpl in Hshort. rewrite app_nil_r in Hshort. exact Hshort.
        - specialize (Hshort (List.length l)). rewrite firstn_app in Hshort.
          rewrite Nat.sub_diag in Hshort. simpl in Hshort.
          rewrite app_nil_r in Hshort.
          rewrite firstn_all in Hshort.
          rewrite firstn_all2 by lia. exact Hshort. }
      specialize (Hshort (List.length (l ++ [o]))).
      rewrite firstn_all in Hshort. destruct Hshort as [Hok Hbad].
      assert (Hlen' : Z.of_nat (List.length (l ++ [o])) <= int_max).
      { rewrite length_app. simpl. lia. }
      destruct (HealthFacts.run_probes_counters config h0 (l ++ [o]) Hf Hs Hlen')
        as [Hcf Hcs].
      rewrite HealthFacts.run_probes_snoc in Hcf, Hcs |- *.
      unfold updateTargetHealth in Hcf, Hcs |- *.
      destruct (ok o); cbn [Status_ ConsecutiveFailures ConsecutiveSuccesses]
                           in Hcf, Hcs |- *.
      * rewrite Hcs.
        destruct (SuccessThreshold config
                  <=? Z.of_nat (trailing true (map ok (l ++ [o])))) eqn:E;
          [apply Z.leb_le in E; lia | exact IH'].
      * rewrite Hcf.
        destruct (FailureThreshold config
                  <=? Z.of_nat (trailing false (map ok (l ++ [o])))) eqn:E;
          [apply Z.leb_le in E; lia | exact IH'].
  - revert h0. unfold run_probes.
    induction obs as [| o l IH]; intros h0 H; [exact H |].
    cbn [fold_left]. apply IH. apply updateTargetHealth_known. exact H.
Qed.

Lemma short_streaks_keep_the_status_witness :
  let config := defaultHealthConfig 30 5 in
  let good := {| ok := true; rtt := 1; failure := None; at_time := 0 |} in
  let bad := {| ok := false; rtt := 1; failure := Some "down"; at_time := 0 |} in
  let flapping := [good; bad; bad; good; bad; good; bad; bad] in
  Status_ (run_probes config (unknownTarget "a") flapping) = StatusUnknown
  /\ ConsecutiveFailures (run_probes config (unknownTarget "a") flapping) = 2.
Proof.
  intros config good bad flapping. split; [| reflexivity].
  apply (proj1 (short_streaks_keep_the_status config (unknownTarget "a")
                  flapping)); [reflexivity | reflexivity | vm_compute; discriminate |].
  intros n. do 9 (destruct n as [| n]; [vm_compute; split; reflexivity |]).
  vm_compute; split; reflexivity.
Defined.

End HealthLoopFacts.

(* ===================================================================== *)
(** * The registry of rate limiters                                       *)
(* ===================================================================== *)

Module RateLimitRegistryFacts.
Import RateLimit RateLimitRegistry.

Lemma getKey_config (a b : RateLimitMiddleware) (r : Request) :
  config a = config b -> getKey a r = getKey b r.
Proof. unfold getKey. intros ->. reflexivity. Qed.

(** One call of the middleware in terms of the limiter of the key. *)
Lemma allow_request_limiter (rlm : RateLimitMiddleware) (now : Z) (r : Request) :
  let key := getKey rlm r in
  let lim := default (NewLimiter (RequestsPerSecond (config rlm))
                                 (Burst (config rlm)))
                     (limiters rlm !! key) in
  allow_request rlm now r
  = (fst (Allow lim now),
     {| config := config rlm;
        limiters := <[key := snd (Allow lim now)]> (limiters rlm) |}).
Proof.
  intros key lim. unfold allow_request, getLimiter. fold key.
  subst lim. destruct (limiters rlm !! key) as [l |] eqn:Hlk;
    cbn [from_option id].
  - destruct (Allow l now) as [ok l']. reflexivity.
  - destruct (Allow _ now) as [ok l']. cbn [config limiters fst snd].
    rewrite insert_insert_eq. reflexivity.
Qed.

Lemma Time_Sub_same (t : Z) : Time_Sub t t = 0.
Proof. unfold Time_Sub, maxDuration, int_max. rewrite Z.sub_diag. lia. Qed.

Lemma Allow_fresh (rps b now : Z) :
  1 <= rps -> 1 <= b -> b * Second <= Z.min now maxDuration * rps ->
  Allow (NewLimiter rps b) now
  = (true, {| limit := rps; burst := b; tokens := (b - 1) * Second;
              last := now |}).
Proof.
  intros Hr Hb Hfull. unfold Allow, advance, NewLimiter.
  cbn [limit burst tokens last].
  assert (Hs : Second = 1000000000) by reflexivity.
  assert (Hm : 0 < Z.min now maxDuration) by nia.
  assert (Hnow : 0 < now) by lia.
  destruct (now <? 0) eqn:E; [apply Z.ltb_lt in E; lia |].
  assert (Hel : Time_Sub now 0 = Z.min now maxDuration).
  { unfold Time_Sub, maxDuration, int_max in *. lia. }
  rewrite Hel. unfold tokensFromDuration.
  destruct (rps <=? 0) eqn:E0; [apply Z.leb_le in E0; lia |].
  assert (Hadv : (if b * Second <? 0 + Z.min now maxDuration * rps
                  then b * Second else 0 + Z.min now maxDuration * rps)
                 = b * Second).
  { destruct (b * Second <? 0 + Z.min now maxDuration * rps) eqn:E1;
      [reflexivity | apply Z.ltb_ge in E1; lia]. }
  rewrite Hadv.
  destruct (b * Second - 1 * Second <? 0) eqn:E2;
    [apply Z.ltb_lt in E2; lia |].
  destruct (1 <=? b) eqn:E3; [| apply Z.leb_gt in E3; lia].
  cbn [andb Z.leb Z.compare]. f_equal. f_equal. lia.
Qed.

Lemma Allow_same_instant (rps b now j : Z) :
  1 <= rps <= Second -> 0 <= j <= b ->
  Allow {| limit := rps; burst := b; tokens := j * Second; last := now |} now
  = if 0 <? j
    then (true, {| limit := rps; burst := b; tokens := (j - 1) * Second;
                   last := now |})
    else (false, {| limit := rps; burst := b; tokens := j * Second;
                    last := now |}).
Proof.
  intros Hr Hj. unfold Allow, advance. cbn [limit burst tokens last].
  assert (Hs : Second = 1000000000) by reflexivity.
  rewrite Z.ltb_irrefl, Time_Sub_same. unfold tokensFromDuration.
  destruct (rps <=? 0) eqn:E0; [apply Z.leb_le in E0; lia |].
  rewrite Z.mul_0_l, Z.add_0_r.
  destruct (b * Second <? j * Second) eqn:E1; [apply Z.ltb_lt in E1; lia |].
  destruct (0 <? j) eqn:Ej.
  - apply Z.ltb_lt in Ej.
    destruct (j * Second - 1 * Second <? 0) eqn:E2;
      [apply Z.ltb_lt in E2; lia |].
    destruct (1 <=? b) eqn:E3; [| apply Z.leb_gt in E3; lia].
    cbn [andb Z.leb Z.compare]. f_equal. f_equal. lia.
  - apply Z.ltb_ge in Ej. assert (j = 0) by lia. subst j.
    replace (0 * Second - 1 * Second) with (- Second) by lia.
    destruct (- Second <? 0) eqn:E2; [| apply Z.ltb_ge in E2; lia].
    unfold durationFromTokens. rewrite E0. rewrite Z.opp_involutive.
    assert (Hq1 : 1 <= Z.quot Second rps).
    { apply Z.quot_le_lower_bound; lia. }
    assert (Hq2 : Z.quot Second rps <= Second).
    { apply Z.quot_le_upper_bound; nia. }
    destruct (int_max <? Z.quot Second rps) eqn:E3.
    { apply Z.ltb_lt in E3. unfold int_max in E3. lia. }
    destruct (Z.quot Second rps <=? 0) eqn:E4; [apply Z.leb_le in E4; lia |].
    destruct (1 <=? b); reflexivity.
Qed.

Lemma serve_cons (rlm : RateLimitMiddleware) (now : Z) (r : Request)
      (rest : list (Z * Request)) :
  serve rlm ((now, r) :: rest)
  = (fst (allow_request rlm now r)
       :: fst (serve (snd (allow_request rlm now r)) rest),
     snd (serve (snd (allow_request rlm now r)) rest)).
Proof.
  cbn [serve]. destruct (allow_request rlm now r) as [ok rlm1].
  cbn [fst snd]. destruct (serve rlm1 rest). reflexivity.
Qed.

Lemma serve_same_instant (rps b now : Z) (r : Request) (key : string) (n : nat) :
  1 <= rps <= Second ->
  forall (j : nat) (rlm : RateLimitMiddleware),
    RequestsPerSecond (config rlm) = rps -> Burst (config rlm) = b ->
    getKey rlm r = key -> Z.of_nat j <= b ->
    limiters rlm !! key
    = Some {| limit := rps; burst := b; tokens := Z.of_nat j * Second;
              last := now |} ->
    fst (serve rlm (repeat (now, r) n))
    = (repeat true (Nat.min n j) ++ repeat false (n - j))%list.
Proof.
  intros Hr. induction n as [| n IH]; intros j rlm Hrps Hb Hkey Hj Hlk.
  - reflexivity.
  - cbn [repeat]. rewrite serve_cons. cbn [fst].
    rewrite allow_request_limiter. rewrite Hkey, Hlk. cbn [from_option id fst snd].
    rewrite Allow_same_instant by lia.
    destruct (0 <? Z.of_nat j) eqn:Ej.
    + apply Z.ltb_lt in Ej. destruct j as [| j]; [lia |].
      cbn [fst snd]. rewrite (IH j).
      * reflexivity.
      * exact Hrps.
      * exact Hb.
      * rewrite <- Hkey. apply getKey_config. reflexivity.
      * lia.
      * cbn [limiters]. rewrite lookup_insert_eq. do 3 f_equal. lia.
    + apply Z.ltb_ge in Ej. assert (j = O) by lia. subst j.
      cbn [fst snd]. rewrite (IH O).
      * rewrite Nat.min_0_r. cbn [repeat app Nat.sub].
        rewrite Nat.sub_0_r. reflexivity.
      * exact Hrps.
      * exact Hb.
      * rewrite <- Hkey. apply getKey_config. reflexivity.
      * lia.
      * cbn [limiters]. rewrite lookup_insert_eq. reflexivity.
Qed.

(** X9. A burst is admitted and the next request is denied.  For a key
    that has no limiter yet, with a rate of at least one and at most
    10^9 requests per second, a burst of at least one and a clock at
    which a new bucket is full, [n] requests at the same instant are
    answered like this: the first [burst] of them pass, all the others
    are denied. *)
Theorem burst_then_denied :
  forall (rlm : RateLimitMiddleware) (now : Z) (r : Request) (n : nat),
    let rps := RequestsPerSecond (config rlm) in
    let b := Burst (config rlm) in
    limiters rlm !! getKey rlm r = None ->
    1 <= rps <= Second -> 1 <= b ->
    b * Second <= Z.min now maxDuration * rps ->
    fst (serve rlm (repeat (now, r) n))
    = (repeat true (Nat.min n (Z.to_nat b))
       ++ repeat false (n - Z.to_nat b))%list.
Proof.
  intros rlm now r n rps b Hnone Hr Hb Hfull.
  destruct n as [| n]; [reflexivity |].
  cbn [repeat]. rewrite serve_cons. cbn [fst].
  rewrite allow_request_limiter. rewrite Hnone. cbn [from_option id fst snd].
  fold rps b. rewrite Allow_fresh by lia. cbn [fst snd].
  rewrite (serve_same_instant rps b now r (getKey rlm r) n Hr (Z.to_nat (b - 1))).
  - replace (Z.to_nat b) with (Datatypes.S (Z.to_nat (b - 1))) by lia.
    reflexivity.
  - reflexivity.
  - reflexivity.
  - apply getKey_config. reflexivity.
  - lia.
  - cbn [limiters]. rewrite lookup_insert_eq. do 3 f_equal. lia.
Qed.

Lemma keys_isolated_from (rlm0 : RateLimitMiddleware) (k : string)
      (events : list (Z * Request)) :
  forall a b : RateLimitMiddleware,
    config a = config rlm0 -> config b = config rlm0 ->
    limiters a !! k = limiters b !! k ->
    map snd (List.filter (fun ed => keyed rlm0 k (fst ed))
                         (combine events (fst (serve a events))))
    = fst (serve b (List.filter (keyed rlm0 k) events))
    /\ limiters (snd (serve a events)) !! k
       = limiters (snd (serve b (List.filter (keyed rlm0 k) events))) !! k.
Proof.
  induction events as [| [now r] rest IH]; intros a b Ha Hb Hlk.
  - split; [reflexivity | exact Hlk].
  - rewrite serve_cons. cbn [fst snd combine List.filter].
    change (keyed rlm0 k (now, r)) with (String.eqb (getKey rlm0 r) k).
    assert (Hka : getKey a r = getKey rlm0 r) by (apply getKey_config; exact Ha).
    assert (Hkb : getKey b r = getKey rlm0 r) by (apply getKey_config; exact Hb).
    rewrite (allow_request_limiter a). rewrite Hka. cbn [fst snd].
    destruct (String.eqb (getKey rlm0 r) k) eqn:Ek.
    + apply String.eqb_eq in Ek. rewrite serve_cons. cbn [fst snd map].
      rewrite (allow_request_limiter b). rewrite Hkb, Ek. cbn [fst snd].
      rewrite Ha, Hb, Hlk.
      set (lim := default _ (limiters b !! k)).
      destruct (IH {| config := config rlm0;
                      limiters := <[k := snd (Allow lim now)]> (limiters a) |}
                   {| config := config rlm0;
                      limiters := <[k := snd (Allow lim now)]> (limiters b) |})
        as [IH1 IH2]; [reflexivity | reflexivity | |].
      { cbn [limiters]. rewrite !lookup_insert_eq. reflexivity. }
      split; [f_equal; exact IH1 | exact IH2].
    + apply String.eqb_neq in Ek.
      set (lim := default _ (limiters a !! getKey rlm0 r)).
      destruct (IH {| config := config a;
                      limiters := <[getKey rlm0 r := snd (Allow lim now)]>
                                    (limiters a) |} b)
        as [IH1 IH2]; [exact Ha | exact Hb | |].
      { cbn [limiters]. rewrite lookup_insert_ne by exact Ek. exact Hlk. }
      split; [exact IH1 | exact IH2].
Qed.

(** X10. The keys of the rate limiter do not disturb one another.  In
    any sequence of requests, the decisions taken for the requests of
    one key, and the limiter that the key ends with, are those of the
    same middleware serving only the requests of that key: what other
    clients send in between changes nothing. *)
Theorem keys_are_isolated :
  forall (rlm : RateLimitMiddleware) (events : list (Z * Request))
         (key : string),
    map snd (List.filter (fun ed => keyed rlm key (fst ed))
                         (combine events (fst (serve rlm events))))
    = fst (serve rlm (List.filter (keyed rlm key) events))
    /\ limiters (snd (serve rlm events)) !! key
       = limiters (snd (serve rlm (List.filter (keyed rlm key) events)))
           !! key.
Proof.
  intros rlm events key.
  apply (keys_isolated_from rlm key events rlm rlm); reflexivity.
Qed.

(** A bucket that is full stays full. *)
Lemma advance_full_later (l : Limiter) (T t : Z) :
  advance l T = burst l * Second -> T <= t ->
  advance l t = burst l * Second.
Proof.
  unfold advance. intros Hfull Hle.
  set (eT := Time_Sub T (if T <? last l then T else last l)) in *.
  set (et := Time_Sub t (if t <? last l then t else last l)).
  assert (He : eT <= et).
  { subst eT et. unfold Time_Sub, maxDuration, int_max.
    destruct (T <? last l) eqn:E1; destruct (t <? last l) eqn:E2;
      try apply Z.ltb_lt in E1; try apply Z.ltb_ge in E1;
      try apply Z.ltb_lt in E2; try apply Z.ltb_ge in E2; lia. }
  assert (Hd : tokensFromDuration (limit l) eT
               <= tokensFromDuration (limit l) et).
  { unfold tokensFromDuration.
    destruct (limit l <=? 0) eqn:E; [lia | apply Z.leb_gt in E; nia]. }
  destruct (burst l * Second <? tokens l + tokensFromDuration (limit l) eT)
    eqn:E1;
    destruct (burst l * Second <? tokens l + tokensFromDuration (limit l) et)
      eqn:E2;
    try apply Z.ltb_lt in E1; try apply Z.ltb_ge in E1;
    try apply Z.ltb_lt in E2; try apply Z.ltb_ge in E2; lia.
Qed.

Lemma Allow_full (l : Limiter) (t : Z) :
  advance l t = burst l * Second -> 1 <= burst l ->
  Allow l t
  = (true, {| limit := limit l; burst := burst l;
              tokens := (burst l - 1) * Second; last := t |}).
Proof.
  intros Hfull Hb. unfold Allow. rewrite Hfull.
  assert (Hs : Second = 1000000000) by reflexivity.
  destruct (burst l * Second - 1 * Second <? 0) eqn:E2;
    [apply Z.ltb_lt in E2; lia |].
  destruct (1 <=? burst l) eqn:E3; [| apply Z.leb_gt in E3; lia].
  cbn [andb Z.leb Z.compare]. f_equal. f_equal. lia.
Qed.

Lemma Allow_keeps_rate (l : Limiter) (t : Z) :
  limit (snd (Allow l t)) = limit l /\ burst (snd (Allow l t)) = burst l.
Proof.
  unfold Allow.
  match goal with |- context [if ?b then _ else _] => destruct b end;
    split; reflexivity.
Qed.

Lemma fromConfig_allow_request (rlm : RateLimitMiddleware) (now : Z)
      (r : Request) :
  fromConfig rlm -> fromConfig (snd (allow_request rlm now r)).
Proof.
  intros Hwf key lim. rewrite allow_request_limiter. cbn [snd config limiters].
  destruct (decide (key = getKey rlm r)) as [-> | Hne].
  - rewrite lookup_insert_eq. intros [= <-].
    destruct (Allow_keeps_rate
                (default (NewLimiter (RequestsPerSecond (config rlm))
                                     (Burst (config rlm)))
                         (limiters rlm !! getKey rlm r)) now) as [-> ->].
    destruct (limiters rlm !! getKey rlm r) as [l |] eqn:Hlk;
      cbn [from_option id]; [exact (Hwf _ _ Hlk) | split; reflexivity].
  - rewrite lookup_insert_ne by congruence. apply Hwf.
Qed.

Lemma fromConfig_serve (events : list (Z * Request)) :
  forall rlm, fromConfig rlm ->
              fromConfig (snd (serve rlm events))
              /\ config (snd (serve rlm events)) = config rlm.
Proof.
  induction events as [| [now r] rest IH]; intros rlm Hwf.
  - split; [exact Hwf | reflexivity].
  - rewrite serve_cons. cbn [snd].
    destruct (IH _ (fromConfig_allow_request rlm now r Hwf)) as [H1 H2].
    split; [exact H1 |]. rewrite H2, allow_request_limiter. reflexivity.
Qed.

Lemma withoutFull_Cleanup (rlm : RateLimitMiddleware) (clock : string -> Z) :
  fromConfig rlm -> withoutFull clock rlm (Cleanup rlm clock).
Proof.
  intros Hwf. split; [reflexivity |]. intros key. unfold Cleanup.
  cbn [limiters config].
  destruct (limiters rlm !! key) as [l |] eqn:Hlk.
  - destruct (decide (Tokens l (clock key) <> Burst (config rlm) * Second))
      as [Hp | Hp].
    + left. apply map_lookup_filter_Some. split; [exact Hlk | exact Hp].
    + right. destruct (Hwf _ _ Hlk) as [Hl Hb]. split.
      * apply map_lookup_filter_None. right. intros x Hx. rewrite Hlk in Hx.
        injection Hx as <-. exact Hp.
      * exists l. split; [reflexivity |]. split; [exact Hl |].
        split; [exact Hb |]. rewrite Hb.
        destruct (decide (Tokens l (clock key) = Burst (config rlm) * Second));
          [assumption | contradiction].
  - left. apply map_lookup_filter_None. left. exact Hlk.
Qed.

Lemma withoutFull_allow_request (clock : string -> Z)
      (a b : RateLimitMiddleware) (t : Z) (r : Request) :
  withoutFull clock a b ->
  1 <= RequestsPerSecond (config a) -> 1 <= Burst (config a) ->
  (forall key, clock key <= t) ->
  Burst (config a) * Second
  <= Z.min t maxDuration * RequestsPerSecond (config a) ->
  fst (allow_request a t r) = fst (allow_request b t r)
  /\ withoutFull clock (snd (allow_request a t r)) (snd (allow_request b t r)).
Proof.
  intros [Hcfg Hsim] Hr Hb Hclock Hfresh.
  rewrite !allow_request_limiter. rewrite <- (getKey_config a b r Hcfg).
  rewrite <- Hcfg. cbn [fst snd].
  set (key := getKey a r).
  set (fresh := NewLimiter (RequestsPerSecond (config a)) (Burst (config a))).
  assert (Hsame : Allow (default fresh (limiters a !! key)) t
                  = Allow (default fresh (limiters b !! key)) t).
  { destruct (Hsim key) as [E | [E [l [Hl [Hlim [Hbur Hfull]]]]]].
    - rewrite E. reflexivity.
    - rewrite E, Hl. cbn [from_option id]. unfold Tokens in Hfull.
      rewrite (Allow_full l t);
        [| apply (advance_full_later l (clock key)); [exact Hfull | apply Hclock]
         | lia].
      subst fresh. rewrite Allow_fresh by lia. rewrite Hlim, Hbur. reflexivity. }
  rewrite Hsame. split; [reflexivity |].
  split; [reflexivity |]. intros k. cbn [limiters config].
  destruct (decide (k = key)) as [-> | Hne].
  - left. rewrite !lookup_insert_eq. reflexivity.
  - rewrite !lookup_insert_ne by congruence. apply Hsim.
Qed.

Lemma withoutFull_serve (clock : string -> Z) (events : list (Z * Request)) :
  forall a b : RateLimitMiddleware,
    withoutFull clock a b ->
    1 <= RequestsPerSecond (config a) -> 1 <= Burst (config a) ->
    Forall (fun e => (forall key, clock key <= fst e)
                     /\ Burst (config a) * Second
                        <= Z.min (fst e) maxDuration
                           * RequestsPerSecond (config a)) events ->
    fst (serve a events) = fst (serve b events).
Proof.
  induction events as [| [t r] rest IH]; intros a b Hsim Hr Hb Hall.
  - reflexivity.
  - inversion Hall as [| ? ? [Hclock Hfresh] Hrest]; subst. cbn [fst] in *.
    rewrite !serve_cons. cbn [fst].
    destruct (withoutFull_allow_request clock a b t r Hsim Hr Hb Hclock Hfresh)
      as [E Hsim'].
    rewrite E. f_equal.
    assert (Hc : config (snd (allow_request a t r)) = config a).
    { rewrite allow_request_limiter. reflexivity. }
    apply IH; [exact Hsim' | rewrite Hc; exact Hr | rewrite Hc; exact Hb |].
    rewrite Hc. exact Hrest.
Qed.

Lemma burst_then_denied_witness :
  let rlm := NewRateLimitMiddleware
               {[ "requests_per_second" := AInt 5; "burst" := AInt 3 ]} in
  let now := Proxy.now Scenario.world0 in
  fst (serve rlm (repeat (now, Scenario.direct) 5))
  = [true; true; true; false; false].
Proof.
  intros rlm now.
  apply (burst_then_denied rlm now Scenario.direct 5).
  - reflexivity.
  - vm_compute. split; discriminate.
  - vm_compute. discriminate.
  - vm_compute. discriminate.
Defined.

(** X11. [Cleanup] cannot be observed.  Take a middleware in any state
    it can reach from its construction, with a rate and a burst of at
    least one, and call [Cleanup].  It deletes exactly the limiters
    whose bucket is full at the time it looks at them.  For requests
    that come after the clean-up, at clock readings at which a new
    bucket is full, the decisions with the clean-up are the decisions
    without it. *)
Theorem Cleanup_is_not_observable :
  forall (cfg : gmap string any) (history later : list (Z * Request))
         (clock : string -> Z),
    let rlm := snd (serve (NewRateLimitMiddleware cfg) history) in
    1 <= RequestsPerSecond (config rlm) -> 1 <= Burst (config rlm) ->
    Forall (fun e => (forall key, clock key <= fst e)
                     /\ Burst (config rlm) * Second
                        <= Z.min (fst e) maxDuration
                           * RequestsPerSecond (config rlm)) later ->
    fst (serve (Cleanup rlm clock) later) = fst (serve rlm later)
    /\ forall (key : string) (lim : Limiter),
         limiters (Cleanup rlm clock) !! key = Some lim
         <-> limiters rlm !! key = Some lim
             /\ Tokens lim (clock key) <> Burst (config rlm) * Second.
Proof.
  intros cfg history later clock rlm Hr Hb Hall.
  assert (Hwf : fromConfig rlm).
  { apply fromConfig_serve. intros key lim H. cbn in H.
    rewrite lookup_empty in H. discriminate. }
  split.
  - symmetry. apply (withoutFull_serve clock later rlm (Cleanup rlm clock));
      [apply withoutFull_Cleanup; exact Hwf | exact Hr | exact Hb | exact Hall].
  - intros key lim. unfold Cleanup. cbn [limiters config].
    rewrite map_lookup_filter_Some. reflexivity.
Qed.

Lemma Cleanup_is_not_observable_witness :
  let cfg : gmap string any :=
    {[ "requests_per_second" := AInt 1; "burst" := AInt 1 ]} in
  let t0 := Proxy.now Scenario.world0 in
  let history := [(t0, Scenario.direct)] in
  let clock := fun _ : string => t0 + 2 * Second in
  let later := [(t0 + 3 * Second, Scenario.direct);
                (t0 + 3 * Second, Scenario.direct)] in
  let rlm := snd (serve (NewRateLimitMiddleware cfg) history) in
  fst (serve (Cleanup rlm clock) later) = fst (serve rlm later)
  /\ fst (serve rlm later) = [true; false]
  /\ limiters rlm !! "10.0.0.1:51234"
     = Some {| limit := 1; burst := 1; tokens := 0; last := t0 |}
  /\ limiters (Cleanup rlm clock) !! "10.0.0.1:51234" = None.
Proof.
  intros cfg t0 history clock later rlm.
  split; [| split; [reflexivity | split; reflexivity]].
  apply (Cleanup_is_not_observable cfg history later clock).
  - vm_compute. discriminate.
  - vm_compute. discriminate.
  - repeat constructor; try (intros key); vm_compute; discriminate.
Defined.

End RateLimitRegistryFacts.

(* ===================================================================== *)
(** * Tokens, identity headers and roles                                  *)
(* ===================================================================== *)

Module AuthTokenFacts.
Import Auth AuthTokens.

Lemma Header_Get_Set (h : gmap string (list string)) (k v k' : string) :
  Header_Get (Header_Set h k v) k'
  = if String.eqb (CanonicalHeaderKey k') (CanonicalHeaderKey k)
    then v else Header_Get h k'.
Proof.
  unfold Header_Get, Header_Set.
  destruct (String.eqb_spec (CanonicalHeaderKey k') (CanonicalHeaderKey k))
    as [-> | Hne].
  - rewrite lookup_insert_eq. reflexivity.
  - rewrite lookup_insert_ne by congruence. reflexivity.
Qed.

Section Tokens.

Variable hmac : string -> string -> string -> string.
Variable parse : string -> TokenString.
Variable SignedString : string -> Claims -> string -> string.


Lemma NewNumericDate_le (t : Z) : NewNumericDate t <= t.
Proof.
  unfold NewNumericDate, Truncate.
  change (RateLimit.Second <=? 0) with false. cbn iota.
  pose proof (Z.mod_pos_bound t RateLimit.Second eq_refl). lia.
Qed.

(** A bearer token in the header is found. *)
Lemma extractToken_Bearer (am : AuthConfig) (r : Request) (token : string) :
  TokenLocation am = "header" ->
  Header_Get (Header r) (TokenName am) = "Bearer " ++ token ->
  extractToken am r = Some token.
Proof.
  intros Hloc Hh. unfold extractToken. rewrite Hloc, Hh.
  cbn [String.eqb Ascii.eqb Bool.eqb].
  change ("Bearer " ++ token)
    with (String "B" (String "e" (String "a" (String "r" (String "e"
            (String "r" (String " " token))))))).
  cbn [String.eqb Ascii.eqb Bool.eqb].
  change (String "B" (String "e" (String "a" (String "r" (String "e"
            (String "r" (String " " token)))))))
    with ("Bearer " ++ token).
  unfold HasPrefix. rewrite StringFacts.prefix_app.
  rewrite StringFacts.TrimPrefix_app. reflexivity.
Qed.

(** What [validateToken] makes of a token that the parser reads back
    with the claims of [GenerateToken]. *)
Lemma validateToken_newClaims (am other : AuthConfig) (userID email : string)
      (roles : list string) (duration now1 now2 now3 t : Z)
      (signingInput : string) :
  let claims := newClaims am userID email roles duration now1 now2 now3 in
  let token := Segments (Some "HS256") claims signingInput
                        (hmac "HS256" (JWTSecret am) signingInput) in
  (now3 <= t -> t < NewNumericDate (now1 + duration) ->
   validateToken hmac am t token = Ok claims)
  /\ (NewNumericDate (now1 + duration) <= t ->
      exists msg, validateToken hmac am t token = Err msg)
  /\ (hmac "HS256" (JWTSecret other) signingInput
      <> hmac "HS256" (JWTSecret am) signingInput ->
      validateToken hmac other t token = Err "signature is invalid").
Proof.
  intros claims token. subst token.
  cbn [validateToken]. change (GetSigningMethod "HS256")
    with (Some (SigningMethodHMAC "HS256")). cbn [keyFunc Verify].
  split; [| split].
  - intros Hnbf Hexp. rewrite String.eqb_refl. cbn [negb].
    pose proof (NewNumericDate_le now3) as Hle.
    unfold Validate. subst claims. unfold newClaims.
    cbn [ExpiresAt NotBefore].
    destruct (t <? NewNumericDate (now1 + duration)) eqn:E1;
      [| apply Z.ltb_ge in E1; lia].
    destruct (t <? NewNumericDate now3) eqn:E2; [apply Z.ltb_lt in E2; lia |].
    cbn [negb andb Issuer]. rewrite String.eqb_refl. cbn [negb].
    rewrite andb_false_r.
    destruct (NewNumericDate (now1 + duration) <? t) eqn:E3;
      [apply Z.ltb_lt in E3; lia | reflexivity].
  - intros Hexp. rewrite String.eqb_refl. cbn [negb].
    unfold Validate. subst claims. unfold newClaims.
    cbn [ExpiresAt NotBefore].
    destruct (t <? NewNumericDate (now1 + duration)) eqn:E1;
      [apply Z.ltb_lt in E1; lia |].
    cbn [andb negb]. eexists. reflexivity.
  - intros Hdiff.
    destruct (String.eqb_spec (hmac "HS256" (JWTSecret am) signingInput)
                              (hmac "HS256" (JWTSecret other) signingInput))
      as [E | _]; [exfalso; apply Hdiff; symmetry; exact E | reflexivity].
Qed.

(** X12. A generated token validates until it expires.  Take the token
    string that [GenerateToken] returns, and let the parser of the
    library read it back with the claims that were signed (the claims
    travel as JSON: this holds for strings of valid UTF-8 and is an
    assumption here).  Then [validateToken] of the same middleware
    accepts the token at every time from its not-before time up to, and
    not including, the expiry (the first clock reading plus the
    duration, cut to the second); from the expiry on it rejects it; a
    middleware whose secret gives other signatures rejects it as badly
    signed.  And a request outside the skip paths that carries the
    token as a bearer token in the header, in the time of validity, is
    let through with the identity headers of the user the token was
    made for. *)
Theorem GenerateToken_round_trip :
  forall (am : AuthConfig) (userID email : string) (roles : list string)
         (duration now1 now2 now3 t : Z),
    let token := GenerateToken SignedString am userID email roles
                               duration now1 now2 now3 in
    let claims := newClaims am userID email roles duration now1 now2 now3 in
    readsBack SignedString hmac parse "HS256" claims (JWTSecret am) ->
    (now3 <= t -> t < NewNumericDate (now1 + duration) ->
     validateToken hmac am t (parse token) = Ok claims)
    /\ (NewNumericDate (now1 + duration) <= t ->
        exists msg, validateToken hmac am t (parse token) = Err msg)
    /\ (forall other : AuthConfig,
          (forall text : string,
              hmac "HS256" (JWTSecret other) text
              <> hmac "HS256" (JWTSecret am) text) ->
          validateToken hmac other t (parse token)
          = Err "signature is invalid")
    /\ (forall r : Request,
          TokenLocation am = "header" ->
          Header_Get (Header r) (TokenName am) = "Bearer " ++ token ->
          existsb (fun skipPath => HasPrefix (Path r) skipPath) (SkipPaths am)
          = false ->
          now3 <= t -> t < NewNumericDate (now1 + duration) ->
          exists r' : Request,
            Handle hmac parse am t r = inr r'
            /\ Header_Get (Header r') "X-User-ID" = userID
            /\ Header_Get (Header r') "X-User-Email" = email
            /\ Header_Get (Header r') "X-User-Roles"
               = String.concat "," roles).
Proof.
  intros am userID email roles duration now1 now2 now3 t token claims
         [signingInput Hread].
  assert (Hparse : parse token
                   = Segments (Some "HS256") claims signingInput
                              (hmac "HS256" (JWTSecret am) signingInput))
    by exact Hread.
  rewrite Hparse.
  destruct (validateToken_newClaims am am userID email roles duration
              now1 now2 now3 t signingInput) as [Hok [Hexp _]].
  split; [exact Hok |]. split; [exact Hexp |]. split.
  - intros other Hdiff.
    apply (validateToken_newClaims am other userID email roles duration
             now1 now2 now3 t signingInput). apply Hdiff.
  - intros r Hloc Hh Hskip Hnbf Hlt.
    unfold Handle. rewrite Hskip.
    rewrite (extractToken_Bearer am r token Hloc Hh), Hparse.
    fold claims in Hok. rewrite (Hok Hnbf Hlt).
    eexists. split; [reflexivity |]. cbn [Header].
    rewrite !Header_Get_Set. subst claims. unfold newClaims.
    cbn [UserID Email Roles].
    repeat split; reflexivity.
Qed.

(** X15. Where the token is looked for.  With the token in a header, a
    value that starts with "Bearer " gives the rest as the token, an
    absent or empty header is an error, and any other value is the
    token as it stands.  With a token location that is none of header,
    cookie and query, no request has a token: every request outside the
    skip paths is answered 401. *)
Theorem extractToken_locations :
  forall (am : AuthConfig) (r : Request),
    (TokenLocation am = "header" ->
     (forall token,
         Header_Get (Header r) (TokenName am) = "Bearer " ++ token ->
         extractToken am r = Some token)
     /\ (Header_Get (Header r) (TokenName am) = "" -> extractToken am r = None)
     /\ (HasPrefix (Header_Get (Header r) (TokenName am)) "Bearer " = false ->
         Header_Get (Header r) (TokenName am) <> "" ->
         extractToken am r = Some (Header_Get (Header r) (TokenName am))))
    /\ (~ In (TokenLocation am) ["header"; "cookie"; "query"] ->
        extractToken am r = None
        /\ forall now : Z,
             existsb (fun skipPath => HasPrefix (Path r) skipPath)
                     (SkipPaths am) = false ->
             Handle hmac parse am now r
             = inl (Http.Error "Unauthorized" StatusUnauthorized)).
Proof.
  intros am r. split.
  - intros Hloc. unfold extractToken. rewrite Hloc. cbn [String.eqb Ascii.eqb Bool.eqb].
    split; [| split].
    + intros token Hh. rewrite Hh.
      change ("Bearer " ++ token)
        with (String "B" (String "e" (String "a" (String "r" (String "e"
                (String "r" (String " " token))))))).
      cbn [String.eqb Ascii.eqb Bool.eqb].
      change (String "B" (String "e" (String "a" (String "r" (String "e"
                (String "r" (String " " token)))))))
        with ("Bearer " ++ token).
      unfold HasPrefix. rewrite StringFacts.prefix_app.
      rewrite StringFacts.TrimPrefix_app. reflexivity.
    + intros ->. reflexivity.
    + intros Hp Hne. rewrite Hp.
      destruct (String.eqb_spec (Header_Get (Header r) (TokenName am)) "");
        [contradiction | reflexivity].
  - intros Hloc.
    assert (Hnone : extractToken am r = None).
    { unfold extractToken.
      destruct (String.eqb_spec (TokenLocation am) "header") as [E | _];
        [exfalso; apply Hloc; rewrite E; simpl; auto |].
      destruct (String.eqb_spec (TokenLocation am) "cookie") as [E | _];
        [exfalso; apply Hloc; rewrite E; simpl; auto |].
      destruct (String.eqb_spec (TokenLocation am) "query") as [E | _];
        [exfalso; apply Hloc; rewrite E; simpl; auto |].
      reflexivity. }
    split; [exact Hnone |]. intros now Hskip. unfold Handle.
    rewrite Hskip, Hnone. reflexivity.
Qed.

End Tokens.

(** X14. The role check reads the roles header.  For a request whose
    X-User-Roles header is the comma-joined list of some roles, none of
    which contains a comma, [ValidateRole] lets the request pass
    unchanged exactly when one of the roles, with the white space around
    it removed, is the required role; otherwise the answer is 403.  A
    request without the header is answered 403. *)
Theorem ValidateRole_checks_the_roles :
  forall (requiredRole : string) (r : Request) (roles : list string),
    Header_Get (Header r) "X-User-Roles" = String.concat "," roles ->
    Forall (fun role => lacks "," role = true) roles ->
    String.concat "," roles <> "" ->
    (ValidateRole requiredRole r = inr r
     <-> Exists (fun role => TrimSpace role = requiredRole) roles)
    /\ (ValidateRole requiredRole r = inr r
        \/ ValidateRole requiredRole r
           = inl (Http.Error "Forbidden" StatusForbidden))
    /\ (forall r0 : Request,
          Header_Get (Header r0) "X-User-Roles" = "" ->
          ValidateRole requiredRole r0
          = inl (Http.Error "Forbidden" StatusForbidden)).
Proof.
  intros requiredRole r roles Hh Hall Hne.
  assert (Hroles : roles <> []) by (intros ->; apply Hne; reflexivity).
  unfold ValidateRole. split; [| split].
  - rewrite Hh.
    destruct (String.eqb_spec (String.concat "," roles) "") as [E | _];
      [contradiction |].
    rewrite (StringFacts.Split_concat roles Hroles Hall).
    destruct (existsb (fun role => String.eqb (TrimSpace role) requiredRole)
                      roles) eqn:Ex.
    + split; [intros _ | reflexivity].
      apply existsb_exists in Ex as [role [Hin Heq]].
      apply List.Exists_exists. exists role. split; [exact Hin |].
      apply String.eqb_eq. exact Heq.
    + split; [discriminate |]. intros Hex. exfalso.
      apply List.Exists_exists in Hex as [role [Hin Heq]].
      assert (Ht : existsb (fun role => String.eqb (TrimSpace role) requiredRole)
                           roles = true).
      { apply existsb_exists. exists role. split; [exact Hin |].
        apply String.eqb_eq. exact Heq. }
      congruence.
  - destruct (String.eqb (Header_Get (Header r) "X-User-Roles") "");
      [right; reflexivity |].
    destruct (existsb _ _); [left | right]; reflexivity.
  - intros r0 ->. reflexivity.
Qed.

Lemma GenerateToken_round_trip_witness :
  let am := Scenario.authMiddleware in
  let created := 1000 * RateLimit.Second + 5 in
  let claims := newClaims am "alice" "alice@example.com" ["admin"]
                          (3600 * RateLimit.Second) created created created in
  let parse := Examples.tokenParse claims in
  let token := GenerateToken Examples.SignedString am
                             "alice" "alice@example.com" ["admin"]
                             (3600 * RateLimit.Second)
                             created created created in
  readsBack Examples.SignedString Scenario.hmac parse "HS256" claims
            (JWTSecret am)
  /\ token = "HS256.alice.s3cret"
  /\ validateToken Scenario.hmac am (created + 10) (parse token) = Ok claims
  /\ ExpiresAt claims = Some (4600 * RateLimit.Second)
  /\ (exists msg,
         validateToken Scenario.hmac am (4600 * RateLimit.Second)
                       (parse token) = Err msg)
  /\ exists r',
       Handle Scenario.hmac parse am (created + 10)
              (Scenario.withBearer token) = inr r'
       /\ Header_Get (Header r') "X-User-ID" = "alice".
Proof.
  intros am created claims parse token.
  assert (Hread : readsBack Examples.SignedString Scenario.hmac parse
                            "HS256" claims (JWTSecret am)).
  { exists "header.claims". reflexivity. }
  destruct (GenerateToken_round_trip Scenario.hmac parse
              Examples.SignedString am
              "alice" "alice@example.com" ["admin"]
              (3600 * RateLimit.Second) created created created
              (created + 10) Hread) as [Hok [_ [_ Hpass]]].
  destruct (GenerateToken_round_trip Scenario.hmac parse
              Examples.SignedString am
              "alice" "alice@example.com" ["admin"]
              (3600 * RateLimit.Second) created created created
              (4600 * RateLimit.Second) Hread) as [_ [Hexp _]].
  assert (H1 : created <= created + 10) by lia.
  assert (H2 : created + 10
               < NewNumericDate (created + 3600 * RateLimit.Second))
    by (vm_compute; reflexivity).
  split; [exact Hread |]. split; [reflexivity |].
  split; [exact (Hok H1 H2) |]. split; [reflexivity |].
  split; [apply Hexp; vm_compute; discriminate |].
  destruct (Hpass (Scenario.withBearer token) eq_refl eq_refl eq_refl H1 H2)
    as [r' [Hr' [Hid _]]].
  exists r'. split; [exact Hr' | exact Hid].
Defined.

Lemma ValidateRole_checks_the_roles_witness :
  let r := Scenario.request "GET" "localhost" "/admin"
                            [("X-User-Roles", "admin, ops")]
                            "10.0.0.1:51234" in
  Header_Get (Header r) "X-User-Roles" = String.concat "," ["admin"; " ops"]
  /\ ValidateRole "ops" r = inr r
  /\ ValidateRole "root" r = inl (Http.Error "Forbidden" StatusForbidden).
Proof.
  intros r.
  assert (Hh : Header_Get (Header r) "X-User-Roles"
               = String.concat "," ["admin"; " ops"]) by reflexivity.
  split; [exact Hh |]. split; [| reflexivity].
  apply (proj1 (ValidateRole_checks_the_roles "ops" r ["admin"; " ops"] Hh
                  ltac:(repeat constructor) ltac:(discriminate))).
  apply Exists_cons_tl. apply Exists_cons_hd. reflexivity.
Defined.

End AuthTokenFacts.

(* ===================================================================== *)
(** * The hosts of the certificate manager                                *)
(* ===================================================================== *)

Module TLSHostFacts.
Import TLS TLSHosts.

Section Loading.
Variable readKeyPair : CertificateConfig -> option Certificate.

Lemma requestedHost_plain (host : string) :
  lacks ":" host = true -> requestedHost host = host.
Proof.
  intros H. unfold requestedHost.
  pose proof (StringFacts.IndexByte_lacks host ":" H) as E.
  unfold IndexByte in E. rewrite E. reflexivity.
Qed.

(** X16. A host that [ValidateHost] accepts gets an answer at the
    handshake.  For a manager built by [NewManager], a host name that is
    not empty and has no colon, and that [ValidateHost] accepts, the
    certificate callback never answers that there is no certificate: it
    returns the certificate stored for the host, or, when the store has
    none and the host is on the ACME list, hands the handshake to the
    ACME manager. *)
Theorem ValidateHost_resolves :
  forall (c : TLSConfig) (m : Manager) (host : string) (choice : nat),
    NewManager readKeyPair c = Some m ->
    ValidateHost m host = true ->
    host <> "" -> lacks ":" host = true ->
    match GetCertificate m choice host with
    | Found cert => certificates m !! host = Some cert
    | AutoCertManager serverName =>
        serverName = host /\ certificates m !! host = None
        /\ In host (AutoCert_Hosts (AutoCert c))
    | NoCertificate _ => False
    end.
Proof.
  intros c m host choice Hnew Hvalid Hne Hplain.
  unfold NewManager in Hnew.
  destruct (negb (Enabled c)) eqn:Hen.
  - injection Hnew as <-. unfold ValidateHost in Hvalid. cbn [cfg] in Hvalid.
    rewrite Hen in Hvalid. discriminate.
  - destruct (loadManualCertificates readKeyPair (Certificates c) ∅)
      as [store |]; [| discriminate].
    injection Hnew as <-. unfold ValidateHost in Hvalid.
    unfold GetCertificate. rewrite (requestedHost_plain host Hplain).
    cbn [cfg certificates autocertMgr] in *. rewrite Hen in Hvalid.
    destruct (String.eqb_spec host "") as [| _]; [contradiction |].
    destruct (store !! host) as [cert |]; [reflexivity |].
    destruct (AutoCert_Enabled (AutoCert c)); [| discriminate].
    cbn [andb]. split; [reflexivity |]. split; [reflexivity |].
    apply existsb_exists in Hvalid as [x [Hin Heq]].
    apply String.eqb_eq in Heq. subst x. exact Hin.
Qed.

(** X17. A reload rebuilds the store from the configuration.  After a
    reload that succeeds, the store holds for every host the key pair of
    the last configured entry that names it and nothing else, whatever
    it held before; the configuration and the ACME manager are as they
    were; a second reload over the same files changes nothing, and
    neither does the first one on a manager that [NewManager] has just
    built. *)
Theorem ReloadCertificates_rebuilds_the_store :
  forall (m m' : Manager),
    ReloadCertificates readKeyPair m = Some m' ->
    cfg m' = cfg m /\ autocertMgr m' = autocertMgr m
    /\ (forall host : string,
          certificates m' !! host
          = match lastEntryFor (Certificates (cfg m)) host with
            | Some entry => readKeyPair entry
            | None => None
            end)
    /\ ReloadCertificates readKeyPair m' = Some m'
    /\ (forall c : TLSConfig,
          Enabled c = true -> NewManager readKeyPair c = Some m ->
          m' = m).
Proof.
  intros m m' H. unfold ReloadCertificates in H.
  destruct (loadManualCertificates readKeyPair (Certificates (cfg m)) ∅)
    as [store |] eqn:Hload; [| discriminate].
  injection H as <-. cbn [cfg autocertMgr certificates].
  split; [reflexivity |]. split; [reflexivity |]. split.
  - intros host.
    rewrite (TLSFacts.loadManualCertificates_lookup readKeyPair _ _ _ host Hload).
    destruct (lastEntryFor (Certificates (cfg m)) host);
      [reflexivity | apply lookup_empty].
  - split.
    + unfold ReloadCertificates. cbn [cfg autocertMgr]. rewrite Hload.
      reflexivity.
    + intros c Hen Hnew. unfold NewManager in Hnew. rewrite Hen in Hnew.
      cbn [negb] in Hnew.
      destruct (loadManualCertificates readKeyPair (Certificates c) ∅)
        as [store0 |] eqn:Hload0; [| discriminate].
      injection Hnew as <-. cbn [cfg] in Hload. rewrite Hload0 in Hload.
      injection Hload as ->. reflexivity.
Qed.
End Loading.

Lemma ValidateHost_resolves_witness :
  NewManager Scenario.readKeyPair Scenario.tlsConfig
  = Some Scenario.tlsManager
  /\ ValidateHost Scenario.tlsManager "a.example" = true
  /\ ValidateHost Scenario.tlsManager "c.example" = false
  /\ match GetCertificate Scenario.tlsManager 0 "a.example" with
     | Found cert => certificates Scenario.tlsManager !! "a.example" = Some cert
     | AutoCertManager serverName =>
         serverName = "a.example"
         /\ certificates Scenario.tlsManager !! "a.example" = None
         /\ In "a.example" (AutoCert_Hosts (AutoCert Scenario.tlsConfig))
     | NoCertificate _ => False
     end.
Proof.
  split; [reflexivity |]. split; [reflexivity |]. split; [reflexivity |].
  exact (ValidateHost_resolves Scenario.readKeyPair Scenario.tlsConfig
           Scenario.tlsManager "a.example" 0 eq_refl eq_refl
           ltac:(discriminate) eq_refl).
Defined.

Lemma ReloadCertificates_rebuilds_the_store_witness :
  let stale :=
    {| cfg := Scenario.tlsConfig;
       certificates :=
         {[ "old.example" := {| certPEM := "old"; keyPEM := "old" |} ]};
       autocertMgr := false |} in
  ReloadCertificates Scenario.readKeyPair stale = Some Scenario.tlsManager
  /\ certificates Scenario.tlsManager !! "old.example" = None
  /\ certificates Scenario.tlsManager !! "b.example"
     = Scenario.readKeyPair (Scenario.certEntry "b.example").
Proof.
  intros stale.
  assert (H : ReloadCertificates Scenario.readKeyPair stale
              = Some Scenario.tlsManager) by reflexivity.
  split; [exact H |].
  destruct (ReloadCertificates_rebuilds_the_store Scenario.readKeyPair
              stale Scenario.tlsManager H) as [_ [_ [Hstore _]]].
  split; [rewrite Hstore; reflexivity | rewrite Hstore; reflexivity].
Defined.

End TLSHostFacts.

(* ===================================================================== *)
(** * Validated middleware chains                                         *)
(* ===================================================================== *)

Module ChainFacts.
Import Proxy Validate Chains.

Lemma insertByOrder_Permutation (mw : config.MiddlewareChain)
      (sorted : list config.MiddlewareChain) :
  Permutation (insertByOrder mw sorted) (mw :: sorted).
Proof.
  induction sorted as [| x rest IH]; [reflexivity |].
  cbn [insertByOrder]. destruct (config.Order mw <? config.Order x).
  - reflexivity.
  - rewrite IH. apply perm_swap.
Qed.

Lemma sortByOrder_Permutation (chain : list config.MiddlewareChain) :
  Permutation (sortByOrder chain) chain.
Proof.
  unfold sortByOrder. induction chain as [| mw rest IH]; [reflexivity |].
  cbn [fold_right]. rewrite insertByOrder_Permutation, IH. reflexivity.
Qed.

Lemma ascending_cons (mw : config.MiddlewareChain)
      (rest : list config.MiddlewareChain) :
  ascending (mw :: rest) = true
  <-> Forall (fun x => config.Order mw < config.Order x) rest
      /\ ascending rest = true.
Proof.
  cbn [ascending]. rewrite andb_true_iff, forallb_forall, List.Forall_forall.
  split; intros [H1 H2]; (split; [| exact H2]); intros x Hx.
  - apply Z.ltb_lt, H1, Hx.
  - apply Z.ltb_lt, H1, Hx.
Qed.

Lemma insertByOrder_ascending (mw : config.MiddlewareChain)
      (sorted : list config.MiddlewareChain) :
  ascending sorted = true ->
  Forall (fun x => config.Order x <> config.Order mw) sorted ->
  ascending (insertByOrder mw sorted) = true.
Proof.
  induction sorted as [| x rest IH]; intros Hs Hne; [reflexivity |].
  apply ascending_cons in Hs as [Hx Hrest].
  inversion Hne as [| ? ? Hxm Hne']; subst.
  cbn [insertByOrder].
  destruct (config.Order mw <? config.Order x) eqn:E.
  - apply Z.ltb_lt in E. apply ascending_cons. split.
    + constructor; [exact E |].
      eapply List.Forall_impl; [| exact Hx]. cbn. intros a Ha. lia.
    + apply ascending_cons. split; assumption.
  - apply Z.ltb_ge in E. apply ascending_cons. split.
    + rewrite insertByOrder_Permutation. constructor; [lia | exact Hx].
    + apply IH; assumption.
Qed.

Lemma sortByOrder_ascending (chain : list config.MiddlewareChain) :
  NoDup (map config.Order chain) -> ascending (sortByOrder chain) = true.
Proof.
  unfold sortByOrder. induction chain as [| mw rest IH]; intros Hnd;
    [reflexivity |].
  cbn [map] in Hnd. apply NoDup_cons in Hnd as [Hnotin Hnd].
  cbn [fold_right]. apply insertByOrder_ascending; [apply IH; exact Hnd |].
  apply List.Forall_forall. intros x Hx Heq.
  apply Hnotin. apply list_elem_of_In.
  rewrite <- Heq. apply in_map.
  apply (Permutation_in _ (sortByOrder_Permutation rest)). exact Hx.
Qed.

(** Two chains in ascending order with the same entries are equal. *)
Lemma ascending_unique (l1 : list config.MiddlewareChain) :
  forall l2, ascending l1 = true -> ascending l2 = true ->
             Permutation l1 l2 -> l1 = l2.
Proof.
  induction l1 as [| a l1 IH]; intros l2 H1 H2 Hp.
  - apply Permutation_nil in Hp. congruence.
  - destruct l2 as [| b l2].
    { symmetry in Hp. apply Permutation_nil in Hp. discriminate. }
    apply ascending_cons in H1 as [Ha H1].
    apply ascending_cons in H2 as [Hb H2].
    assert (Hab : a = b).
    { assert (Hina : In a (b :: l2)).
      { apply (Permutation_in _ Hp). left. reflexivity. }
      assert (Hinb : In b (a :: l1)).
      { apply (Permutation_in _ (Permutation_sym Hp)). left. reflexivity. }
      destruct Hina as [-> | Hina]; [reflexivity |].
      destruct Hinb as [-> | Hinb]; [reflexivity |].
      rewrite List.Forall_forall in Ha, Hb.
      specialize (Ha _ Hinb). specialize (Hb _ Hina). lia. }
    subst b. f_equal. apply IH; [exact H1 | exact H2 |].
    eapply Permutation_cons_inv. exact Hp.
Qed.

Lemma validateChain_nil (chain : list config.MiddlewareChain) :
  forall (i : Z) (names : gset string) (orders : gset Z),
    validateChain i names orders chain = nil ->
    Forall (fun mw => contains validTypes (config.Type_ mw) = true
                      /\ validateMiddlewareSpecificConfig
                           (config.Type_ mw) (config.Config_ mw) = nil
                      /\ config.Name mw <> ""
                      /\ (config.Order mw ∉ orders)
                      /\ (config.Name mw ∉ names)) chain
    /\ NoDup (map config.Order chain)
    /\ NoDup (map config.Name chain).
Proof.
  induction chain as [| mw rest IH]; intros i names orders H.
  - split; [constructor |]. split; constructor.
  - cbn [validateChain] in H.
    destruct (String.eqb_spec (config.Name mw) "") as [| Hname];
      [discriminate |].
    destruct (bool_decide (config.Name mw ∈ names)) eqn:Hn; [discriminate |].
    destruct (bool_decide (config.Order mw ∈ orders)) eqn:Ho; [discriminate |].
    destruct (contains validTypes (config.Type_ mw)) eqn:Ht; [| discriminate].
    cbn [negb] in H.
    destruct (validateMiddlewareSpecificConfig (config.Type_ mw)
                                               (config.Config_ mw)) eqn:Hv;
      [discriminate |].
    apply bool_decide_eq_false in Hn, Ho.
    destruct (IH _ _ _ H) as [Hall [Hnd1 Hnd2]].
    split; [| split].
    + constructor; [auto |].
      eapply List.Forall_impl; [| exact Hall]. cbn.
      intros x [Hx1 [Hx2 [Hx3 [Hx4 Hx5]]]].
      split; [exact Hx1 |]. split; [exact Hx2 |]. split; [exact Hx3 |].
      split; intros Hin; [apply Hx4 | apply Hx5];
        apply elem_of_union; right; exact Hin.
    + cbn [map]. apply NoDup_cons. split; [| exact Hnd1].
      intros Hin. apply list_elem_of_In in Hin. apply in_map_iff in Hin as [x [Hx Hin]].
      rewrite List.Forall_forall in Hall. destruct (Hall x Hin) as [_ [_ [_ [Hno _]]]].
      apply Hno. rewrite Hx. apply elem_of_union. left.
      apply elem_of_singleton. reflexivity.
    + cbn [map]. apply NoDup_cons. split; [| exact Hnd2].
      intros Hin. apply list_elem_of_In in Hin. apply in_map_iff in Hin as [x [Hx Hin]].
      rewrite List.Forall_forall in Hall. destruct (Hall x Hin) as [_ [_ [_ [_ Hno]]]].
      apply Hno. rewrite Hx. apply elem_of_union. left.
      apply elem_of_singleton. reflexivity.
Qed.

Lemma NewAuthMiddleware_validated (cfg : gmap string any) :
  validateMiddlewareSpecificConfig "auth" cfg = nil ->
  is_Some (Auth.NewAuthMiddleware cfg).
Proof.
  unfold validateMiddlewareSpecificConfig. cbn [String.eqb Ascii.eqb Bool.eqb].
  unfold Auth.NewAuthMiddleware. intros H.
  destruct (as_string (cfg !! "jwt_secret")) as [[| a s] |];
    destruct (as_string (cfg !! "secret_key")) as [[| b k] |];
    try discriminate H; cbn; eexists; reflexivity.
Qed.

Lemma Create_validated (middlewareType : string) (cfg : gmap string any) :
  contains validTypes middlewareType = true ->
  validateMiddlewareSpecificConfig middlewareType cfg = nil ->
  (Create middlewareType cfg = None <-> middlewareType = "cors")
  /\ forall m, Create middlewareType cfg = Some m -> Name m = middlewareType.
Proof.
  intros Ht Hv. unfold contains, validTypes in Ht. cbn [existsb] in Ht.
  rewrite !orb_true_iff in Ht.
  destruct Ht as [Ht | [Ht | [Ht | [Ht | [Ht | Ht]]]]];
    try discriminate Ht; apply String.eqb_eq in Ht; subst middlewareType.
  - split; [split; discriminate |]. intros m [= <-]. reflexivity.
  - split; [split; discriminate |]. intros m [= <-]. reflexivity.
  - destruct (NewAuthMiddleware_validated cfg Hv) as [am Ham].
    unfold Create. cbn [String.eqb Ascii.eqb Bool.eqb]. rewrite Ham.
    split; [split; discriminate |]. intros m [= <-]. reflexivity.
  - split; [split; reflexivity |]. discriminate.
  - split; [split; discriminate |]. intros m [= <-]. reflexivity.
Qed.

Lemma createEnabled_None (l : list config.MiddlewareChain) :
  createEnabled l = None
  <-> exists mw, In mw l /\ config.Enabled mw = true
                 /\ Create (config.Type_ mw) (config.Config_ mw) = None.
Proof.
  induction l as [| mw rest IH]; cbn [createEnabled].
  - split; [discriminate | intros [mw [[] _]]].
  - destruct (config.Enabled mw) eqn:Hen; cbn [negb].
    + destruct (Create (config.Type_ mw) (config.Config_ mw)) as [m |] eqn:Hc.
      * destruct (createEnabled rest) as [ms |] eqn:Hrest; cbn.
        -- split; [discriminate |]. intros [x [[<- | Hin] [Hx Hn]]];
             [congruence |].
           exfalso. assert (Hno : Some ms = None) by (apply IH; exists x; auto).
           discriminate Hno.
        -- split; [intros _ | reflexivity].
           destruct (proj1 IH eq_refl) as [x [Hin Hx]].
           exists x. split; [right; exact Hin | exact Hx].
      * split; [intros _ | reflexivity]. exists mw.
        split; [left; reflexivity |]. split; assumption.
    + rewrite IH. split; intros [x [Hin [Hx Hn]]]; exists x.
      * split; [right; exact Hin |]. split; assumption.
      * destruct Hin as [<- | Hin]; [congruence |]. split; [exact Hin |].
        split; assumption.
Qed.

Lemma createEnabled_names (l : list config.MiddlewareChain) :
  Forall (fun mw => forall m,
              Create (config.Type_ mw) (config.Config_ mw) = Some m ->
              Name m = config.Type_ mw) l ->
  forall ms, createEnabled l = Some ms ->
             map Name ms = map config.Type_ (enabledEntries l).
Proof.
  unfold enabledEntries.
  induction l as [| mw rest IH]; intros Hall ms H; cbn [createEnabled] in H.
  - injection H as <-. reflexivity.
  - inversion Hall as [| ? ? Hmw Hrest]; subst. cbn [List.filter].
    destruct (config.Enabled mw); cbn [negb] in H.
    + destruct (Create (config.Type_ mw) (config.Config_ mw)) as [m |] eqn:Hc;
        [| discriminate].
      destruct (createEnabled rest) as [ms' |] eqn:Hr; [| discriminate].
      cbn in H. injection H as <-. cbn [map].
      rewrite (Hmw m eq_refl), (IH Hrest ms' eq_refl). reflexivity.
    + apply IH; assumption.
Qed.

(** X18. A validated middleware configuration builds, unless it enables
    a cors entry.  For a chain that [validateMiddlewareConfig] accepts,
    [CreateChain] fails exactly when some enabled entry has the type
    cors, which the validator accepts and the factory does not know;
    an auth entry that passed validation always has its secret.  When
    the chain is built, its instances are those of the enabled entries
    in the sorted order, one for each, of the type of the entry. *)
Theorem validated_chain_fails_only_on_cors :
  forall chain : list config.MiddlewareChain,
    validateMiddlewareConfig chain = nil ->
    (CreateChain chain = None
     <-> exists mw, In mw chain /\ config.Enabled mw = true
                    /\ config.Type_ mw = "cors")
    /\ forall ms, CreateChain chain = Some ms ->
                  map Name ms
                  = map config.Type_ (enabledEntries (sortByOrder chain)).
Proof.
  intros chain Hv. unfold validateMiddlewareConfig in Hv.
  destruct (validateChain_nil chain _ _ _ Hv) as [Hall _].
  rewrite List.Forall_forall in Hall.
  pose proof (sortByOrder_Permutation chain) as Hperm.
  unfold CreateChain. split.
  - rewrite createEnabled_None. split.
    + intros [mw [Hin [Hen Hc]]]. exists mw.
      apply (Permutation_in _ Hperm) in Hin.
      destruct (Hall mw Hin) as [Ht [Hs _]].
      split; [exact Hin |]. split; [exact Hen |].
      apply (proj1 (Create_validated _ _ Ht Hs)). exact Hc.
    + intros [mw [Hin [Hen Hc]]]. exists mw.
      destruct (Hall mw Hin) as [Ht [Hs _]].
      split; [apply (Permutation_in _ (Permutation_sym Hperm)); exact Hin |].
      split; [exact Hen |].
      apply (proj1 (Create_validated _ _ Ht Hs)). exact Hc.
  - apply createEnabled_names. apply List.Forall_forall. intros mw Hin.
    apply (Permutation_in _ Hperm) in Hin.
    destruct (Hall mw Hin) as [Ht [Hs _]].
    apply (proj2 (Create_validated _ _ Ht Hs)).
Qed.

(** X19. The order of a chain is given by the [order] fields, not by
    the position of the entries in the file.  For a chain that the
    validator accepts, the sorted chain is in strictly ascending order
    and has the same entries, and every rearrangement of the
    configuration sorts to the same chain and builds the same
    instances. *)
Theorem the_chain_follows_the_orders :
  forall chain shuffled : list config.MiddlewareChain,
    validateMiddlewareConfig chain = nil ->
    Permutation chain shuffled ->
    ascending (sortByOrder chain) = true
    /\ Permutation (sortByOrder chain) chain
    /\ sortByOrder shuffled = sortByOrder chain
    /\ CreateChain shuffled = CreateChain chain.
Proof.
  intros chain shuffled Hv Hp. unfold validateMiddlewareConfig in Hv.
  destruct (validateChain_nil chain _ _ _ Hv) as [_ [Hnd _]].
  assert (Hnd' : NoDup (map config.Order shuffled)).
  { pose proof (Permutation_map config.Order Hp) as Hpm.
    rewrite <- Hpm. exact Hnd. }
  pose proof (sortByOrder_ascending chain Hnd) as Ha.
  assert (E : sortByOrder shuffled = sortByOrder chain).
  { apply ascending_unique;
      [apply sortByOrder_ascending; exact Hnd' | exact Ha |].
    rewrite !sortByOrder_Permutation. symmetry. exact Hp. }
  split; [exact Ha |]. split; [apply sortByOrder_Permutation |].
  split; [exact E |]. unfold CreateChain. rewrite E. reflexivity.
Qed.

Lemma validated_chain_fails_only_on_cors_witness :
  let chain := [Examples.rateLimitSecond; Examples.corsEntry true;
                Scenario.authEntry] in
  let quiet := [Examples.rateLimitSecond; Examples.corsEntry false;
                Scenario.authEntry] in
  validateMiddlewareConfig chain = nil
  /\ CreateChain chain = None
  /\ validateMiddlewareConfig quiet = nil
  /\ map Name (default [] (CreateChain quiet)) = ["auth"; "rate_limit"].
Proof.
  intros chain quiet.
  assert (H : validateMiddlewareConfig chain = nil) by (vm_compute; reflexivity).
  split; [exact H |]. split.
  - apply (proj1 (validated_chain_fails_only_on_cors chain H)).
    exists (Examples.corsEntry true).
    split; [right; left; reflexivity | split; reflexivity].
  - split; vm_compute; reflexivity.
Defined.

Lemma the_chain_follows_the_orders_witness :
  let chain := [Examples.rateLimitSecond; Scenario.authEntry] in
  let shuffled := [Scenario.authEntry; Examples.rateLimitSecond] in
  validateMiddlewareConfig chain = nil
  /\ Permutation chain shuffled
  /\ sortByOrder chain = shuffled
  /\ CreateChain shuffled = CreateChain chain.
Proof.
  intros chain shuffled.
  assert (H : validateMiddlewareConfig chain = nil) by (vm_compute; reflexivity).
  assert (Hp : Permutation chain shuffled) by apply perm_swap.
  split; [exact H |]. split; [exact Hp |]. split; [reflexivity |].
  apply (the_chain_follows_the_orders chain shuffled H Hp).
Defined.

End ChainFacts.

(* ===================================================================== *)
(** * The main handler and the state of the server                        *)
(* ===================================================================== *)

Module ProxyFacts.
Import Proxy ProxyState.

Section Rewrite.
Variable regexp_ReplaceAllString : string -> string -> string -> option string.

Lemma HasPrefix_app (p r : string) : HasPrefix (p ++ r) p = true.
Proof. apply StringFacts.prefix_app. Qed.

Lemma setPath_back (r : Request) (p : string) :
  setPath (setPath r p) (Path r) = r.
Proof. destruct r. reflexivity. Qed.

Lemma HasPrefix_nonempty (s : string) : HasPrefix s "/" = true -> s <> "".
Proof. intros H ->. discriminate H. Qed.

Lemma applyRewrite_prefixes (r : Request) (strip add rest : string) :
  strip <> "" -> rest <> "" -> Path r = strip ++ rest ->
  applyRewrite regexp_ReplaceAllString r
    {| config.StripPrefix := strip; config.AddPrefix := add;
       config.Regex := ""; config.Replacement := "" |}
  = Some (setPath r (if String.eqb add "" then rest
                     else add ++ (if HasPrefix rest "/" then rest
                                  else "/" ++ rest))).
Proof.
  intros Hs Hr Hp. unfold applyRewrite.
  cbn [config.StripPrefix config.AddPrefix config.Regex config.Replacement].
  rewrite Hp. rewrite HasPrefix_app.
  rewrite StringFacts.TrimPrefix_app.
  destruct (String.eqb_spec strip "") as [| _]; [contradiction |].
  destruct (String.eqb_spec rest "") as [| _]; [contradiction |].
  cbn [negb andb String.eqb].
  destruct (String.eqb add ""); cbn [negb]; [reflexivity |].
  destruct (HasPrefix rest "/"); reflexivity.
Qed.

(** X20. Stripping and adding a prefix.  For a request whose path is a
    non-empty prefix followed by a rest, the rewrite that only strips
    the prefix leaves the rest as the path, or "/" when the rest is
    empty (the rest need not start at a segment boundary).  When the
    rest starts with a slash, stripping the prefix and adding another
    gives the other prefix followed by the rest, and the opposite
    rewrite, which strips the other prefix and adds the first, gives the
    request back as it was. *)
Theorem applyRewrite_prefix_round_trip :
  forall (r : Request) (strip rest : string),
    strip <> "" -> Path r = strip ++ rest ->
    applyRewrite regexp_ReplaceAllString r
      {| config.StripPrefix := strip; config.AddPrefix := "";
         config.Regex := ""; config.Replacement := "" |}
    = Some (setPath r (if String.eqb rest "" then "/" else rest))
    /\ forall add : string,
         add <> "" -> HasPrefix rest "/" = true ->
         applyRewrite regexp_ReplaceAllString r
           {| config.StripPrefix := strip; config.AddPrefix := add;
              config.Regex := ""; config.Replacement := "" |}
         = Some (setPath r (add ++ rest))
         /\ applyRewrite regexp_ReplaceAllString (setPath r (add ++ rest))
              {| config.StripPrefix := add; config.AddPrefix := strip;
                 config.Regex := ""; config.Replacement := "" |}
            = Some r.
Proof.
  intros r strip rest Hs Hp. split.
  - unfold applyRewrite.
    cbn [config.StripPrefix config.AddPrefix config.Regex config.Replacement].
    rewrite Hp. rewrite HasPrefix_app.
    rewrite StringFacts.TrimPrefix_app.
    destruct (String.eqb_spec strip "") as [| _]; [contradiction |].
    reflexivity.
  - intros add Ha Hrest.
    pose proof (HasPrefix_nonempty rest Hrest) as Hne. split.
    + rewrite (applyRewrite_prefixes r strip add rest Hs Hne Hp).
      destruct (String.eqb_spec add "") as [| _]; [contradiction |].
      rewrite Hrest. reflexivity.
    + rewrite (applyRewrite_prefixes (setPath r (add ++ rest)) add strip rest
                 Ha Hne eq_refl).
      destruct (String.eqb_spec strip "") as [| _]; [contradiction |].
      rewrite Hrest. rewrite <- Hp. destruct r. reflexivity.
Qed.

End Rewrite.

Lemma headerResponseWriter_app (headers : gmap string string)
      (before after : list WOp) :
  headerResponseWriter headers (before ++ after)
  = (headerResponseWriter headers before
     ++ headerResponseWriter headers after)%list.
Proof. unfold headerResponseWriter. apply flat_map_app. Qed.

Lemma sent_status_sets (l : list (string * string)) (rest : list WOp) :
  sent_status (map (fun kv => SetHeader (fst kv) (snd kv)) l ++ rest)
  = sent_status rest
  /\ sent_body (map (fun kv => SetHeader (fst kv) (snd kv)) l ++ rest)
     = sent_body rest
  /\ statuses (map (fun kv => SetHeader (fst kv) (snd kv)) l ++ rest)
     = statuses rest.
Proof.
  induction l as [| kv l IH]; [repeat split |]. exact IH.
Qed.

(** X21. The headers of a route are set before the status is written,
    and nothing else changes.  Through the writer of the headers
    middleware the status line, the body and the sequence of status
    codes are those of the wrapped handler; every [WriteHeader] call of
    the handler is preceded by one [Set] for each configured header; and
    a handler that never calls [WriteHeader] (it only writes a body, or
    nothing) is passed through untouched, so its answer carries none of
    the route's headers. *)
Theorem headerResponseWriter_sets_before_the_status :
  forall (headers : gmap string string) (ops : list WOp),
    sent_status (headerResponseWriter headers ops) = sent_status ops
    /\ sent_body (headerResponseWriter headers ops) = sent_body ops
    /\ statuses (headerResponseWriter headers ops) = statuses ops
    /\ (statuses ops = [] -> headerResponseWriter headers ops = ops)
    /\ (forall (before after : list WOp) (statusCode : Z),
          ops = (before ++ WriteHeader statusCode :: after)%list ->
          headerResponseWriter headers ops
          = (headerResponseWriter headers before
             ++ map (fun kv => SetHeader (fst kv) (snd kv))
                    (map_to_list headers)
             ++ WriteHeader statusCode
             :: headerResponseWriter headers after)%list
          /\ forall key value,
               headers !! key = Some value ->
               In (SetHeader key value)
                  (map (fun kv => SetHeader (fst kv) (snd kv))
                       (map_to_list headers))).
Proof.
  intros headers ops.
  assert (Hmain : sent_status (headerResponseWriter headers ops)
                  = sent_status ops
                  /\ sent_body (headerResponseWriter headers ops)
                     = sent_body ops
                  /\ statuses (headerResponseWriter headers ops)
                     = statuses ops
                  /\ (statuses ops = [] ->
                      headerResponseWriter headers ops = ops)).
  { induction ops as [| op ops [IH1 [IH2 [IH3 IH4]]]]; [repeat split |].
    change (headerResponseWriter headers (op :: ops))
      with ((match op with
             | WriteHeader statusCode =>
                 (map (fun kv => SetHeader (fst kv) (snd kv))
                      (map_to_list headers) ++ [WriteHeader statusCode])%list
             | _ => [op]
             end) ++ headerResponseWriter headers ops)%list.
    destruct op as [k v | k | code | data | msg]; cbn [app].
    - cbn [sent_status sent_body statuses]. repeat split; try assumption.
      intros H. rewrite (IH4 H). reflexivity.
    - cbn [sent_status sent_body statuses]. repeat split; try assumption.
      intros H. rewrite (IH4 H). reflexivity.
    - rewrite <- app_assoc. cbn [app].
      destruct (sent_status_sets (map_to_list headers)
                  (WriteHeader code :: headerResponseWriter headers ops))
        as [E1 [E2 E3]].
      rewrite E1, E2, E3. cbn [sent_status sent_body statuses].
      rewrite IH1.
      repeat split; try assumption; try (f_equal; assumption).
      discriminate.
    - cbn [sent_status sent_body statuses]. repeat split; try assumption.
      + rewrite IH2. reflexivity.
      + intros H. rewrite (IH4 H). reflexivity.
    - cbn [sent_status sent_body statuses]. repeat split; try assumption.
      intros H. rewrite (IH4 H). reflexivity. }
  destruct Hmain as [H1 [H2 [H3 H4]]].
  split; [exact H1 |]. split; [exact H2 |]. split; [exact H3 |].
  split; [exact H4 |].
  intros before after statusCode ->. split.
  - rewrite headerResponseWriter_app.
    change (headerResponseWriter headers (WriteHeader statusCode :: after))
      with ((map (fun kv => SetHeader (fst kv) (snd kv)) (map_to_list headers)
             ++ [WriteHeader statusCode])
            ++ headerResponseWriter headers after)%list.
    rewrite <- app_assoc. reflexivity.
  - intros key value Hlk.
    apply (in_map (fun kv => SetHeader (fst kv) (snd kv))
                  (map_to_list headers) (key, value)).
    apply list_elem_of_In. apply elem_of_map_to_list. exact Hlk.
Qed.

(** ** What a chain and the retry loop do to the state *)

Section Invariants.

Context {S : Type}.
Variable clock : S -> Z.
Variable hmac : string -> string -> string -> string.
Variable parse : string -> Auth.TokenString.
Variable compressedResponseWriter :
  gmap string any -> Request -> list WOp -> list WOp.

(** [Q n st]: the state [st] has seen [n] calls. *)
Variable Q : nat -> S -> Prop.

Lemma Then_calls_once (handler : @Handler S) :
  (forall n st r, Q n st -> Q (Datatypes.S n) (snd (fst (handler st r)))) ->
  forall (middlewares : list Middleware) (n : nat) (st : S) (r : Request),
    Q n st ->
    let st' := snd (fst (Then clock hmac parse compressedResponseWriter
                              middlewares handler st r)) in
    Q n st' \/ Q (Datatypes.S n) st'.
Proof.
  intros Hh. induction middlewares as [| m rest IH]; intros n st r Hq.
  - cbn [Then]. specialize (Hh n st r Hq).
    destruct (handler st r) as [[ops st1] r1]. right. exact Hh.
  - destruct m as [c | rlm | am | c | h]; cbn [Then].
    + specialize (IH n st r Hq). cbv zeta in IH.
      destruct (Then _ _ _ _ rest handler st r) as [[[ops rest'] st1] r1].
      exact IH.
    + destruct (RateLimit.allow_request rlm (clock st) r) as [ok rlm'].
      destruct ok; [| left; exact Hq].
      specialize (IH n st r Hq). cbv zeta in IH.
      destruct (Then _ _ _ _ rest handler st r) as [[[ops rest'] st1] r1].
      exact IH.
    + destruct (Auth.Handle hmac parse am (clock st) r) as [ops | r1];
        [left; exact Hq |].
      specialize (IH n st r1 Hq). cbv zeta in IH.
      destruct (Then _ _ _ _ rest handler st r1) as [[[ops rest'] st1] r2].
      exact IH.
    + specialize (IH n st r Hq). cbv zeta in IH.
      destruct (Then _ _ _ _ rest handler st r) as [[[ops rest'] st1] r1].
      exact IH.
    + specialize (IH n st r Hq). cbv zeta in IH.
      destruct (Then _ _ _ _ rest handler st r) as [[[ops rest'] st1] r1].
      exact IH.
Qed.

Lemma retryLoop_calls_bound (Sleep : Z -> S -> S) (handler : @Handler S)
      (retryPolicy : config.RetryPolicy) :
  (forall n d st, Q n st -> Q n (Sleep d st)) ->
  (forall n st r, Q n st ->
                  Q n (snd (fst (handler st r)))
                  \/ Q (Datatypes.S n) (snd (fst (handler st r)))) ->
  forall (fuel : nat) (attempt : Z) (n : nat) (st : S) (r : Request),
    Q n st ->
    exists k : nat,
      (k <= fuel)%nat
      /\ Q (n + k)%nat
           (snd (fst (fst (retryLoop Sleep fuel attempt handler retryPolicy
                                     st r)))).
Proof.
  intros Hsleep Hh. induction fuel as [| fuel IH]; intros attempt n st r Hq.
  - exists O. split; [lia |]. rewrite Nat.add_0_r. exact Hq.
  - cbn [retryLoop]. specialize (Hh n st r Hq).
    destruct (handler st r) as [[ops st1] r1]. cbn [fst snd] in Hh.
    destruct (rw_calls _ ops) as [out rw].
    assert (Hone : exists k : nat, (k <= 1)%nat /\ Q (n + k)%nat st1).
    { destruct Hh as [Hh | Hh].
      - exists O. split; [lia |]. rewrite Nat.add_0_r. exact Hh.
      - exists 1%nat. split; [lia |]. rewrite Nat.add_1_r. exact Hh. }
    destruct (existsb is_abort ops).
    { destruct Hone as [k [Hk Hq1]]. exists k. split; [lia | exact Hq1]. }
    destruct ((statusCode rw <? 500)
              || (attempt =? config.Attempts retryPolicy)).
    { destruct Hone as [k [Hk Hq1]]. exists k. split; [lia | exact Hq1]. }
    destruct Hone as [k [Hk Hq1]].
    assert (Hq2 : Q (n + k)%nat
                    (if attempt <? config.Attempts retryPolicy
                     then Sleep (config.Backoff retryPolicy) st1 else st1)).
    { destruct (attempt <? config.Attempts retryPolicy);
        [apply Hsleep |]; exact Hq1. }
    destruct (IH (attempt + 1) (n + k)%nat _ r1 Hq2) as [k' [Hk' Hq3]].
    destruct (retryLoop Sleep fuel (attempt + 1) handler retryPolicy _ r1)
      as [[[more st3] r3] calls].
    exists (k + k')%nat. split; [lia |]. rewrite Nat.add_assoc. exact Hq3.
Qed.

End Invariants.

Lemma index_at_Ok (healthy : list LoadBalancer.Target) (i : Z)
      (t : LoadBalancer.Target) :
  LoadBalancer.index_at healthy i = Ok t -> In t healthy.
Proof.
  unfold LoadBalancer.index_at. destruct (i <? 0); [discriminate |].
  destruct (healthy !! Z.to_nat i) as [x |] eqn:Hlk; [| discriminate].
  intros [= <-]. apply list_elem_of_In. eapply list_elem_of_lookup_2.
  exact Hlk.
Qed.

Lemma SelectTarget_Ok (lb : LoadBalancer.LoadBalancer)
      (targets : list LoadBalancer.Target) (req : Request)
      (t : LoadBalancer.Target) :
  fst (LoadBalancer.SelectTarget lb targets req) = Ok t ->
  In t targets /\ LoadBalancer.IsHealthy t = true.
Proof.
  intros H. apply LoadBalancerFacts.healthyTargets_In.
  destruct lb as [current | |]; cbn [LoadBalancer.SelectTarget] in H.
  - unfold LoadBalancer.RoundRobin_SelectTarget in H.
    destruct (len targets =? 0); [discriminate |].
    destruct (len (LoadBalancer.healthyTargets targets) =? 0);
      [discriminate |].
    destruct (LoadBalancer.index_at _ _) as [x | |] eqn:E; cbn in H;
      try discriminate.
    injection H as <-. eapply index_at_Ok. exact E.
  - cbn [fst] in H. unfold LoadBalancer.LeastConnections_SelectTarget in H.
    destruct (len targets =? 0); [discriminate |].
    destruct (len (LoadBalancer.healthyTargets targets) =? 0);
      [discriminate |].
    destruct (fst (LoadBalancer.least_loop _)) as [x |] eqn:E;
      [| discriminate].
    injection H as <-. unfold LoadBalancer.least_loop in E.
    apply LoadBalancerFacts.least_loop_from in E as [E | E];
      [discriminate | exact E].
  - cbn [fst] in H. unfold LoadBalancer.IPHash_SelectTarget in H.
    destruct (len targets =? 0); [discriminate |].
    destruct (len (LoadBalancer.healthyTargets targets) =? 0);
      [discriminate |].
    destruct (uint32 _ =? 0); [discriminate |].
    eapply index_at_Ok. exact H.
Qed.

Section Forwarding.

Variable B : Type.
Variable url_Parse : string -> option string.
Variable regexp_ReplaceAllString : string -> string -> string -> option string.
Variable ReverseProxy : string -> World B -> Request -> list WOp * World B.
Variable hmac : string -> string -> string -> string.
Variable parse : string -> Auth.TokenString.
Variable compressedResponseWriter :
  gmap string any -> Request -> list WOp -> list WOp.

(** What a selection consists of. *)
Lemma selectTarget_inr (s : server) (r : Request) (sel : selection) :
  selectTarget url_Parse regexp_ReplaceAllString s r = inr sel ->
  Router.findMatchingRoute (config.Routes (cfg s)) r = Some (sel_route sel)
  /\ exists upstream lb,
       config.Upstreams (cfg s) !! config.Upstream (sel_route sel)
       = Some upstream
       /\ loadBalancers s !! config.Upstream (sel_route sel) = Some lb
       /\ sel_targets sel = createTargets url_Parse (healthChecker s) upstream
       /\ sel_targets sel <> []
       /\ (sel_result sel, sel_lb sel)
          = LoadBalancer.SelectTarget lb (sel_targets sel) (sel_request sel).
Proof.
  unfold selectTarget. intros H.
  destruct (Router.findMatchingRoute _ r) as [route |]; [| discriminate].
  destruct (applyRewrite _ r _) as [r1 |]; [| discriminate].
  destruct (config.Upstreams (cfg s) !! config.Upstream route)
    as [upstream |] eqn:Hup; [| discriminate].
  destruct (loadBalancers s !! config.Upstream route) as [lb |] eqn:Hlb;
    [| discriminate].
  destruct (len (createTargets url_Parse (healthChecker s) upstream) =? 0)
    eqn:Hlen; [discriminate |].
  destruct (LoadBalancer.SelectTarget lb _ r1) as [result lb'] eqn:Hsel.
  injection H as <-. cbn [sel_route sel_targets sel_result sel_lb sel_request].
  split; [reflexivity |]. exists upstream, lb.
  split; [exact Hup |]. split; [exact Hlb |]. split; [reflexivity |].
  split; [| symmetry; exact Hsel].
  intros E. rewrite E in Hlen. discriminate.
Qed.

Lemma selected_is_healthy (s : server) (r : Request) (sel : selection)
      (selected : LoadBalancer.Target) :
  selectTarget url_Parse regexp_ReplaceAllString s r = inr sel ->
  sel_result sel = Ok selected ->
  healthyTargetURL url_Parse s (LoadBalancer.URL selected).
Proof.
  intros Hsel Hok.
  destruct (selectTarget_inr s r sel Hsel)
    as [_ [upstream [lb [Hup [_ [Htargets [_ Hres]]]]]]].
  assert (Hfst : fst (LoadBalancer.SelectTarget lb (sel_targets sel)
                                                (sel_request sel))
                 = Ok selected).
  { rewrite <- Hres. exact Hok. }
  apply SelectTarget_Ok in Hfst as [Hin Hhealthy].
  rewrite Htargets in Hin. unfold createTargets in Hin.
  apply list_elem_of_In, list_elem_of_omap in Hin as [tc [Htc Hc]].
  exists (config.Upstream (sel_route sel)), upstream, tc.
  split; [exact Hup |]. split; [apply list_elem_of_In; exact Htc |].
  unfold createTarget in Hc.
  destruct (url_Parse (config.URL tc)) as [url |]; [| discriminate].
  injection Hc as <-. cbn [LoadBalancer.URL LoadBalancer.IsHealthy] in *.
  split; [reflexivity | exact Hhealthy].
Qed.

Lemma UpdateTarget_URL (lb : LoadBalancer.LoadBalancer)
      (t : LoadBalancer.Target) (delta : Z) :
  LoadBalancer.URL (LoadBalancer.UpdateTarget lb t delta)
  = LoadBalancer.URL t.
Proof. destruct lb; reflexivity. Qed.

Lemma routeHandler_contacts (target : LoadBalancer.Target)
      (log0 : list string) (n : nat)
      (st : list Middleware * World (list string * B)) (r : Request) :
  contacted (snd st) = (repeat (LoadBalancer.URL target) n ++ log0)%list ->
  let st' := snd (fst (routeHandler (list string * B)
                         (recording ReverseProxy) hmac parse
                         compressedResponseWriter target st r)) in
  contacted (snd st') = (repeat (LoadBalancer.URL target) n ++ log0)%list
  \/ contacted (snd st')
     = (repeat (LoadBalancer.URL target) (Datatypes.S n) ++ log0)%list.
Proof.
  intros Hq. unfold routeHandler.
  pose proof (Then_calls_once now hmac parse compressedResponseWriter
                (fun k w => contacted w
                            = (repeat (LoadBalancer.URL target) k ++ log0)%list)
                (fun w r0 =>
                   let '(ops, w1) :=
                     recording ReverseProxy (LoadBalancer.URL target) w r0 in
                   (ops, w1, r0))) as HT.
  cbv beta in HT.
  specialize (HT ltac:(intros k w r0 Hk; unfold recording;
                       destruct (ReverseProxy _ _ r0) as [ops w1];
                       cbn [fst snd contacted backends];
                       unfold contacted in Hk; rewrite Hk; reflexivity)
                 (fst st) n (snd st) r Hq).
  cbv zeta in HT.
  destruct (Then _ _ _ _ (fst st) _ (snd st) r) as [[[ops chain'] w'] r'].
  exact HT.
Qed.

(** X22. The proxy forwards only to a target that is healthy.  With a
    reverse proxy that notes the URL it is asked to forward to, one run
    of the main handler adds to the log some number of copies of one
    URL.  If the number is not zero, that URL is the parsed URL of a
    configured target which the health checker reports healthy at the
    time of the request.  Without a retry policy there is at most one
    copy, and with a policy of [n] attempts at most [n + 1]. *)
Theorem mainHandler_forwards_to_healthy_targets :
  forall (s : server) (w : World (list string * B)) (r : Request),
    let result := mainHandler (list string * B) url_Parse
                              regexp_ReplaceAllString (recording ReverseProxy)
                              hmac parse compressedResponseWriter (s, w) r in
    let w' := snd (snd (fst result)) in
    exists (url : string) (n : nat),
      contacted w' = (repeat url n ++ contacted w)%list
      /\ (n <> O -> healthyTargetURL url_Parse s url)
      /\ ((n <= 1)%nat
          \/ exists route,
               Router.findMatchingRoute (config.Routes (cfg s)) r = Some route
               /\ 0 < config.Attempts (config.Retry route)
               /\ Z.of_nat n <= config.Attempts (config.Retry route) + 1).
Proof.
  intros s w r result w'. subst w' result. unfold mainHandler.
  destruct (selectTarget url_Parse regexp_ReplaceAllString s r)
    as [ops | sel] eqn:Hsel.
  { exists "", O. cbn. split; [reflexivity |]. split; [congruence | left; lia]. }
  destruct (sel_result sel) as [selected | msg | msg] eqn:Hres.
  2:{ exists "", O. cbn. split; [reflexivity |].
      split; [congruence | left; lia]. }
  2:{ exists "", O. cbn. split; [reflexivity |].
      split; [congruence | left; lia]. }
  pose proof (selected_is_healthy s r sel selected Hsel Hres) as Hhealthy.
  destruct (selectTarget_inr s r sel Hsel) as [Hroute _].
  set (target := LoadBalancer.UpdateTarget (sel_lb sel) selected 1).
  assert (Hurl : LoadBalancer.URL target = LoadBalancer.URL selected)
    by apply UpdateTarget_URL.
  exists (LoadBalancer.URL selected).
  destruct (0 <? config.Attempts (config.Retry (sel_route sel))) eqn:Hretry.
  - apply Z.ltb_lt in Hretry. unfold retryHandler_ServeHTTP.
    destruct (retryLoop_calls_bound
                (fun k (st : list Middleware * World (list string * B)) =>
                   contacted (snd st)
                   = (repeat (LoadBalancer.URL target) k ++ contacted w)%list)
                (fun d cw => (fst cw, sleepWorld (list string * B) d (snd cw)))
                (routeHandler (list string * B) (recording ReverseProxy)
                              hmac parse compressedResponseWriter target)
                (config.Retry (sel_route sel))
                ltac:(intros k d st Hk; exact Hk)
                ltac:(intros k st r0 Hk;
                      exact (routeHandler_contacts target (contacted w) k
                                                   st r0 Hk))
                (Z.to_nat (config.Attempts (config.Retry (sel_route sel)) + 1))
                0 O
                (applyRouteMiddleware (cfg s) (sel_route sel), w)
                (sel_request sel) eq_refl) as [k [Hk Hq]].
    destruct (retryLoop _ _ _ _ _ _ _) as [[[ops st'] r'] calls].
    cbn [fst snd] in Hq |- *. exists k. rewrite <- Hurl.
    split; [exact Hq |]. split; [intros _; rewrite Hurl; exact Hhealthy |].
    right. exists (sel_route sel). split; [exact Hroute |].
    split; [exact Hretry | lia].
  - pose proof (routeHandler_contacts target (contacted w) O
                  (applyRouteMiddleware (cfg s) (sel_route sel), w)
                  (sel_request sel) eq_refl) as Hq.
    cbv zeta in Hq.
    destruct (routeHandler _ _ _ _ _ target _ (sel_request sel))
      as [[ops st'] r'].
    cbn [fst snd] in Hq |- *. rewrite <- Hurl.
    destruct Hq as [Hq | Hq]; [exists O | exists 1%nat];
      (split; [exact Hq |]); (split; [| left; lia]);
      intros _; rewrite Hurl; exact Hhealthy.
Qed.

Lemma balanced_initialize (c : config.Config) (hc : Health.checker)
      (chain : list Middleware) :
  balanced {| cfg := c; healthChecker := hc;
              loadBalancers := initializeLoadBalancers c;
              globalChain := chain |}.
Proof.
  intros name. unfold initializeLoadBalancers. cbn [loadBalancers cfg].
  rewrite lookup_fmap. apply fmap_is_Some.
Qed.

Lemma balanced_mainHandler (s : server) (w : World B) (r : Request) :
  balanced s ->
  balanced (fst (snd (fst (mainHandler B url_Parse regexp_ReplaceAllString
                                       ReverseProxy hmac parse
                                       compressedResponseWriter (s, w) r)))).
Proof.
  intros Hb. unfold mainHandler.
  destruct (selectTarget url_Parse regexp_ReplaceAllString s r)
    as [ops | sel] eqn:Hsel; [exact Hb |].
  destruct (selectTarget_inr s r sel Hsel)
    as [_ [upstream [lb [Hup [Hlb _]]]]].
  assert (Hb1 : balanced (setLoadBalancer s (config.Upstream (sel_route sel))
                                          (sel_lb sel))).
  { intros name. unfold setLoadBalancer. cbn [loadBalancers cfg].
    destruct (decide (name = config.Upstream (sel_route sel))) as [-> | Hne].
    - rewrite lookup_insert_eq, Hup. split; intros _; eexists; reflexivity.
    - rewrite lookup_insert_ne by congruence. apply Hb. }
  destruct (sel_result sel) as [selected | msg | msg]; try exact Hb1.
  destruct (0 <? config.Attempts (config.Retry (sel_route sel))).
  - destruct (retryHandler_ServeHTTP _ _ _ _ _) as [[[ops st'] r'] calls].
    exact Hb1.
  - destruct (routeHandler _ _ _ _ _ _ _ _) as [[ops st'] r'].
    exact Hb1.
Qed.

(** X23. Every upstream has its load balancer.  After [Start], and
    after [UpdateConfig], the load balancers are exactly those of the
    upstreams of the configuration; [UpdateConfig] makes each of them
    anew from the strategy of its upstream, so a round-robin counter
    starts again at zero, and it keeps the global chain that [Start]
    built.  The main handler and the handler behind the global chain
    keep the property, and under it no request is answered "Load
    balancer not found". *)
Theorem load_balancers_follow_the_upstreams :
  (forall (c : config.Config) (hc : Health.checker) (s : server),
      Start c hc = Some s -> balanced s)
  /\ (forall (s : server) (c : config.Config),
         balanced (UpdateConfig s c)
         /\ globalChain (UpdateConfig s c) = globalChain s
         /\ forall name lb,
              loadBalancers (UpdateConfig s c) !! name = Some lb ->
              exists upstream,
                config.Upstreams c !! name = Some upstream
                /\ lb = LoadBalancer.Create (config.LoadBalancer upstream))
  /\ (forall (s : server) (w : World B) (r : Request),
         balanced s ->
         balanced (fst (snd (fst (mainHandler B url_Parse
                                    regexp_ReplaceAllString ReverseProxy
                                    hmac parse compressedResponseWriter
                                    (s, w) r))))
         /\ balanced (snd (fst (ServeHTTP B url_Parse regexp_ReplaceAllString
                                          ReverseProxy hmac parse
                                          compressedResponseWriter s w r)))
         /\ selectTarget url_Parse regexp_ReplaceAllString s r
            <> inl (Http.Error "Load balancer not found"
                               StatusServiceUnavailable)).
Proof.
  split; [| split].
  - intros c hc s H. unfold Start in H.
    destruct (CreateChain (config.Middlewares c)) as [chain |];
      [| discriminate].
    injection H as <-. apply balanced_initialize.
  - intros s c. split; [apply balanced_initialize |].
    split; [reflexivity |]. intros name lb H.
    unfold UpdateConfig, initializeLoadBalancers in H. cbn [loadBalancers] in H.
    rewrite lookup_fmap in H.
    destruct (config.Upstreams c !! name) as [upstream |]; [| discriminate].
    injection H as <-. exists upstream. split; reflexivity.
  - intros s w r Hb. split; [apply balanced_mainHandler; exact Hb |]. split.
    + unfold ServeHTTP.
      pose proof (Then_calls_once (fun st : server * World B => now (snd st))
                    hmac parse compressedResponseWriter
                    (fun (_ : nat) (st : server * World B) => balanced (fst st))
                    (mainHandler B url_Parse regexp_ReplaceAllString
                                 ReverseProxy hmac parse
                                 compressedResponseWriter)) as HT.
      cbv beta in HT.
      specialize (HT ltac:(intros k [s0 w0] r0 Hk;
                           exact (balanced_mainHandler s0 w0 r0 Hk))
                     (globalChain s) O (s, w) r Hb).
      cbv zeta in HT.
      destruct (Then _ _ _ _ (globalChain s) _ (s, w) r)
        as [[[ops chain'] st'] r'].
      cbn [fst snd] in HT |- *.
      assert (Hst : balanced (fst st')) by (destruct HT; assumption).
      intros name. cbn [loadBalancers cfg]. apply Hst.
    + unfold selectTarget.
      destruct (Router.findMatchingRoute _ r) as [route |];
        [| cbv; discriminate].
      destruct (applyRewrite _ r _) as [r1 |]; [| cbv; discriminate].
      destruct (config.Upstreams (cfg s) !! config.Upstream route)
        as [upstream |] eqn:Hup; [| cbv; discriminate].
      destruct (loadBalancers s !! config.Upstream route) as [lb |] eqn:Hlb.
      * destruct (len _ =? 0); [cbv; discriminate |].
        destruct (LoadBalancer.SelectTarget lb _ r1). discriminate.
      * exfalso. assert (Hs : is_Some (loadBalancers s !! config.Upstream route)).
        { apply Hb. rewrite Hup. eexists. reflexivity. }
        rewrite Hlb in Hs. destruct Hs as [x Hx]. discriminate.
Qed.

End Forwarding.

Section Validated.

Variable url_Parse : string -> Validate.URL + string.
Variable regexp_Compile : string -> Validate.error.
Variable regexp_ReplaceAllString : string -> string -> string -> option string.

Lemma validateRules_nil (upstreams : gmap string config.UpstreamService)
      (rules : list config.RouteRule) :
  forall i, Validate.validateRules regexp_Compile i rules upstreams
            = Validate.nil ->
            Forall (fun rule => Validate.validateRouteRule regexp_Compile
                                  rule upstreams = Validate.nil) rules.
Proof.
  induction rules as [| rule rest IH]; intros i H; [constructor |].
  cbn [Validate.validateRules] in H.
  destruct (Validate.validateRouteRule regexp_Compile rule upstreams) eqn:E;
    [discriminate |].
  constructor; [exact E | exact (IH _ H)].
Qed.

Lemma validateRouteRule_nil (upstreams : gmap string config.UpstreamService)
      (rule : config.RouteRule) :
  Validate.validateRouteRule regexp_Compile rule upstreams = Validate.nil ->
  config.Host rule <> "" /\ HasPrefix (config.Path rule) "/" = true
  /\ is_Some (upstreams !! config.Upstream rule)
  /\ (config.Regex (config.Rewrite rule) <> "" ->
      regexp_Compile (config.Regex (config.Rewrite rule)) = Validate.nil)
  /\ 0 <= config.Attempts (config.Retry rule).
Proof.
  unfold Validate.validateRouteRule. intros H.
  destruct (String.eqb_spec (config.Host rule) "") as [| Hhost];
    [discriminate |].
  destruct (String.eqb (config.Path rule) ""); [discriminate |].
  destruct (HasPrefix (config.Path rule) "/") eqn:Hp; [| discriminate].
  cbn [negb] in H.
  destruct (String.eqb (config.Upstream rule) ""); [discriminate |].
  destruct (upstreams !! config.Upstream rule) as [upstream |] eqn:Hup;
    [| discriminate].
  destruct (Validate.validateMethods (config.Methods rule)); [discriminate |].
  cbv zeta in H.
  destruct (String.eqb_spec (config.Regex (config.Rewrite rule)) "")
    as [Hre | Hre]; cbn [negb] in H.
  - destruct (_ && _) in H; [discriminate |].
    destruct (_ && _) in H; [discriminate |]. cbn [andb] in H.
    destruct (config.Timeout_ rule <? 0); [discriminate |].
    destruct (config.Attempts (config.Retry rule) <? 0) eqn:Ha;
      [discriminate |]. apply Z.ltb_ge in Ha.
    repeat split; try assumption; try (eexists; reflexivity).
    intros Hne. contradiction.
  - destruct (regexp_Compile (config.Regex (config.Rewrite rule))) eqn:Hc;
      [discriminate |].
    destruct (_ && _) in H; [discriminate |].
    destruct (_ && _) in H; [discriminate |].
    destruct (_ && _) in H; [discriminate |].
    destruct (config.Timeout_ rule <? 0); [discriminate |].
    destruct (config.Attempts (config.Retry rule) <? 0) eqn:Ha;
      [discriminate |]. apply Z.ltb_ge in Ha.
    repeat split; try assumption; try (eexists; reflexivity).
Qed.

Lemma validateServices_nil
      (services : list (string * config.UpstreamService)) :
  Validate.validateServices url_Parse services = Validate.nil ->
  Forall (fun entry => Validate.validateUpstreamService url_Parse
                         (fst entry) (snd entry) = Validate.nil) services.
Proof.
  induction services as [| [name service] rest IH]; intros H; [constructor |].
  cbn [Validate.validateServices] in H.
  destruct (Validate.validateUpstreamService url_Parse name service) eqn:E;
    [discriminate |].
  constructor; [exact E | exact (IH H)].
Qed.

Lemma validateTargets_nil (targets : list config.Target) :
  forall i, Validate.validateTargets url_Parse i targets = Validate.nil ->
            Forall (fun target =>
                      is_Some (parsedText url_Parse (config.URL target)))
                   targets.
Proof.
  induction targets as [| target rest IH]; intros i H; [constructor |].
  cbn [Validate.validateTargets] in H.
  destruct (Validate.validateTarget url_Parse target) eqn:E; [discriminate |].
  constructor; [| exact (IH _ H)].
  unfold Validate.validateTarget in E. unfold parsedText.
  destruct (String.eqb (config.URL target) ""); [discriminate |].
  destruct (url_Parse (config.URL target)); [| discriminate].
  eexists. reflexivity.
Qed.

Lemma validateUpstreamService_nil (name : string)
      (service : config.UpstreamService) :
  Validate.validateUpstreamService url_Parse name service = Validate.nil ->
  config.Targets service <> []
  /\ Forall (fun target =>
               is_Some (parsedText url_Parse (config.URL target)))
            (config.Targets service)
  /\ In (config.LoadBalancer service) Validate.validLBStrategies.
Proof.
  unfold Validate.validateUpstreamService. intros H.
  destruct (String.eqb name ""); [discriminate |].
  destruct (Validate.contains Validate.validLBStrategies
                              (config.LoadBalancer service)) eqn:Hlb;
    [| discriminate].
  cbn [negb] in H.
  destruct (len (config.Targets service) =? 0) eqn:Hlen; [discriminate |].
  destruct (Validate.validateTargets url_Parse 0 (config.Targets service))
    eqn:Ht; [discriminate |].
  split; [intros E; rewrite E in Hlen; discriminate |].
  split; [exact (validateTargets_nil _ _ Ht) |].
  unfold Validate.contains in Hlb. apply existsb_exists in Hlb as [x [Hin Hx]].
  apply String.eqb_eq in Hx. subst x. exact Hin.
Qed.

Lemma createTargets_all_parse (hc : Health.checker)
      (upstream : config.UpstreamService) :
  Forall (fun target => is_Some (parsedText url_Parse (config.URL target)))
         (config.Targets upstream) ->
  List.length (createTargets (parsedText url_Parse) hc upstream)
  = List.length (config.Targets upstream)
  /\ map LoadBalancer.IsHealthy
         (createTargets (parsedText url_Parse) hc upstream)
     = map (fun target => Health.IsHealthy hc (config.URL target))
           (config.Targets upstream).
Proof.
  unfold createTargets. induction (config.Targets upstream) as [| t l IH];
    intros H; [split; reflexivity |].
  inversion H as [| ? ? [url Ht] Hl]; subst.
  destruct (IH Hl) as [IH1 IH2].
  cbn [omap list_omap].
  assert (E : createTarget (parsedText url_Parse) hc t
              = Some {| LoadBalancer.URL := url;
                        LoadBalancer.Weight := config.Weight t;
                        LoadBalancer.IsHealthy :=
                          Health.IsHealthy hc (config.URL t);
                        LoadBalancer.Connections := 0 |}).
  { unfold createTarget. rewrite Ht. reflexivity. }
  rewrite E. cbn [List.length map LoadBalancer.IsHealthy].
  split; [f_equal; exact IH1 | f_equal; exact IH2].
Qed.

(** X24. With a validated configuration a matched request reaches the
    load balancer.  Let the upstreams and the routes pass
    [validateUpstreamsConfig] and [validateRoutesConfig], let every
    upstream have its load balancer, and let an expression that
    compiled at validation be usable in a rewrite.  Then the main
    handler answers before the selection only when no route matches,
    with 404: the answers "Internal server error", "Upstream not found",
    "Load balancer not found" and "No healthy targets available" do not
    occur.  At the selection there is one view for each configured
    target of the upstream, with the health the checker reports. *)
Theorem validated_routes_reach_the_selection :
  forall (s : server) (r : Request),
    (forall regex replacement path,
        regex <> "" -> regexp_Compile regex = Validate.nil ->
        is_Some (regexp_ReplaceAllString regex replacement path)) ->
    Validate.validateUpstreamsConfig url_Parse (config.Upstreams (cfg s))
    = Validate.nil ->
    Validate.validateRoutesConfig regexp_Compile (config.Routes (cfg s))
                                  (config.Upstreams (cfg s))
    = Validate.nil ->
    balanced s ->
    match selectTarget (parsedText url_Parse) regexp_ReplaceAllString s r with
    | inl ops =>
        ops = NotFound
        /\ Router.findMatchingRoute (config.Routes (cfg s)) r = None
    | inr sel =>
        exists upstream,
          config.Upstreams (cfg s) !! config.Upstream (sel_route sel)
          = Some upstream
          /\ List.length (sel_targets sel)
             = List.length (config.Targets upstream)
          /\ map LoadBalancer.IsHealthy (sel_targets sel)
             = map (fun target =>
                      Health.IsHealthy (healthChecker s) (config.URL target))
                   (config.Targets upstream)
          /\ sel_targets sel <> []
    end.
Proof.
  intros s r Hregex Hups Hroutes Hb.
  unfold Validate.validateRoutesConfig in Hroutes.
  destruct (len (config.Routes (cfg s)) =? 0); [discriminate |].
  apply validateRules_nil in Hroutes. rewrite List.Forall_forall in Hroutes.
  unfold Validate.validateUpstreamsConfig in Hups.
  destruct (size (config.Upstreams (cfg s)) =? 0)%nat; [discriminate |].
  apply validateServices_nil in Hups. rewrite List.Forall_forall in Hups.
  destruct (selectTarget (parsedText url_Parse) regexp_ReplaceAllString s r)
    as [ops | sel] eqn:Hsel.
  - unfold selectTarget in Hsel.
    pose proof (RouterFacts.findMatchingRoute_first (config.Routes (cfg s)) r)
      as Hfirst.
    destruct (Router.findMatchingRoute (config.Routes (cfg s)) r)
      as [route |] eqn:Hfind.
    2:{ injection Hsel as <-. split; reflexivity. }
    exfalso. destruct Hfirst as [before [after [Hsplit _]]].
    assert (Hin : In route (config.Routes (cfg s))).
    { rewrite Hsplit. apply in_or_app. right. left. reflexivity. }
    destruct (validateRouteRule_nil _ _ (Hroutes route Hin))
      as [_ [_ [[upstream Hup] [Hre _]]]].
    assert (Hrw : is_Some (applyRewrite regexp_ReplaceAllString r
                                        (config.Rewrite route))).
    { unfold applyRewrite.
      destruct (String.eqb_spec (config.Regex (config.Rewrite route)) "")
        as [E | Hne]; cbn [negb andb]; [eexists; reflexivity |].
      destruct (negb (String.eqb (config.Replacement (config.Rewrite route)) ""));
        [| eexists; reflexivity].
      match goal with
      | |- context [regexp_ReplaceAllString ?a ?b ?p] =>
          destruct (Hregex a b p Hne (Hre Hne)) as [x Hx]; rewrite Hx
      end.
      eexists. reflexivity. }
    destruct Hrw as [r1 Hr1]. rewrite Hr1, Hup in Hsel.
    destruct (loadBalancers s !! config.Upstream route) as [lb |] eqn:Hlb.
    + assert (Hsvc : Validate.validateUpstreamService url_Parse
                       (config.Upstream route) upstream = Validate.nil).
      { apply (Hups (config.Upstream route, upstream)).
        apply list_elem_of_In. apply elem_of_map_to_list. exact Hup. }
      destruct (validateUpstreamService_nil _ _ Hsvc) as [Hne [Hparse _]].
      destruct (createTargets_all_parse (healthChecker s) upstream Hparse)
        as [Hlen _].
      destruct (len (createTargets (parsedText url_Parse) (healthChecker s)
                                   upstream) =? 0) eqn:Hz.
      * apply Z.eqb_eq in Hz. unfold len in Hz.
        destruct (config.Targets upstream); [congruence |].
        simpl in Hlen. lia.
      * destruct (LoadBalancer.SelectTarget lb _ r1). discriminate.
    + assert (Hs : is_Some (loadBalancers s !! config.Upstream route)).
      { apply Hb. rewrite Hup. eexists. reflexivity. }
      rewrite Hlb in Hs. destruct Hs as [x Hx]. discriminate.
  - destruct (selectTarget_inr (parsedText url_Parse) regexp_ReplaceAllString
                s r sel Hsel)
      as [_ [upstream [lb [Hup [_ [Htargets [Hne _]]]]]]].
    exists upstream. split; [exact Hup |].
    assert (Hsvc : Validate.validateUpstreamService url_Parse
                     (config.Upstream (sel_route sel)) upstream
                   = Validate.nil).
    { apply (Hups (config.Upstream (sel_route sel), upstream)).
      apply list_elem_of_In. apply elem_of_map_to_list. exact Hup. }
    destruct (validateUpstreamService_nil _ _ Hsvc) as [_ [Hparse _]].
    destruct (createTargets_all_parse (healthChecker s) upstream Hparse)
      as [Hlen Hhealth].
    rewrite Htargets. split; [exact Hlen |]. split; [exact Hhealth |].
    rewrite <- Htargets. exact Hne.
Qed.

End Validated.

Lemma applyRewrite_prefix_round_trip_witness :
  let r := Examples.usersRequest in
  applyRewrite Scenario.regexp_ReplaceAllString r
    {| config.StripPrefix := "/api"; config.AddPrefix := "/v2";
       config.Regex := ""; config.Replacement := "" |}
  = Some (setPath r "/v2/v1/users")
  /\ applyRewrite Scenario.regexp_ReplaceAllString (setPath r "/v2/v1/users")
       {| config.StripPrefix := "/v2"; config.AddPrefix := "/api";
          config.Regex := ""; config.Replacement := "" |}
     = Some r.
Proof.
  intros r.
  destruct (applyRewrite_prefix_round_trip Scenario.regexp_ReplaceAllString
              r "/api" "/v1/users" ltac:(discriminate) eq_refl) as [_ H].
  exact (H "/v2" ltac:(discriminate) eq_refl).
Defined.

Lemma mainHandler_forwards_to_healthy_targets_witness :
  let result :=
    mainHandler (list string * unit) Scenario.url_Parse
                Scenario.regexp_ReplaceAllString
                (recording Scenario.okBackend) Scenario.hmac Scenario.parse
                Scenario.compressedResponseWriter
                (Scenario.leastConnectionsServer, Examples.quietWorld)
                Scenario.direct in
  contacted (snd (snd (fst result))) = ["http://localhost:3002"]
  /\ healthyTargetURL Scenario.url_Parse Scenario.leastConnectionsServer
                      "http://localhost:3002".
Proof.
  intros result.
  assert (Hlog : contacted (snd (snd (fst result)))
                 = ["http://localhost:3002"]) by (vm_compute; reflexivity).
  split; [exact Hlog |].
  destruct (mainHandler_forwards_to_healthy_targets unit Scenario.url_Parse
              Scenario.regexp_ReplaceAllString Scenario.okBackend
              Scenario.hmac Scenario.parse Scenario.compressedResponseWriter
              Scenario.leastConnectionsServer Examples.quietWorld
              Scenario.direct) as [url [n [Hc [Hh _]]]].
  fold result in Hc. rewrite Hlog in Hc. cbn [contacted Examples.quietWorld
    backends fst] in Hc. rewrite app_nil_r in Hc.
  destruct n as [| n]; [discriminate Hc |].
  cbn [repeat] in Hc. injection Hc as Hurl _. rewrite Hurl.
  apply Hh. discriminate.
Defined.

Lemma validated_routes_reach_the_selection_witness :
  let s := Scenario.leastConnectionsServer in
  Validate.validateUpstreamsConfig Examples.url_Parse
    (config.Upstreams (cfg s)) = Validate.nil
  /\ Validate.validateRoutesConfig Examples.regexp_Compile
       (config.Routes (cfg s)) (config.Upstreams (cfg s)) = Validate.nil
  /\ balanced s
  /\ match selectTarget (parsedText Examples.url_Parse)
                        Scenario.regexp_ReplaceAllString s Scenario.direct with
     | inl ops =>
         ops = NotFound
         /\ Router.findMatchingRoute (config.Routes (cfg s)) Scenario.direct
            = None
     | inr sel =>
         exists upstream,
           config.Upstreams (cfg s) !! config.Upstream (sel_route sel)
           = Some upstream
           /\ List.length (sel_targets sel)
              = List.length (config.Targets upstream)
           /\ map LoadBalancer.IsHealthy (sel_targets sel)
              = map (fun target =>
                       Health.IsHealthy (healthChecker s) (config.URL target))
                    (config.Targets upstream)
           /\ sel_targets sel <> []
     end.
Proof.
  intros s.
  assert (H1 : Validate.validateUpstreamsConfig Examples.url_Parse
                 (config.Upstreams (cfg s)) = Validate.nil)
    by (vm_compute; reflexivity).
  assert (H2 : Validate.validateRoutesConfig Examples.regexp_Compile
                 (config.Routes (cfg s)) (config.Upstreams (cfg s))
               = Validate.nil) by (vm_compute; reflexivity).
  assert (H3 : balanced s) by (apply balanced_initialize).
  split; [exact H1 |]. split; [exact H2 |]. split; [exact H3 |].
  apply (validated_routes_reach_the_selection Examples.url_Parse
           Examples.regexp_Compile Scenario.regexp_ReplaceAllString s
           Scenario.direct); [| exact H1 | exact H2 | exact H3].
  intros regex replacement path _ _. eexists. reflexivity.
Defined.

End ProxyFacts.

(* ===================================================================== *)
(** * The compression middleware                                          *)
(* ===================================================================== *)

Module CompressionFacts.
Import Compression.

Lemma Index_empty (s : string) : Index s "" = 0.
Proof. destruct s; reflexivity. Qed.

(** X25. What the compression middleware is built with.  Whatever the
    configuration holds, the level of the middleware is the default of
    gzip or a level from 0 to 9.  Without a list of types the eight
    default types are used.  A configured list replaces them, entry by
    entry; an entry that is not a string becomes the empty string,
    which every content type contains: with such an entry
    [shouldCompress] accepts every content type, unless the declared
    length is positive and below the minimum.  [shouldCompress] refuses
    every response with a declared length that is positive and below
    the minimum.  On the writer of such a middleware, a first
    [WriteHeader] with a status below 400, for headers that
    [shouldCompress] accepts, sets the gzip headers before the status
    and gets its gzip writer: the level is never refused. *)
Theorem NewCompressionMiddleware_invariants :
  forall (int_of_float64 : Z -> Z) (cfg : gmap string any),
    let c := NewCompressionMiddleware int_of_float64 cfg in
    (level c = DefaultCompression \/ NoCompression <= level c <= BestCompression)
    /\ (level c <? HuffmanOnly) || (BestCompression <? level c) = false
    /\ (as_slice (cfg !! "types") = None ->
        as_slice (cfg !! "content_types") = None ->
        compressedTypes c = defaultTypes)
    /\ (forall slice : list any,
          as_slice (cfg !! "content_types") = Some slice
          \/ (as_slice (cfg !! "content_types") = None
              /\ as_slice (cfg !! "types") = Some slice) ->
          compressedTypes c = stringsAt slice
          /\ (Exists (fun v => forall s, v <> AString s) slice ->
              forall (contentType : string) (contentLength : Z),
                (0 <? contentLength) && (contentLength <? minLength c) = false ->
                shouldCompress c contentType contentLength = true))
    /\ (forall (contentType : string) (contentLength : Z),
          0 < contentLength < minLength c ->
          shouldCompress c contentType contentLength = false)
    /\ (forall (lib : Library) (cw : compressedResponseWriter lib)
               (statusCode : Z),
          wroteHeader cw = false -> statusCode < 400 ->
          shouldCompress c (Header_Get (header cw) "Content-Type")
            (if negb (String.eqb (Header_Get (header cw) "Content-Length") "")
             then Sscanf_d lib (Header_Get (header cw) "Content-Length")
             else 0) = true ->
          fst (cw_WriteHeader lib c cw statusCode)
          = [SetHeader "Content-Encoding" "gzip";
             SetHeader "Vary" "Accept-Encoding";
             DelHeader "Content-Length";
             WriteHeader statusCode]
          /\ gzipWriter (snd (cw_WriteHeader lib c cw statusCode))
             = Some (gzip_NewWriter lib (level c))).
Proof.
  intros int_of_float64 cfg c.
  assert (Hlevel : level c = DefaultCompression
                   \/ NoCompression <= level c <= BestCompression).
  { subst c. unfold NewCompressionMiddleware. cbn [level].
    destruct (as_float64 (cfg !! "level")) as [f |].
    - destruct ((NoCompression <=? int_of_float64 f)
                && (int_of_float64 f <=? BestCompression)) eqn:E.
      + right. apply andb_prop in E as [E1 E2].
        apply Z.leb_le in E1, E2. lia.
      + destruct (as_int (cfg !! "level")) as [l |]; [| left; reflexivity].
        destruct ((NoCompression <=? l) && (l <=? BestCompression)) eqn:E';
          [| left; reflexivity].
        right. apply andb_prop in E' as [E1 E2]. apply Z.leb_le in E1, E2. lia.
    - destruct (as_int (cfg !! "level")) as [l |]; [| left; reflexivity].
      destruct ((NoCompression <=? l) && (l <=? BestCompression)) eqn:E';
        [| left; reflexivity].
      right. apply andb_prop in E' as [E1 E2]. apply Z.leb_le in E1, E2. lia. }
  assert (Hok : (level c <? HuffmanOnly) || (BestCompression <? level c)
                = false).
  { unfold HuffmanOnly, DefaultCompression, NoCompression, BestCompression in *.
    apply orb_false_iff. split; [apply Z.ltb_ge | apply Z.ltb_ge]; lia. }
  split; [exact Hlevel |]. split; [exact Hok |].
  split.
  { intros H1 H2. subst c. unfold NewCompressionMiddleware.
    cbn [compressedTypes]. rewrite H1, H2. reflexivity. }
  split.
  { intros slice Hslice.
    assert (Htypes : compressedTypes c = stringsAt slice).
    { subst c. unfold NewCompressionMiddleware. cbn [compressedTypes].
      destruct Hslice as [-> | [-> ->]]; reflexivity. }
    split; [exact Htypes |]. intros Hex contentType contentLength Hlen.
    unfold shouldCompress. rewrite Hlen, Htypes.
    apply existsb_exists. exists "". split.
    - apply List.Exists_exists in Hex as [v [Hin Hv]].
      unfold stringsAt. apply in_map_iff. exists v. split; [| exact Hin].
      destruct v; try reflexivity. exfalso. apply (Hv s). reflexivity.
    - unfold Contains. rewrite Index_empty. reflexivity. }
  split.
  { intros contentType contentLength [H1 H2]. unfold shouldCompress.
    destruct (0 <? contentLength) eqn:E1; [| apply Z.ltb_ge in E1; lia].
    destruct (contentLength <? minLength c) eqn:E2;
      [reflexivity | apply Z.ltb_ge in E2; lia]. }
  intros lib cw statusCode Hw Hlt Hshould.
  unfold cw_WriteHeader. rewrite Hw.
  destruct (400 <=? statusCode) eqn:E; [apply Z.leb_le in E; lia |].
  rewrite Hshould, Hok. split; reflexivity.
Qed.

(** Calls whose [WriteHeader] codes all leave the status line open
    leave it to the first [Write]. *)
Lemma sent_status_open (ops : list WOp) :
  Forall (fun code => fixes_status code = false) (statuses ops) ->
  sent_status ops = None \/ sent_status ops = Some StatusOK.
Proof.
  induction ops as [| op ops IH]; intros Hs; [left; reflexivity |].
  destruct op as [k v | k | code | data | msg]; cbn [sent_status statuses] in *;
    auto.
  inversion Hs as [| ? ? Hc Hrest]; subst. rewrite Hc. auto.
Qed.

Lemma statuses_app (a b : list WOp) :
  statuses (a ++ b) = (statuses a ++ statuses b)%list.
Proof.
  induction a as [| op a IH]; [reflexivity |].
  destruct op; cbn [app statuses]; rewrite ?IH; reflexivity.
Qed.

Lemma statuses_writes (chunks : list string) : statuses (map Write chunks) = [].
Proof. induction chunks; [reflexivity | exact IHchunks]. Qed.

Lemma sent_status_app_Some (a b : list WOp) (code : Z) :
  sent_status a = Some code -> sent_status (a ++ b) = Some code.
Proof.
  induction a as [| op a IH]; [discriminate |].
  destruct op as [k v | k | c | data | msg]; cbn [app sent_status]; auto.
  destruct (fixes_status c); auto.
Qed.

Section Writer.

Variable lib : Library.

Lemma cw_calls_cons (c : CompressionMiddleware)
      (cw : compressedResponseWriter lib) (op : WOp) (ops : list WOp) :
  cw_calls lib c cw (op :: ops)
  = ((fst (cw_call lib c cw op)
      ++ fst (cw_calls lib c (snd (cw_call lib c cw op)) ops))%list,
     snd (cw_calls lib c (snd (cw_call lib c cw op)) ops)).
Proof.
  cbn [Compression.cw_calls]. destruct (cw_call lib c cw op) as [out cw1].
  cbn [fst snd]. destruct (cw_calls lib c cw1 ops). reflexivity.
Qed.

(** The first [WriteHeader] on the wrapper: the status reaches the
    wrapped writer after headers only, and it is the only one. *)
Lemma cw_WriteHeader_first (c : CompressionMiddleware)
      (cw : compressedResponseWriter lib) (statusCode : Z) :
  wroteHeader cw = false ->
  wroteHeader (snd (cw_WriteHeader lib c cw statusCode)) = true
  /\ statuses (fst (cw_WriteHeader lib c cw statusCode)) = [statusCode]
  /\ (forall more,
         sent_status (fst (cw_WriteHeader lib c cw statusCode) ++ more)
         = if fixes_status statusCode then Some statusCode
           else sent_status more)
  /\ (400 <= statusCode -> gzipWriter cw = None ->
      fst (cw_WriteHeader lib c cw statusCode) = [WriteHeader statusCode]
      /\ gzipWriter (snd (cw_WriteHeader lib c cw statusCode)) = None).
Proof.
  intros Hw. unfold Compression.cw_WriteHeader. rewrite Hw.
  destruct (400 <=? statusCode) eqn:E.
  - cbn. repeat split; auto.
  - apply Z.leb_gt in E.
    destruct (shouldCompress c _ _); cbn;
      (split; [reflexivity |]); (split; [reflexivity |]);
      (split; [intros more; reflexivity |]);
      intros Hge; lia.
Qed.

(** After the first [WriteHeader] no status reaches the wrapped writer. *)
Lemma cw_calls_written (c : CompressionMiddleware) (ops : list WOp) :
  forall cw : compressedResponseWriter lib,
    wroteHeader cw = true ->
    statuses (fst (cw_calls lib c cw ops)) = [].
Proof.
  induction ops as [| op ops IH]; intros cw Hw; [reflexivity |].
  rewrite cw_calls_cons. cbn [fst snd]. rewrite statuses_app.
  destruct op as [k v | k | code | data | msg].
  - cbn [Compression.cw_call fst snd statuses app]. apply IH. exact Hw.
  - cbn [Compression.cw_call fst snd statuses app]. apply IH. exact Hw.
  - cbn [Compression.cw_call]. unfold Compression.cw_WriteHeader.
    rewrite Hw. cbn [fst snd statuses app]. apply IH. exact Hw.
  - cbn [Compression.cw_call]. rewrite Hw. cbn [negb].
    destruct (gzipWriter cw) as [g |].
    + destruct (gzip_Write lib g data) as [chunks g']. cbn [fst snd app].
      rewrite statuses_writes. cbn [app]. apply IH. exact Hw.
    + cbn [fst snd statuses app]. apply IH. exact Hw.
  - cbn [Compression.cw_call fst snd statuses app]. apply IH. exact Hw.
Qed.

(** What one [Write] on a wrapper without a status passes on. *)
Lemma cw_call_Write (c : CompressionMiddleware)
      (cw : compressedResponseWriter lib) (data : string) :
  wroteHeader cw = false ->
  wroteHeader (snd (cw_call lib c cw (Write data))) = true
  /\ statuses (fst (cw_call lib c cw (Write data))) = [StatusOK]
  /\ forall more,
       sent_status (fst (cw_call lib c cw (Write data)) ++ more)
       = Some StatusOK.
Proof.
  intros Hw. cbn [Compression.cw_call]. rewrite Hw. cbn [negb].
  destruct (cw_WriteHeader_first c cw StatusOK Hw) as [Hw1 [Hst [Hs _]]].
  destruct (cw_WriteHeader lib c cw StatusOK) as [out cw1].
  cbn [fst snd] in *.
  destruct (gzipWriter cw1) as [g |].
  - destruct (gzip_Write lib g data) as [chunks g']. cbn [fst snd wroteHeader].
    split; [exact Hw1 |]. split.
    + rewrite statuses_app, Hst, statuses_writes. reflexivity.
    + intros more. rewrite <- app_assoc. rewrite Hs. reflexivity.
  - cbn [fst snd]. split; [exact Hw1 |]. split.
    + rewrite statuses_app, Hst. reflexivity.
    + intros more. rewrite <- app_assoc. rewrite Hs. reflexivity.
Qed.

(** The calls before the first status. *)
Lemma cw_calls_first (c : CompressionMiddleware) (ops : list WOp) :
  forall cw : compressedResponseWriter lib,
    wroteHeader cw = false -> gzipWriter cw = None ->
    match first_status ops with
    | Some code =>
        statuses (fst (cw_calls lib c cw ops)) = [code]
        /\ (fixes_status code = true ->
            sent_status ops = Some code
            /\ forall more,
                 sent_status (fst (cw_calls lib c cw ops) ++ more) = Some code)
    | None =>
        sent_status ops = None
        /\ sent_status (fst (cw_calls lib c cw ops)) = None
        /\ (existsb Proxy.is_abort ops = false ->
            gzipWriter (snd (cw_calls lib c cw ops)) = None)
    end.
Proof.
  induction ops as [| op ops IH]; intros cw Hw Hg.
  - cbn. auto.
  - rewrite cw_calls_cons. cbn [fst snd].
    destruct op as [k v | k | code | data | msg].
    + cbn [Compression.cw_call fst snd app sent_status first_status existsb
           Proxy.is_abort orb statuses].
      apply IH; assumption.
    + cbn [Compression.cw_call fst snd app sent_status first_status existsb
           Proxy.is_abort orb statuses].
      apply IH; assumption.
    + cbn [Compression.cw_call first_status sent_status].
      destruct (cw_WriteHeader_first c cw code Hw) as [Hw1 [Hst [Hs _]]].
      split.
      * rewrite statuses_app, Hst, (cw_calls_written c ops _ Hw1).
        reflexivity.
      * intros Hfix. rewrite Hfix. split; [reflexivity |].
        intros more. rewrite <- app_assoc, Hs, Hfix. reflexivity.
    + cbn [first_status sent_status].
      destruct (cw_call_Write c cw data Hw) as [Hw1 [Hst Hs]].
      split.
      * rewrite statuses_app, Hst, (cw_calls_written c ops _ Hw1).
        reflexivity.
      * intros _. split; [reflexivity |].
        intros more. rewrite <- app_assoc, Hs. reflexivity.
    + cbn [Compression.cw_call fst snd app sent_status first_status existsb
           Proxy.is_abort orb].
      repeat split. discriminate.
Qed.

(** After the status is written without a gzip writer. *)
Lemma cw_calls_plain (c : CompressionMiddleware) (ops : list WOp) :
  forall cw : compressedResponseWriter lib,
    wroteHeader cw = true -> gzipWriter cw = None ->
    sent_body (fst (cw_calls lib c cw ops)) = sent_body ops
    /\ gzipWriter (snd (cw_calls lib c cw ops)) = None
    /\ forall op, In op (fst (cw_calls lib c cw ops)) -> In op ops.
Proof.
  induction ops as [| op ops IH]; intros cw Hw Hg.
  - cbn. repeat split; auto.
  - rewrite cw_calls_cons. cbn [fst snd].
    destruct op as [k v | k | code | data | msg].
    + cbn [Compression.cw_call fst snd app sent_body].
      destruct (IH {| header := Header_Set (header cw) k v;
                      gzipWriter := gzipWriter cw;
                      wroteHeader := wroteHeader cw |} Hw Hg)
        as [H1 [H2 H3]].
      split; [exact H1 |]. split; [exact H2 |].
      intros op [<- | Hin]; [left; reflexivity | right; apply H3; exact Hin].
    + cbn [Compression.cw_call fst snd app sent_body].
      destruct (IH {| header := Header_Del (header cw) k;
                      gzipWriter := gzipWriter cw;
                      wroteHeader := wroteHeader cw |} Hw Hg)
        as [H1 [H2 H3]].
      split; [exact H1 |]. split; [exact H2 |].
      intros op [<- | Hin]; [left; reflexivity | right; apply H3; exact Hin].
    + cbn [Compression.cw_call]. unfold Compression.cw_WriteHeader.
      rewrite Hw. cbn [fst snd app sent_body].
      destruct (IH cw Hw Hg) as [H1 [H2 H3]].
      split; [exact H1 |]. split; [exact H2 |].
      intros op Hin. right. apply H3. exact Hin.
    + cbn [Compression.cw_call]. rewrite Hw. cbn [negb]. rewrite Hg.
      cbn [fst snd app sent_body].
      destruct (IH cw Hw Hg) as [H1 [H2 H3]].
      split; [rewrite H1; reflexivity |]. split; [exact H2 |].
      intros op [<- | Hin]; [left; reflexivity | right; apply H3; exact Hin].
    + cbn [Compression.cw_call fst snd app sent_body].
      destruct (IH cw Hw Hg) as [H1 [H2 H3]].
      split; [reflexivity |]. split; [exact H2 |].
      intros op [<- | Hin]; [left; reflexivity | right; apply H3; exact Hin].
Qed.

(** An answer whose first status is 400 or more. *)
Lemma cw_calls_error (c : CompressionMiddleware) (code : Z) (ops : list WOp) :
  400 <= code ->
  forall cw : compressedResponseWriter lib,
    wroteHeader cw = false -> gzipWriter cw = None ->
    first_status ops = Some code ->
    sent_body (fst (cw_calls lib c cw ops)) = sent_body ops
    /\ gzipWriter (snd (cw_calls lib c cw ops)) = None
    /\ forall op, In op (fst (cw_calls lib c cw ops)) -> In op ops.
Proof.
  intros Hcode. induction ops as [| op ops IH]; intros cw Hw Hg Hs.
  - discriminate.
  - rewrite cw_calls_cons. cbn [fst snd].
    destruct op as [k v | k | code' | data | msg]; cbn [first_status] in Hs.
    + cbn [Compression.cw_call fst snd app sent_body].
      destruct (IH {| header := Header_Set (header cw) k v;
                      gzipWriter := gzipWriter cw;
                      wroteHeader := wroteHeader cw |} Hw Hg Hs)
        as [H1 [H2 H3]].
      split; [exact H1 |]. split; [exact H2 |].
      intros op [<- | Hin]; [left; reflexivity | right; apply H3; exact Hin].
    + cbn [Compression.cw_call fst snd app sent_body].
      destruct (IH {| header := Header_Del (header cw) k;
                      gzipWriter := gzipWriter cw;
                      wroteHeader := wroteHeader cw |} Hw Hg Hs)
        as [H1 [H2 H3]].
      split; [exact H1 |]. split; [exact H2 |].
      intros op [<- | Hin]; [left; reflexivity | right; apply H3; exact Hin].
    + injection Hs as ->. cbn [Compression.cw_call].
      destruct (cw_WriteHeader_first c cw code Hw) as [Hw1 [_ [_ Hplain]]].
      destruct (Hplain Hcode Hg) as [Hout Hg1].
      destruct (cw_calls_plain c ops _ Hw1 Hg1) as [H1 [H2 H3]].
      rewrite Hout. cbn [app sent_body].
      split; [exact H1 |]. split; [exact H2 |].
      intros op [<- | Hin]; [left; reflexivity | right; apply H3; exact Hin].
    + injection Hs as <-. unfold StatusOK in Hcode. lia.
    + discriminate.
Qed.

(** X26. When compression keeps the status, and when it does not.  The
    wrapper passes on one [WriteHeader], with the code of the first
    status of the wrapped handler (the code of its first [WriteHeader],
    or 200 for a [Write] that comes first).  When that code fixes the
    status line, the client gets the status that it would get without
    the middleware.  When it does not (an informational 1xx, or a code
    outside 100..999), the later [WriteHeader] of the handler is
    dropped and the status line is left to the body: the client gets
    200, or no status from these calls.  For a path under a skip path,
    or a client that does not accept gzip, the calls of the handler are
    passed on as they are.  When the first status of the handler is 400
    or more, the body is the one it wrote and nothing is added to its
    calls: no gzip header is set. *)
Theorem compression_keeps_the_status :
  forall (c : CompressionMiddleware) (h0 : gmap string (list string))
         (r : Request) (ops : list WOp),
    ((forall code : Z,
         first_status ops = Some code -> fixes_status code = true) ->
     sent_status (Handle lib c h0 r ops) = sent_status ops)
    /\ (existsb (fun skipPath => HasPrefix (Path r) skipPath) (skipPaths c)
        = true -> Handle lib c h0 r ops = ops)
    /\ (Contains (Header_Get (Header r) "Accept-Encoding") "gzip" = false ->
        Handle lib c h0 r ops = ops)
    /\ (forall code : Z,
          first_status ops = Some code -> 400 <= code ->
          sent_body (Handle lib c h0 r ops) = sent_body ops
          /\ forall op, In op (Handle lib c h0 r ops) -> In op ops)
    /\ (existsb (fun skipPath => HasPrefix (Path r) skipPath) (skipPaths c)
        = false ->
        Contains (Header_Get (Header r) "Accept-Encoding") "gzip" = true ->
        forall code : Z,
          first_status ops = Some code ->
          statuses (Handle lib c h0 r ops) = [code]
          /\ (fixes_status code = false ->
              sent_status (Handle lib c h0 r ops) = None
              \/ sent_status (Handle lib c h0 r ops) = Some StatusOK)).
Proof.
  intros c h0 r ops. unfold Compression.Handle.
  set (cw0 := {| header := h0; gzipWriter := None; wroteHeader := false |}).
  pose proof (cw_calls_first c ops cw0 eq_refl eq_refl) as Hfirst.
  split; [| split; [| split; [| split]]].
  - intros Hfix.
    destruct (existsb _ (skipPaths c)); [reflexivity |].
    destruct (negb (Contains _ "gzip")); [reflexivity |].
    destruct (cw_calls lib c cw0 ops) as [out cw] eqn:E. cbn [fst snd] in *.
    destruct (first_status ops) as [code |].
    + destruct Hfirst as [_ Hsent].
      destruct (Hsent (Hfix code eq_refl)) as [Hops Hout].
      rewrite Hops.
      destruct (existsb Proxy.is_abort ops);
        [rewrite <- (app_nil_r out); apply Hout |].
      destruct (gzipWriter cw) as [g |];
        [apply Hout | rewrite <- (app_nil_r out); apply Hout].
    + destruct Hfirst as [Hops [Hout Hnone]]. rewrite Hops.
      destruct (existsb Proxy.is_abort ops); [exact Hout |].
      rewrite (Hnone eq_refl). exact Hout.
  - intros ->. reflexivity.
  - intros ->. cbn [negb]. destruct (existsb _ (skipPaths c)); reflexivity.
  - intros code Hs Hcode.
    destruct (existsb _ (skipPaths c)); [split; auto |].
    destruct (negb (Contains _ "gzip")); [split; auto |].
    destruct (cw_calls_error c code ops Hcode cw0 eq_refl eq_refl Hs)
      as [H1 [H2 H3]].
    destruct (cw_calls lib c cw0 ops) as [out cw] eqn:E. cbn [fst snd] in *.
    rewrite H2. destruct (existsb Proxy.is_abort ops); split; assumption.
  - intros Hskip Hgzip code Hs. rewrite Hskip, Hgzip. cbn [negb].
    rewrite Hs in Hfirst. destruct Hfirst as [Hone _].
    destruct (cw_calls lib c cw0 ops) as [out cw] eqn:E. cbn [fst snd] in *.
    assert (Hst : statuses
                    (if existsb Proxy.is_abort ops then out
                     else match gzipWriter cw with
                          | Some g => (out ++ map Write (gzip_Close lib g))%list
                          | None => out
                          end) = [code]).
    { destruct (existsb Proxy.is_abort ops); [exact Hone |].
      destruct (gzipWriter cw) as [g |]; [| exact Hone].
      rewrite statuses_app, statuses_writes, Hone. reflexivity. }
    split; [exact Hst |].
    intros Hopen. apply sent_status_open. rewrite Hst.
    constructor; [exact Hopen | constructor].
Qed.

End Writer.

Lemma compression_keeps_the_status_witness :
  let c := NewCompressionMiddleware (fun _ => 0) ∅ in
  let ok := [SetHeader "Content-Type" "application/json";
             WriteHeader 200; Write "{}"] in
  let missing := [SetHeader "Content-Type" "application/json";
                  WriteHeader 404; Write "{}"] in
  let hinted := [SetHeader "Content-Type" "application/json";
                 WriteHeader 103; WriteHeader 404; Write "{}"] in
  Handle Examples.marking c ∅ Examples.gzipClient ok
  = [SetHeader "Content-Type" "application/json";
     SetHeader "Content-Encoding" "gzip";
     SetHeader "Vary" "Accept-Encoding";
     DelHeader "Content-Length";
     WriteHeader 200; Write "gzip({})"; Write "gzip-trailer"]
  /\ sent_status (Handle Examples.marking c ∅ Examples.gzipClient ok)
     = Some 200
  /\ Handle Examples.marking c ∅ Examples.gzipClient missing = missing
  /\ Handle Examples.marking c ∅ Scenario.direct ok = ok
  /\ sent_status hinted = Some 404
  /\ statuses (Handle Examples.marking c ∅ Examples.gzipClient hinted) = [103]
  /\ sent_status (Handle Examples.marking c ∅ Examples.gzipClient hinted)
     = Some 200.
Proof.
  intros c ok missing hinted.
  destruct (compression_keeps_the_status Examples.marking c ∅
              Examples.gzipClient ok) as [Hstatus _].
  destruct (compression_keeps_the_status Examples.marking c ∅
              Scenario.direct ok) as [_ [_ [Hplain _]]].
  destruct (compression_keeps_the_status Examples.marking c ∅
              Examples.gzipClient hinted) as [_ [_ [_ [_ Hopen]]]].
  split; [reflexivity |]. split.
  { rewrite Hstatus; [reflexivity |].
    intros code Hcode. injection Hcode as <-. reflexivity. }
  split; [reflexivity |]. split; [apply Hplain; reflexivity |].
  split; [reflexivity |].
  split; [exact (proj1 (Hopen eq_refl eq_refl 103 eq_refl)) | reflexivity].
Defined.

End CompressionFacts.

(* ===================================================================== *)
(** * The refill of a rate limiter                                        *)
(* ===================================================================== *)

Module RateLimitRefillFacts.
Import RateLimit RateLimitRegistry RateLimitRegistryFacts.

Lemma Allow_idle (l : Limiter) (t : Z) :
  1 <= limit l -> 1 <= burst l -> - limit l < tokens l ->
  last l + Second <= t ->
  fst (Allow l t) = true.
Proof.
  intros Hr Hb Htok Hidle. unfold Allow, advance.
  assert (Hs : Second = 1000000000) by reflexivity.
  destruct (t <? last l) eqn:E; [apply Z.ltb_lt in E; lia |].
  set (elapsed := Time_Sub t (last l)).
  assert (Hel : Second <= elapsed).
  { subst elapsed. unfold Time_Sub, maxDuration, int_max. lia. }
  unfold tokensFromDuration.
  destruct (limit l <=? 0) eqn:E0; [apply Z.leb_le in E0; lia |].
  assert (Hdelta : Second * limit l <= elapsed * limit l).
  { apply Z.mul_le_mono_nonneg_r; lia. }
  assert (Hge : 0 <= (if burst l * Second <? tokens l + elapsed * limit l
                      then burst l * Second
                      else tokens l + elapsed * limit l) - 1 * Second).
  { destruct (burst l * Second <? tokens l + elapsed * limit l); nia. }
  destruct (_ - 1 * Second <? 0) eqn:E1; [apply Z.ltb_lt in E1; lia |].
  destruct (1 <=? burst l) eqn:E2; [reflexivity | apply Z.leb_gt in E2; lia].
Qed.

Lemma Allow_tokens (l : Limiter) (t : Z) :
  1 <= limit l -> - limit l < tokens l ->
  - limit l < tokens (snd (Allow l t))
  /\ (last (snd (Allow l t)) = last l \/ last (snd (Allow l t)) = t).
Proof.
  intros Hr Htok. unfold Allow.
  set (toks := advance l t - 1 * Second).
  destruct (toks <? 0) eqn:E.
  - apply Z.ltb_lt in E. unfold durationFromTokens.
    destruct (limit l <=? 0) eqn:E0; [apply Z.leb_le in E0; lia |].
    destruct (int_max <? Z.quot (- toks) (limit l)) eqn:E1.
    + unfold InfDuration, int_max. cbn [Z.leb Z.compare andb].
      rewrite andb_false_r. cbn [snd]. split; [exact Htok | left; reflexivity].
    + destruct (Z.quot (- toks) (limit l) <=? 0) eqn:E2.
      * apply Z.leb_le in E2.
        assert (Hq : 0 <= Z.quot (- toks) (limit l)) by (apply Z.quot_pos; lia).
        assert (Hz : Z.quot (- toks) (limit l) = 0) by lia.
        apply Z.quot_small_iff in Hz; [| lia].
        destruct (1 <=? burst l); cbn [andb snd tokens last].
        -- split; [lia | right; reflexivity].
        -- split; [exact Htok | left; reflexivity].
      * rewrite andb_false_r. cbn [snd]. split; [exact Htok | left; reflexivity].
  - apply Z.ltb_ge in E. cbn [Z.leb Z.compare].
    destruct (1 <=? burst l); cbn [andb snd tokens last].
    + split; [lia | right; reflexivity].
    + split; [exact Htok | left; reflexivity].
Qed.

(** What holds of every limiter of a middleware that has served the
    requests [past]: it has the rate and burst of the configuration, it
    owes less than one request, and the time of its last admission is
    the time of a request of its key. *)
Lemma serve_limiters (events : list (Z * Request)) :
  forall (rlm : RateLimitMiddleware) (past : list (Z * Request)),
    1 <= RequestsPerSecond (config rlm) ->
    (forall key lim,
        limiters rlm !! key = Some lim ->
        limit lim = RequestsPerSecond (config rlm)
        /\ burst lim = Burst (config rlm)
        /\ - limit lim < tokens lim
        /\ (last lim = 0
            \/ exists e, In e past /\ getKey rlm (snd e) = key
                         /\ fst e = last lim)) ->
    config (snd (serve rlm events)) = config rlm
    /\ forall key lim,
         limiters (snd (serve rlm events)) !! key = Some lim ->
         limit lim = RequestsPerSecond (config rlm)
         /\ burst lim = Burst (config rlm)
         /\ - limit lim < tokens lim
         /\ (last lim = 0
             \/ exists e, In e (past ++ events)%list /\ getKey rlm (snd e) = key
                          /\ fst e = last lim).
Proof.
  induction events as [| [t r] rest IH]; intros rlm past Hr Hinv.
  - split; [reflexivity |]. intros key lim H. rewrite app_nil_r.
    apply Hinv. exact H.
  - rewrite serve_cons. cbn [snd].
    set (rlm1 := snd (allow_request rlm t r)).
    assert (Hc1 : config rlm1 = config rlm).
    { subst rlm1. rewrite allow_request_limiter. reflexivity. }
    destruct (IH rlm1 (past ++ [(t, r)])%list) as [IHc IHl].
    + rewrite Hc1. exact Hr.
    + intros key lim Hlk. subst rlm1. rewrite allow_request_limiter in Hlk.
      cbn [snd limiters] in Hlk. rewrite Hc1.
      assert (Hk : forall e : Z * Request,
                 getKey (snd (allow_request rlm t r)) (snd e)
                             = getKey rlm (snd e)).
      { intros e. apply getKey_config. exact Hc1. }
      destruct (decide (key = getKey rlm r)) as [-> | Hne].
      * rewrite lookup_insert_eq in Hlk. injection Hlk as <-.
        set (l0 := default (NewLimiter (RequestsPerSecond (config rlm))
                                       (Burst (config rlm)))
                           (limiters rlm !! getKey rlm r)).
        assert (Hl0 : limit l0 = RequestsPerSecond (config rlm)
                      /\ burst l0 = Burst (config rlm)
                      /\ - limit l0 < tokens l0
                      /\ (last l0 = 0
                          \/ exists e, In e past
                                       /\ getKey rlm (snd e) = getKey rlm r
                                       /\ fst e = last l0)).
        { subst l0. destruct (limiters rlm !! getKey rlm r) as [l |] eqn:E;
            cbn [from_option id].
          - apply Hinv. exact E.
          - cbn [NewLimiter limit burst tokens last].
            split; [reflexivity |]. split; [reflexivity |].
            split; [lia | left; reflexivity]. }
        destruct Hl0 as [H1 [H2 [H3 H4]]].
        destruct (Allow_keeps_rate l0 t) as [E1 E2].
        destruct (Allow_tokens l0 t ltac:(lia) H3) as [H5 H6].
        rewrite E1, E2. split; [exact H1 |]. split; [exact H2 |].
        split; [exact H5 |].
        destruct H6 as [H6 | H6]; rewrite H6.
        -- destruct H4 as [H4 | [e [Hin [Hke Hte]]]]; [left; exact H4 |].
           right. exists e. split; [apply in_or_app; left; exact Hin |].
           split; [rewrite Hk; exact Hke | exact Hte].
        -- right. exists (t, r). split; [apply in_or_app; right; left; reflexivity |].
           split; [rewrite Hk; reflexivity | reflexivity].
      * rewrite lookup_insert_ne in Hlk by congruence.
        destruct (Hinv key lim Hlk) as [H1 [H2 [H3 H4]]].
        split; [exact H1 |]. split; [exact H2 |]. split; [exact H3 |].
        destruct H4 as [H4 | [e [Hin [Hke Hte]]]]; [left; exact H4 |].
        right. exists e. split; [apply in_or_app; left; exact Hin |].
        split; [rewrite Hk; exact Hke | exact Hte].
    + split; [rewrite IHc; exact Hc1 |].
      intros key lim Hlk. destruct (IHl key lim Hlk) as [H1 [H2 [H3 H4]]].
      rewrite Hc1 in H1, H2.
      split; [exact H1 |]. split; [exact H2 |]. split; [exact H3 |].
      destruct H4 as [H4 | [e [Hin [Hke Hte]]]]; [left; exact H4 |].
      right. exists e. split; [rewrite <- app_assoc in Hin; exact Hin |].
      split; [| exact Hte]. rewrite <- Hke. symmetry.
      apply getKey_config. exact Hc1.
Qed.

(** X27. A second of rest is enough.  Take a middleware in any state it
    can reach from its construction, with a rate and a burst of at least
    one.  A request whose key has sent nothing during the last second
    (every earlier request of the key, admitted or denied, is at least a
    second old) is admitted.  So a client that was denied and waits for
    the second that the Retry-After header names is served. *)
Theorem a_second_of_rest_is_admitted :
  forall (cfg : gmap string any) (history : list (Z * Request))
         (t : Z) (r : Request),
    let rlm := snd (serve (NewRateLimitMiddleware cfg) history) in
    1 <= RequestsPerSecond (config rlm) -> 1 <= Burst (config rlm) ->
    Second <= t ->
    Forall (fun e => keyed rlm (getKey rlm r) e = true ->
                     fst e + Second <= t) history ->
    fst (allow_request rlm t r) = true.
Proof.
  intros cfg history t r rlm Hr Hb Ht Hidle.
  destruct (serve_limiters history (NewRateLimitMiddleware cfg) [])
    as [Hc Hinv].
  { fold rlm in Hr. 
    assert (E : config rlm = config (NewRateLimitMiddleware cfg)).
    { subst rlm. destruct (fromConfig_serve history (NewRateLimitMiddleware cfg))
        as [_ E]; [| exact E].
      intros key lim H. cbn in H. rewrite lookup_empty in H. discriminate. }
    rewrite <- E. exact Hr. }
  { intros key lim H. cbn in H. rewrite lookup_empty in H. discriminate. }
  fold rlm in Hc, Hinv. cbn [app] in Hinv.
  rewrite allow_request_limiter. cbn [fst].
  destruct (limiters rlm !! getKey rlm r) as [l |] eqn:Hlk;
    cbn [from_option id].
  - destruct (Hinv _ _ Hlk) as [H1 [H2 [H3 H4]]]. rewrite <- Hc in H1, H2.
    apply Allow_idle; [lia | lia | exact H3 |].
    destruct H4 as [-> | [e [Hin [Hke Hte]]]]; [lia |].
    rewrite <- Hte. rewrite List.Forall_forall in Hidle. apply Hidle; [exact Hin |].
    unfold keyed. apply String.eqb_eq. rewrite <- Hke.
    apply getKey_config. exact Hc.
  - apply Allow_idle; cbn [NewLimiter limit burst tokens last]; lia.
Qed.

Lemma a_second_of_rest_is_admitted_witness :
  let cfg : gmap string any :=
    {[ "requests_per_second" := AInt 1; "burst" := AInt 1 ]} in
  let t0 := Proxy.now Scenario.world0 in
  let history := [(t0, Scenario.direct); (t0, Scenario.direct)] in
  let rlm := snd (serve (NewRateLimitMiddleware cfg) history) in
  fst (serve (NewRateLimitMiddleware cfg) history) = [true; false]
  /\ fst (allow_request rlm (t0 + Second) Scenario.direct) = true.
Proof.
  intros cfg t0 history rlm. split; [reflexivity |].
  apply (a_second_of_rest_is_admitted cfg history (t0 + Second)
                                      Scenario.direct).
  - vm_compute. discriminate.
  - vm_compute. discriminate.
  - vm_compute. discriminate.
  - repeat constructor; intros _; vm_compute; discriminate.
Defined.

End RateLimitRefillFacts.

(** * Defaults and the validation of the global settings *)

Module SettingsFacts.
Import Validate Settings.

Lemma orZ_idem (x d : Z) :
  d <> 0 ->
  (if (if x =? 0 then d else x) =? 0 then d else (if x =? 0 then d else x))
  = (if x =? 0 then d else x).
Proof.
  intros Hd. destruct (x =? 0) eqn:E.
  - destruct (d =? 0) eqn:E'; [apply Z.eqb_eq in E'; contradiction | reflexivity].
  - rewrite E. reflexivity.
Qed.

Lemma orS_idem (x d : string) :
  d <> "" ->
  (if String.eqb (if String.eqb x "" then d else x) ""
   then d else (if String.eqb x "" then d else x))
  = (if String.eqb x "" then d else x).
Proof.
  intros Hd. destruct (String.eqb x "") eqn:E.
  - destruct (String.eqb_spec d ""); [contradiction | reflexivity].
  - rewrite E. reflexivity.
Qed.

(** X28. Defaults and validation.  [setDefaults] is idempotent.  On a
    configuration whose global part passes [validateGlobalConfig] it
    keeps the ports and the log settings as they are and the result
    passes again.  After [setDefaults] the validation of the TLS part
    never reports an empty cache directory, and a TLS part that passed
    before passes after. *)
Theorem setDefaults_keeps_a_valid_configuration :
  forall config : Config,
    setDefaults (setDefaults config) = setDefaults config
    /\ (validateGlobalConfig (Global config) = nil ->
        validateGlobalConfig (Global (setDefaults config)) = nil
        /\ HTTPPort (Server (Global (setDefaults config)))
           = HTTPPort (Server (Global config))
        /\ HTTPSPort (Server (Global (setDefaults config)))
           = HTTPSPort (Server (Global config))
        /\ Log (Global (setDefaults config)) = Log (Global config))
    /\ validateTLSConfig (TLS_ (setDefaults config))
       <> Errorf "Let's Encrypt cache directory cannot be empty"
    /\ (validateTLSConfig (TLS_ config) = nil ->
        validateTLSConfig (TLS_ (setDefaults config)) = nil).
Proof.
  intros config. split; [| split; [| split]].
  - unfold setDefaults. cbn [Global Server Log TLS_ AutoCert Health_ Metrics
      HTTPPort HTTPSPort ReadTimeout WriteTimeout IdleTimeout MaxHeaderSize
      HTTP2Enabled Level Format TLS_Enabled AutoCert_Enabled Email
      AutoCert_Hosts CacheDir Staging Certificates Health_Enabled
      Health_Interval Health_Timeout Health_Port Metrics_Enabled Metrics_Port
      Metrics_Path].
    rewrite !orZ_idem by (unfold Second; lia).
    rewrite !orS_idem by discriminate. reflexivity.
  - unfold validateGlobalConfig. intros H.
    destruct config as [[[hp hsp rt wt it mh h2] [lvl fmt]] tls health metrics].
    cbn [Global Server Log HTTPPort HTTPSPort ReadTimeout WriteTimeout
         IdleTimeout MaxHeaderSize Level Format setDefaults] in *.
    destruct ((hp <? 1) || (65535 <? hp)) eqn:E1; [discriminate |].
    destruct ((hsp <? 1) || (65535 <? hsp)) eqn:E2; [discriminate |].
    destruct (hp =? hsp) eqn:E3; [discriminate |].
    destruct (rt <? 0) eqn:E4; [discriminate |].
    destruct (wt <? 0) eqn:E5; [discriminate |].
    destruct (it <? 0) eqn:E6; [discriminate |].
    destruct (mh <? 1024) eqn:E7; [discriminate |].
    destruct (contains validLogLevels lvl) eqn:E8; [| discriminate].
    destruct (contains validLogFormats fmt) eqn:E9; [| discriminate].
    apply orb_false_iff in E1 as [E1a E1b]. apply orb_false_iff in E2 as [E2a E2b].
    apply Z.ltb_ge in E1a, E1b, E2a, E2b, E4, E5, E6, E7.
    assert (Hhp : (hp =? 0) = false) by (apply Z.eqb_neq; lia).
    assert (Hhsp : (hsp =? 0) = false) by (apply Z.eqb_neq; lia).
    assert (Hmh : (mh =? 0) = false) by (apply Z.eqb_neq; lia).
    assert (Hlvl : String.eqb lvl "" = false).
    { destruct (String.eqb_spec lvl ""); [subst; discriminate E8 | reflexivity]. }
    assert (Hfmt : String.eqb fmt "" = false).
    { destruct (String.eqb_spec fmt ""); [subst; discriminate E9 | reflexivity]. }
    rewrite Hhp, Hhsp, Hmh, Hlvl, Hfmt.
    assert (G1 : (hp <? 1) || (65535 <? hp) = false).
    { apply orb_false_iff. split; apply Z.ltb_ge; lia. }
    assert (G2 : (hsp <? 1) || (65535 <? hsp) = false).
    { apply orb_false_iff. split; apply Z.ltb_ge; lia. }
    rewrite G1, G2, E3, E8, E9. cbn [negb].
    assert (G4 : ((if rt =? 0 then 30 * Second else rt) <? 0) = false).
    { apply Z.ltb_ge. destruct (rt =? 0); unfold Second; lia. }
    assert (G5 : ((if wt =? 0 then 30 * Second else wt) <? 0) = false).
    { apply Z.ltb_ge. destruct (wt =? 0); unfold Second; lia. }
    assert (G6 : ((if it =? 0 then 60 * Second else it) <? 0) = false).
    { apply Z.ltb_ge. destruct (it =? 0); unfold Second; lia. }
    assert (G7 : (mh <? 1024) = false) by (apply Z.ltb_ge; lia).
    rewrite G4, G5, G6, G7. repeat split.
  - unfold validateTLSConfig, setDefaults.
    cbn [TLS_ TLS_Enabled AutoCert AutoCert_Enabled Email AutoCert_Hosts
         CacheDir Certificates].
    destruct (negb (TLS_Enabled (TLS_ config))); [discriminate |].
    destruct (AutoCert_Enabled (AutoCert (TLS_ config))).
    + destruct (String.eqb (Email (AutoCert (TLS_ config))) "");
        [discriminate |].
      destruct (len (AutoCert_Hosts (AutoCert (TLS_ config))) =? 0);
        [discriminate |].
      destruct (existsb _ _); [discriminate |].
      assert (Hc : String.eqb
                     (if String.eqb (CacheDir (AutoCert (TLS_ config))) ""
                      then "./certs" else CacheDir (AutoCert (TLS_ config)))
                     "" = false).
      { destruct (String.eqb (CacheDir (AutoCert (TLS_ config))) "") eqn:E;
          [reflexivity | exact E]. }
      rewrite Hc.
      generalize 0. induction (Certificates (TLS_ config)) as [| cert rest IH];
        intros i; cbn [validateCertificates]; [discriminate |].
      destruct (len (TLS.Hosts cert) =? 0); [cbv; discriminate |].
      destruct (String.eqb (TLS.CertFile cert) ""); [cbv; discriminate |].
      destruct (String.eqb (TLS.KeyFile cert) ""); [cbv; discriminate |].
      apply IH.
    + generalize 0. induction (Certificates (TLS_ config)) as [| cert rest IH];
        intros i; cbn [validateCertificates]; [discriminate |].
      destruct (len (TLS.Hosts cert) =? 0); [cbv; discriminate |].
      destruct (String.eqb (TLS.CertFile cert) ""); [cbv; discriminate |].
      destruct (String.eqb (TLS.KeyFile cert) ""); [cbv; discriminate |].
      apply IH.
  - unfold validateTLSConfig, setDefaults.
    cbn [TLS_ TLS_Enabled AutoCert AutoCert_Enabled Email AutoCert_Hosts
         CacheDir Certificates].
    destruct (negb (TLS_Enabled (TLS_ config))); [reflexivity |].
    destruct (AutoCert_Enabled (AutoCert (TLS_ config))); [| auto].
    destruct (String.eqb (Email (AutoCert (TLS_ config))) ""); [auto |].
    destruct (len (AutoCert_Hosts (AutoCert (TLS_ config))) =? 0); [auto |].
    destruct (existsb _ _); [auto |].
    destruct (String.eqb (CacheDir (AutoCert (TLS_ config))) "") eqn:E;
      [discriminate |]. rewrite E. auto.
Qed.

Lemma setDefaults_keeps_a_valid_configuration_witness :
  let config :=
    {| Global :=
         {| Server := {| HTTPPort := 80; HTTPSPort := 443; ReadTimeout := 0;
                         WriteTimeout := 0; IdleTimeout := 0;
                         MaxHeaderSize := 4096; HTTP2Enabled := true |};
            Log := {| Level := "warn"; Format := "text" |} |};
       TLS_ := {| TLS_Enabled := true;
                  AutoCert := {| AutoCert_Enabled := true;
                                 Email := "ops@example.com";
                                 AutoCert_Hosts := ["example.com"];
                                 CacheDir := "";
                                 Staging := false |};
                  Certificates := [] |};
       Health_ := {| Health_Enabled := true; Health_Interval := 0;
                     Health_Timeout := 0; Health_Port := 0 |};
       Metrics := {| Metrics_Enabled := false; Metrics_Port := 0;
                     Metrics_Path := "" |} |} in
  validateGlobalConfig (Global config) = nil
  /\ validateTLSConfig (TLS_ config)
     = Errorf "Let's Encrypt cache directory cannot be empty"
  /\ validateGlobalConfig (Global (setDefaults config)) = nil
  /\ validateTLSConfig (TLS_ (setDefaults config)) = nil
  /\ setDefaults (setDefaults config) = setDefaults config.
Proof.
  intros config.
  assert (Hg : validateGlobalConfig (Global config) = nil) by reflexivity.
  destruct (setDefaults_keeps_a_valid_configuration config)
    as [Hidem [Hglobal _]].
  split; [exact Hg |]. split; [reflexivity |].
  split; [exact (proj1 (Hglobal Hg)) |]. split; [reflexivity |].
  exact Hidem.
Defined.

End SettingsFacts.
